(** * agent-identity: the LaTeX document generator under [docs/tex]

    A shallow embedding of the text normaliser ([docs/tex/__init__.py]) and of
    the content and configuration models ([docs/tex/models/]), together with
    the properties the specification states about them.

    Conventions of the embedding:
    - a Python [str] is the list of its code points, restricted to code points
      below 256 (one [ascii] per code point);
    - [re.sub] and [str.replace] are left-to-right scans over the text;
    - the regular expressions of the source are written in a small pattern
      language whose matcher follows Python's backtracking priorities
      (greedy: longest first, lazy: shortest first);
    - a [pylatex.Document] is the list of the [NoEscape] chunks appended to it;
    - code that can raise returns a [result]. *)

From Stdlib Require Import String Ascii List Bool Arith Lia DecimalString.
Import ListNotations.

Open Scope string_scope.
Open Scope list_scope.

(* ================================================================== *)
(** * Python strings *)
(* ================================================================== *)

Abbreviation str := (list ascii).

Definition lit (s : string) : str := list_ascii_of_string s.
Coercion lit : string >-> list.

(** [\x00] and [\n]. *)
Definition NUL : ascii := "000"%char.
Definition LF : ascii := "010"%char.

(** [str(n)] for a non-negative integer. *)
Definition str_of_nat (n : nat) : str :=
  lit (NilEmpty.string_of_uint (Nat.to_uint n)).

(** [s.startswith(p)], returning what follows the prefix. *)
Fixpoint strip_prefix (p s : str) : option str :=
  match p, s with
  | [], _ => Some s
  | a :: p', b :: s' => if Ascii.eqb a b then strip_prefix p' s' else None
  | _ :: _, [] => None
  end.

(** [needle in s] on strings. *)
Fixpoint contains (needle s : str) : bool :=
  match strip_prefix needle s with
  | Some _ => true
  | None => match s with
            | [] => false
            | _ :: s' => contains needle s'
            end
  end.

(** ** Left-to-right scanning

    Both [re.sub] and [str.replace] walk the text from the left: where the
    pattern applies, the replacement is emitted and the scan resumes after the
    match; elsewhere the character is copied.  [try_at] threads the state of
    a replacement callback.  The fuel is the length of the text, which is
    enough whenever a match consumes at least one character
    ([scan_fuel_irrelevant]). *)

Section Scan.
Context {A : Type}.
Variable try_at : A -> str -> option (A * str * str).

Fixpoint scan (fuel : nat) (a : A) (s : str) : A * str :=
  match s with
  | [] => (a, [])
  | c :: s' =>
      match fuel with
      | 0 => (a, s)
      | S fuel' =>
          match try_at a s with
          | Some (a', out, rest) =>
              let '(a'', r) := scan fuel' a' rest in (a'', out ++ r)
          | None =>
              let '(a'', r) := scan fuel' a s' in (a'', c :: r)
          end
      end
  end.
End Scan.

(** [text.replace(old, new)].  With an empty [old] Python inserts [new]
    before every character and at the end. *)
Definition str_replace (old new text : str) : str :=
  match old with
  | [] => new ++ flat_map (fun c => c :: new) text
  | _ :: _ =>
      snd (scan (fun (_ : unit) s =>
                   match strip_prefix old s with
                   | Some rest => Some (tt, new, rest)
                   | None => None
                   end)
                (length text) tt text)
  end.

(** Python's [str.isspace] on code points below 256:
    [\t \n \v \f \r], [\x1c..\x1f], space, [\x85] and [\xa0]. *)
Definition isspace (c : ascii) : bool :=
  let n := nat_of_ascii c in
  ((9 <=? n)%nat && (n <=? 13)%nat) || ((28 <=? n)%nat && (n <=? 32)%nat)
  || (n =? 133)%nat || (n =? 160)%nat.

(** [s.rstrip()]: drop the trailing whitespace. *)
Fixpoint rstrip (s : str) : str :=
  match s with
  | [] => []
  | c :: s' =>
      match rstrip s' with
      | [] => if isspace c then [] else [c]
      | r => c :: r
      end
  end.

(* ================================================================== *)
(** * Regular expressions *)
(* ================================================================== *)

(** The character classes the source uses: [.], [[^c]] and [[a-zA-Z]]. *)
Inductive cclass : Type :=
| Dot
| NotChar (c : ascii)
| Letter.

Definition is_letter (c : ascii) : bool :=
  let n := nat_of_ascii c in
  ((97 <=? n)%nat && (n <=? 122)%nat) || ((65 <=? n)%nat && (n <=? 90)%nat).

Definition in_class (cs : cclass) (c : ascii) : bool :=
  match cs with
  | Dot => negb (Ascii.eqb c LF)
  | NotChar x => negb (Ascii.eqb c x)
  | Letter => is_letter c
  end.

(** A pattern is a sequence of literal characters and of repeated character
    classes; [Rep capture greedy min cs] is [cs] repeated at least [min]
    times, greedily ([cs+], [cs*]) or lazily ([cs+?]), inside a capturing
    group when [capture] is set. *)
Inductive node : Type :=
| Lit (c : ascii)
| Rep (capture greedy : bool) (min : nat) (cs : cclass).

Definition pattern : Type := list node.

Section Rep.
(** [k] matches the rest of the pattern. *)
Variable k : list str -> str -> option (list str * str).
Variables (capture greedy : bool) (min : nat) (cs : cclass).

(** [acc] is what the repetition has consumed so far.  A greedy repetition
    first tries to take one more character and falls back to stopping
    here; a lazy one first tries to stop. *)
Fixpoint rep (acc : str) (gs : list str) (s : str)
  : option (list str * str) :=
  let stop :=
    if (min <=? length acc)%nat
    then k (if capture then gs ++ [acc] else gs) s
    else None in
  match s with
  | c :: s' =>
      if in_class cs c then
        if greedy then
          match rep (acc ++ [c]) gs s' with
          | Some r => Some r
          | None => stop
          end
        else
          match stop with
          | Some r => Some r
          | None => rep (acc ++ [c]) gs s'
          end
      else stop
  | [] => stop
  end.
End Rep.

(** [rmatch p gs s]: match [p] at the start of [s]; the result is the list
    of captured groups and the text after the match. *)
Fixpoint rmatch (p : pattern) (gs : list str) (s : str)
  : option (list str * str) :=
  match p with
  | [] => Some (gs, s)
  | Lit c :: p' =>
      match s with
      | x :: s' => if Ascii.eqb x c then rmatch p' gs s' else None
      | [] => None
      end
  | Rep capture greedy min cs :: p' =>
      rep (rmatch p') capture greedy min cs [] gs s
  end.

(** What follows a run of class characters: the end of the text or a
    character outside the class. *)
Definition ends_run (cs : cclass) (s : str) : bool :=
  match s with
  | [] => true
  | c :: _ => negb (in_class cs c)
  end.

(** A [re.Match]: [group(0)] is the matched text, [group(i)] the [i]-th
    capture. *)
Record Match : Type := mkMatch { group0 : str; captures : list str }.

Definition group (i : nat) (m : Match) : str :=
  match i with
  | 0 => group0 m
  | S j => nth j (captures m) []
  end.

Definition re_match (p : pattern) (s : str) : option (Match * str) :=
  match rmatch p [] s with
  | Some (gs, rest) =>
      Some (mkMatch (firstn (length s - length rest) s) gs, rest)
  | None => None
  end.

(** [re.search(p, s) is not None] *)
Fixpoint re_search (p : pattern) (s : str) : bool :=
  match rmatch p [] s with
  | Some _ => true
  | None => match s with
            | [] => false
            | _ :: s' => re_search p s'
            end
  end.

(** [re.sub(p, repl, text)] with a callable [repl] that updates a state
    ([links.append], [latex_cmds.append]). *)
Definition re_sub_with {A : Type} (p : pattern)
    (repl : A -> Match -> A * str) (a : A) (text : str) : A * str :=
  scan (fun a s =>
          match re_match p s with
          | Some (m, rest) => let '(a', out) := repl a m in Some (a', out, rest)
          | None => None
          end)
       (length text) a text.

(** [re.sub(p, template, text)]. *)
Definition re_sub (p : pattern) (template : Match -> str) (text : str) : str :=
  snd (re_sub_with p (fun (_ : unit) m => (tt, template m)) tt text).

(* ================================================================== *)
(** * docs/tex/__init__.py *)
(* ================================================================== *)

Definition _escape_latex (text : str) : str :=
  let text := str_replace "#" "\#" text in
  let text := str_replace "$" "\$" text in
  let text := str_replace "_" "\_" text in
  let text := str_replace "&" "\&" text in
  let text := str_replace "%" "\%" text in
  text.

(** [`(.+?)`] *)
Definition CODE_RE : pattern :=
  [Lit "`"; Rep true false 1 Dot; Lit "`"].

(** [\*\*(.+?)\*\*] *)
Definition BOLD_RE : pattern :=
  [Lit "*"; Lit "*"; Rep true false 1 Dot; Lit "*"; Lit "*"].

(** [\*(.+?)\*] *)
Definition ITALIC_RE : pattern :=
  [Lit "*"; Rep true false 1 Dot; Lit "*"].

Definition texttt (m : Match) : str := "\texttt{" ++ group 1 m ++ "}".
Definition textbf (m : Match) : str := "\textbf{" ++ group 1 m ++ "}".
Definition textit (m : Match) : str := "\textit{" ++ group 1 m ++ "}".

Definition _apply_formatting (text : str) : str :=
  re_sub ITALIC_RE textit
    (re_sub BOLD_RE textbf
       (re_sub CODE_RE texttt text)).

(** A character that is neither an asterisk, nor a backtick, nor a newline. *)
Definition plain (c : ascii) : bool :=
  negb (Ascii.eqb c "*") && negb (Ascii.eqb c "`") && negb (Ascii.eqb c LF).

(** [\[([^\]]+)\]\(([^)]+)\)] *)
Definition LINK_RE : pattern :=
  [Lit "["; Rep true true 1 (NotChar "]"); Lit "]";
   Lit "("; Rep true true 1 (NotChar ")"); Lit ")"].

(** [\\[a-zA-Z]+\{[^}]*\}] *)
Definition CMD_RE : pattern :=
  [Lit "\"; Rep false true 1 Letter;
   Lit "{"; Rep false true 0 (NotChar "}"); Lit "}"].

(** [f"\x00LINK{idx}\x00"] and [f"\x00CMD{idx}\x00"]. *)
Definition link_token (idx : nat) : str :=
  NUL :: "LINK" ++ str_of_nat idx ++ [NUL].
Definition cmd_token (idx : nat) : str :=
  NUL :: "CMD" ++ str_of_nat idx ++ [NUL].

Definition _capture_link (links : list (str * str)) (m : Match)
  : list (str * str) * str :=
  let links := links ++ [(group 1 m, group 2 m)] in
  (links, link_token (length links - 1)).

Definition _capture_cmd (latex_cmds : list str) (m : Match)
  : list str * str :=
  let latex_cmds := latex_cmds ++ [group 0 m] in
  (latex_cmds, cmd_token (length latex_cmds - 1)).

Definition enumerate {A : Type} (l : list A) : list (nat * A) :=
  combine (seq 0 (length l)) l.

(** [\href{url}{escaped_display}] *)
Definition href (url escaped_display : str) : str :=
  "\href{" ++ url ++ "}{" ++ escaped_display ++ "}".

Definition restore_cmds (latex_cmds : list str) (text : str) : str :=
  fold_left (fun text '(idx, cmd) => str_replace (cmd_token idx) cmd text)
            (enumerate latex_cmds) text.

Definition restore_links (links : list (str * str)) (text : str) : str :=
  fold_left
    (fun text '(idx, (display, url)) =>
       let escaped_display := _apply_formatting (_escape_latex display) in
       str_replace (link_token idx) (href url escaped_display) text)
    (enumerate links) text.

Definition normalize_text (text : str) : str :=
  let '(links, text) := re_sub_with LINK_RE _capture_link [] text in
  let '(latex_cmds, text) := re_sub_with CMD_RE _capture_cmd [] text in
  let text := _apply_formatting (_escape_latex text) in
  let text := restore_cmds latex_cmds text in
  let text := restore_links links text in
  text.

(* ================================================================== *)
(** * Exceptions and documents *)
(* ================================================================== *)

Inductive exn : Type :=
| KeyError (key : str)
| IndexError
| ValueError
| ValidationError.

Inductive result (A : Type) : Type :=
| Ok (a : A)
| Raise (e : exn).
Arguments Ok {A} a.
Arguments Raise {A} e.

Definition bind {A B : Type} (r : result A) (f : A -> result B) : result B :=
  match r with
  | Ok a => f a
  | Raise e => Raise e
  end.

Notation "x <- r ;; k" := (bind r (fun x => k))
  (at level 61, r at next level, right associativity).

(** A [for] loop whose body may raise. *)
Fixpoint for_each {A S : Type} (body : S -> A -> result S) (l : list A) (s : S)
  : result S :=
  match l with
  | [] => Ok s
  | a :: l' => s' <- body s a ;; for_each body l' s'
  end.

(** A [pylatex.Document] body: the [NoEscape] chunks in the order of the
    [doc.append] calls. *)
Definition Document : Type := list str.

Definition append (doc : Document) (chunk : str) : Document := doc ++ [chunk].

(* ================================================================== *)
(** * docs/tex/models/document_content.py *)
(* ================================================================== *)

(** The mappings [ItemizeContent.execute] reads: a part with its optional
    [text] and [code] keys, an item mapping with its optional [parts],
    [font_size], [text] and [code] keys. *)
Record Part : Type := mkPart
  { part_text : option str;
    part_code : option str }.

Record ItemDict : Type := mkItemDict
  { item_parts : option (list Part);
    item_font_size : option str;
    item_text : option str;
    item_code : option str }.

(** [str | dict] *)
Inductive Item : Type :=
| ItemStr (s : str)
| ItemMap (d : ItemDict).

(** [d.get(key, default)] *)
Definition get {A : Type} (field : option A) (default : A) : A :=
  match field with
  | Some v => v
  | None => default
  end.

Module ItemizeContent.

Record t : Type := mk { items : list Item; newline : bool }.

(** The [Verbatim] chunk of a code body. *)
Definition verbatim_block (font_size code : str) : str :=
  "\begin{Verbatim}[fontsize=\" ++ font_size ++ "]" ++ [LF]
  ++ rstrip code ++ [LF]
  ++ "\end{Verbatim}" ++ [LF].

(** The body of [for part in parts]; the state is [doc] and [first]. *)
Definition execute_part (font_size : str) (st : Document * bool) (part : Part)
  : Document * bool :=
  let '(doc, first) := st in
  match part_text part with
  | Some text =>
      let prefix : str := if first then "\item " else "" in
      (append doc (prefix ++ normalize_text text), false)
  | None =>
      match part_code part with
      | Some code => (append doc (verbatim_block font_size code), false)
      | None => (doc, first)
      end
  end.

(** The body of [for item in self.items]. *)
Definition execute_item (doc : Document) (item : Item) : Document :=
  match item with
  | ItemMap d =>
      let parts := get (item_parts d) [] in
      let font_size := get (item_font_size d) "small" in
      match parts with
      | _ :: _ =>
          fst (fold_left (execute_part font_size) parts (doc, true))
      | [] =>
          (* Legacy format: text/code keys at top level *)
          let text := get (item_text d) "" in
          let code := get (item_code d) "" in
          let doc := append doc ("\item " ++ normalize_text text) in
          match code with
          | _ :: _ => append doc (verbatim_block font_size code)
          | [] => doc
          end
      end
  | ItemStr s => append doc ("\item " ++ normalize_text s)
  end.

Definition execute (self : t) (doc : Document) : Document :=
  let doc := append doc "\begin{itemize}[topsep=0pt]" in
  let doc := fold_left execute_item (items self) doc in
  let doc := append doc "\end{itemize}" in
  if newline self then append doc "\vspace{\baselineskip}" else doc.

End ItemizeContent.

(** ** The loader

    A content record is a YAML mapping.  The five models are built by
    pydantic, which validates the remaining keys; validation is a parameter
    of the loader. *)

#[warnings="-register-all"]
Inductive yaml : Type :=
| YNull
| YBool (b : bool)
| YInt (n : nat)
| YStr (s : str)
| YSeq (l : list yaml)
| YMap (m : list (str * yaml)).

Definition dict : Type := list (str * yaml).

Definition str_eqb (a b : str) : bool :=
  if list_eq_dec ascii_dec a b then true else false.

Fixpoint dict_get (key : str) (d : dict) : option yaml :=
  match d with
  | [] => None
  | (k, v) :: d' => if str_eqb k key then Some v else dict_get key d'
  end.

(** [d.pop(key)]: the value and the mapping without the key. *)
Definition dict_pop (key : str) (d : dict) : option (yaml * dict) :=
  match dict_get key d with
  | Some v => Some (v, filter (fun kv => negb (str_eqb (fst kv) key)) d)
  | None => None
  end.

(** [v == "literal"] *)
Definition eq_str (v : yaml) (s : str) : bool :=
  match v with
  | YStr x => str_eqb x s
  | _ => false
  end.

(** The discriminators the loader knows. *)
Definition known_type (type : yaml) : bool :=
  eq_str type "embed" || eq_str type "paragraph" || eq_str type "itemize"
  || eq_str type "image" || eq_str type "code".

(** The mapping objects of a loaded file.  The records of the [content]
    list are references to them: [c.pop] changes the object, and a YAML alias
    makes the same object occur again in the list.  Only the records of the
    list are objects: the values under their keys are trees of their own, so
    a record that an alias also puts inside another record is not
    represented. *)
Definition heap : Type := nat -> dict.

(** The objects of a file whose [i]-th mapping is the [i]-th of the list. *)
Definition objects (l : list dict) : heap := fun i => nth i l [].

Definition heap_set (h : heap) (r : nat) (c : dict) : heap :=
  fun i => if Nat.eqb i r then c else h i.

(** The keyword arguments of [from_dic]: the title, the label, and the
    [content] list as references into the objects of the file. *)
Record ContentFile : Type := mkContentFile
  { file_title : option str;
    file_label : option str;
    file_objects : heap;
    file_content : option (list nat) }.

Section DocumentContent.
(** [EmbededContent], [TextContent], [ItemizeContent], [ImageContent] and
    [VerbatimContent], each with its pydantic constructor applied to the
    remaining keys of the record. *)
Variables EmbededContent TextContent ItemizeContent' ImageContent
          VerbatimContent : Type.
Variable new_EmbededContent : dict -> result EmbededContent.
Variable new_TextContent : dict -> result TextContent.
Variable new_ItemizeContent : dict -> result ItemizeContent'.
Variable new_ImageContent : dict -> result ImageContent.
Variable new_VerbatimContent : dict -> result VerbatimContent.

Inductive ContentNode : Type :=
| Text (c : TextContent)
| Itemize (c : ItemizeContent')
| Image (c : ImageContent)
| Verbatim (c : VerbatimContent)
| Embeded (c : EmbededContent).

Record DocumentContent : Type := mkDocumentContent
  { title : option str;
    label : option str;
    content : list ContentNode }.

(** The body of [for c in content]: the state is the objects and
    [doc.content]; [c.pop("type")] takes the key out of the object. *)
Definition from_dic_record (st : heap * list ContentNode) (r : nat)
  : result (heap * list ContentNode) :=
  let '(h, doc) := st in
  match dict_pop "type" (h r) with
  | None => Raise (KeyError "type")
  | Some (type, c) =>
      let h := heap_set h r c in
      if eq_str type "embed" then
        n <- new_EmbededContent c ;; Ok (h, doc ++ [Embeded n])
      else if eq_str type "paragraph" then
        n <- new_TextContent c ;; Ok (h, doc ++ [Text n])
      else if eq_str type "itemize" then
        n <- new_ItemizeContent c ;; Ok (h, doc ++ [Itemize n])
      else if eq_str type "image" then
        n <- new_ImageContent c ;; Ok (h, doc ++ [Image n])
      else if eq_str type "code" then
        n <- new_VerbatimContent c ;; Ok (h, doc ++ [Verbatim n])
      else Ok (h, doc)
  end.

Definition from_dic (data : ContentFile) : result DocumentContent :=
  match file_content data with
  | None => Raise (KeyError "content")
  | Some content =>
      st <- for_each from_dic_record content (file_objects data, []) ;;
      Ok (mkDocumentContent (file_title data) (file_label data) (snd st))
  end.
End DocumentContent.

(* ================================================================== *)
(** * docs/tex/models/document_config.py *)
(* ================================================================== *)

Module RevisionEntry.

Record t : Type := mk
  { version : str;
    date : str;
    description : list str }.

(** The body of [for rev in revisions]; [rev.description[0]] raises on an
    empty description. *)
Definition render_entry (doc : Document) (rev : t) : result Document :=
  match description rev with
  | [] => Raise IndexError
  | first :: rest =>
      let doc :=
        append doc (version rev ++ " & " ++ date rev ++ " & "
                    ++ normalize_text first ++ " \\") in
      Ok (fold_left
            (fun doc desc => append doc ("& & " ++ normalize_text desc ++ " \\"))
            rest doc)
  end.

Definition render (doc : Document) (revisions : list t) : result Document :=
  match revisions with
  | _ :: _ =>
      let doc := append doc "\vspace{1em}" in
      let doc := append doc [LF] in
      let doc :=
        append doc "\begin{center}\textit{Revision History}\end{center}" in
      let doc := append doc [LF] in
      let doc := append doc "\begin{center}" in
      let doc := append doc "\small" in
      let doc := append doc "\renewcommand{\arraystretch}{1.75}" in
      let doc := append doc "\begin{tabular}{@{}rll@{}}" in
      let doc :=
        append doc
          "\textit{Version} & \textit{Date} & \textit{Description} \\" in
      let doc := append doc "\hline" in
      doc <- for_each render_entry revisions doc ;;
      let doc := append doc "\end{tabular}" in
      let doc := append doc "\end{center}" in
      let doc := append doc [LF] in
      let doc := append doc "\newpage" in
      Ok doc
  | [] => Ok doc
  end.

End RevisionEntry.

Record GeometryOptions : Type := mkGeometryOptions
  { top : str; bottom : str; left : str; right : str }.

Module DocumentConfig.

Record t : Type := mk
  { title : str;
    author : list str;
    affiliation : str;
    email_domain : option str;
    output_file : str;
    geometry_options : GeometryOptions;
    preamble : list str;
    content : list str;
    abstract : str;
    revision_history : list RevisionEntry.t }.

Section Datetime.
(** [datetime.strptime(data, format)], which raises [ValueError] when
    [data] does not match [format], and [dt.strftime(format)]. *)
Variable datetime : Type.
Variable strptime : str -> str -> option datetime.
Variable strftime : datetime -> str -> str.

(** [revs[-1]] of the non-empty list [rev :: revs] is [last revs rev]. *)
Definition version (self : t) : str :=
  match revision_history self with
  | rev :: revs => RevisionEntry.version (last revs rev)
  | [] => "0.1.0"
  end.

Definition latest_date (self : t) : result str :=
  match revision_history self with
  | rev :: revs =>
      let raw := RevisionEntry.date (last revs rev) in
      match strptime raw "%Y-%m-%d" with
      | Some dt => Ok (strftime dt "%B %d, %Y")
      | None => Raise ValueError
      end
  | [] => Ok (lit "\today")
  end.

(** [date_content] in [create_page_title]: the date field of the title
    block. *)
Definition date_content (self : t) : result str :=
  latest_date <- latest_date self ;;
  Ok ("{\large \textit{" ++ affiliation self
      ++ "}}\\[2em]\textit{" ++ latest_date
      ++ "}\\[0.5em]\textit{Version " ++ version self ++ "}").
End Datetime.

End DocumentConfig.

(* ================================================================== *)
(** * The datetime library

    A model of CPython's [datetime.strptime] and [strftime] in the C locale
    for the two formats the configuration model uses.  [strptime] compiles
    [%Y-%m-%d] to the regular expression
    [(\d\d\d\d)-(1[0-2]|0[1-9]|[1-9])-(3[01]|[12]\d|0[1-9]|[1-9]| [1-9])],
    takes its first match at the start of the text, rejects text left
    over, and then rejects year 0 and days the month does not have. *)
(* ================================================================== *)

Module CPython.

Record datetime : Type := mk { year : nat; month : nat; day : nat }.

Definition digit (c : ascii) : option nat :=
  let n := nat_of_ascii c in
  if ((48 <=? n)%nat && (n <=? 57)%nat)%bool then Some (n - 48) else None.

(** One alternative of a directive: digits whose values lie in the given
    ranges; a [None] range stands for a space. *)
Fixpoint alt (ranges : list (option (nat * nat))) (acc : nat) (s : str)
  : list (nat * str) :=
  match ranges with
  | [] => [(acc, s)]
  | None :: ranges' =>
      match s with
      | c :: s' => if Ascii.eqb c " " then alt ranges' acc s' else []
      | [] => []
      end
  | Some (lo, hi) :: ranges' =>
      match s with
      | c :: s' =>
          match digit c with
          | Some d =>
              if ((lo <=? d)%nat && (d <=? hi)%nat)%bool
              then alt ranges' (10 * acc + d) s' else []
          | None => []
          end
      | [] => []
      end
  end.

(** The alternatives of a directive in the order the regular expression
    tries them. *)
Definition directive (alts : list (list (option (nat * nat)))) (s : str)
  : list (nat * str) :=
  flat_map (fun ranges => alt ranges 0 s) alts.

Definition d09 := Some (0, 9).
Definition d19 := Some (1, 9).

Definition dir_Y := directive [[d09; d09; d09; d09]].
Definition dir_m :=
  directive [[Some (1, 1); Some (0, 2)]; [Some (0, 0); d19]; [d19]].
Definition dir_d :=
  directive [[Some (3, 3); Some (0, 1)]; [Some (1, 2); d09];
             [Some (0, 0); d19]; [d19]; [None; d19]].

Definition dash (s : str) : list str :=
  match s with
  | c :: s' => if Ascii.eqb c "-" then [s'] else []
  | [] => []
  end.

(** All the matches of the regular expression at the start of [s], in
    backtracking order. *)
Definition matches_Ymd (s : str) : list (datetime * str) :=
  flat_map (fun '(y, s1) =>
  flat_map (fun s2 =>
  flat_map (fun '(m, s3) =>
  flat_map (fun s4 =>
  map (fun '(d, s5) => (mk y m d, s5)) (dir_d s4))
    (dash s3)) (dir_m s2)) (dash s1)) (dir_Y s).

Definition is_leap (y : nat) : bool :=
  ((y mod 4 =? 0)%nat && negb (y mod 100 =? 0)%nat) || (y mod 400 =? 0)%nat.

Definition days_in_month (y m : nat) : nat :=
  match m with
  | 2 => if is_leap y then 29 else 28
  | 4 | 6 | 9 | 11 => 30
  | _ => 31
  end.

Definition strptime_Ymd (data : str) : option datetime :=
  match matches_Ymd data with
  | (dt, []) :: _ =>
      if ((1 <=? year dt)%nat && (day dt <=? days_in_month (year dt) (month dt))%nat)%bool
      then Some dt else None
  | _ => None
  end.

Definition month_name (m : nat) : str :=
  nth (m - 1)
      [lit "January"; lit "February"; lit "March"; lit "April"; lit "May";
       lit "June"; lit "July"; lit "August"; lit "September";
       lit "October"; lit "November"; lit "December"] [].

(** [%d]: the day on two digits. *)
Definition two_digits (n : nat) : str :=
  if (n <? 10)%nat then "0" ++ str_of_nat n else str_of_nat n.

(** [%B %d, %Y]; glibc does not pad the year. *)
Definition strftime_BdY (dt : datetime) : str :=
  month_name (month dt) ++ " " ++ two_digits (day dt) ++ ", "
  ++ str_of_nat (year dt).

(** Only the formats of [DocumentConfig.latest_date] are modelled. *)
Definition strptime (data format : str) : option datetime :=
  if str_eqb format "%Y-%m-%d" then strptime_Ymd data else None.

Definition strftime (dt : datetime) (format : str) : str :=
  if str_eqb format "%B %d, %Y" then strftime_BdY dt else [].

End CPython.

(** ** The format [YYYY-MM-DD] to the letter

    Four digits, a dash, two digits, a dash and two digits, with the date
    these digits write, which the calendar may not have. *)
Definition read_YYYY_MM_DD (s : str) : option CPython.datetime :=
  match s with
  | [y1; y2; y3; y4; a; m1; m2; b; d1; d2] =>
      match CPython.digit y1, CPython.digit y2, CPython.digit y3,
            CPython.digit y4, CPython.digit m1, CPython.digit m2,
            CPython.digit d1, CPython.digit d2 with
      | Some y1, Some y2, Some y3, Some y4, Some m1, Some m2, Some d1,
        Some d2 =>
          if (Ascii.eqb a "-" && Ascii.eqb b "-")%bool
          then Some (CPython.mk (1000 * y1 + 100 * y2 + 10 * y3 + y4)
                       (10 * m1 + m2) (10 * d1 + d2))
          else None
      | _, _, _, _, _, _, _, _ => None
      end
  | _ => None
  end.

(** A date of the calendar, from year 1 on. *)
Definition real_date (dt : CPython.datetime) : bool :=
  ((1 <=? CPython.year dt)%nat
   && ((1 <=? CPython.month dt)%nat && (CPython.month dt <=? 12)%nat
       && (1 <=? CPython.day dt)%nat)
   && (CPython.day dt
       <=? CPython.days_in_month (CPython.year dt) (CPython.month dt))%nat)
  %bool.

(** The character of a decimal digit. *)
Definition digit_char (n : nat) : ascii := ascii_of_nat (48 + n).

(** The months and days that [CPython.matches_Ymd] finds after a year, in
    the same backtracking order. *)
Definition month_day (s1 : str) : list (nat * nat * str) :=
  flat_map (fun s2 =>
  flat_map (fun '(m, s3) =>
  flat_map (fun s4 =>
  map (fun '(d, s5) => (m, d, s5)) (CPython.dir_d s4))
    (CPython.dash s3)) (CPython.dir_m s2)) (CPython.dash s1).

(** A configuration with the given revision history, for the examples. *)
Definition example_config (history : list RevisionEntry.t) : DocumentConfig.t :=
  DocumentConfig.mk "Agent Identity" [lit "Ann Lee|ann"] "Example Org"
    (Some (lit "example.com")) "agent-identity"
    (mkGeometryOptions "1in" "1in" "1in" "1in") [] [] "An abstract." history.

(* ================================================================== *)
(** * More of Python's strings *)
(* ================================================================== *)

(** [s.lstrip()] and [s.strip()]. *)
Fixpoint lstrip (s : str) : str :=
  match s with
  | c :: s' => if isspace c then lstrip s' else s
  | [] => []
  end.

Definition strip (s : str) : str := rstrip (lstrip s).

(** [s.split(sep, 1)] for a one-character [sep]: the text before and after
    the first [sep], or nothing when [sep in s] is false. *)
Fixpoint split_once (sep : ascii) (s : str) : option (str * str) :=
  match s with
  | [] => None
  | c :: s' =>
      if Ascii.eqb c sep then Some ([], s')
      else match split_once sep s' with
           | Some (before, after) => Some (c :: before, after)
           | None => None
           end
  end.

(** [sep.join(l)] *)
Fixpoint join (sep : str) (l : list str) : str :=
  match l with
  | [] => []
  | [x] => x
  | x :: l' => x ++ sep ++ join sep l'
  end.

(** What [_escape_latex] does to one character. *)
Definition reserved (c : ascii) : bool :=
  Ascii.eqb c "#" || Ascii.eqb c "$" || Ascii.eqb c "_" || Ascii.eqb c "&"
  || Ascii.eqb c "%".

Definition escape_char (c : ascii) : str :=
  if reserved c then ["\"%char; c] else [c].

(** A character that starts no link, macro or formatting span. *)
Definition unmarked (c : ascii) : bool :=
  negb (Ascii.eqb c "[") && negb (Ascii.eqb c "\") && negb (Ascii.eqb c "*")
  && negb (Ascii.eqb c "`").

(** Prose: no opening bracket, backslash, asterisk, backtick or [\x00], so
    that no link, macro, formatting span or placeholder can start in it. *)
Definition prose (c : ascii) : bool :=
  negb (Ascii.eqb c "[") && negb (Ascii.eqb c "\") && negb (Ascii.eqb c "*")
  && negb (Ascii.eqb c "`") && negb (Ascii.eqb c NUL).

(* ================================================================== *)
(** * docs/tex/models/document_content.py: the other content models *)
(* ================================================================== *)

(** [if field: doc.append(NoEscape(chunk))] for an optional string: the
    chunk is appended when the field is set and not empty. *)
Definition append_if (field : option str) (chunk : str -> str)
    (doc : Document) : Document :=
  match field with
  | Some (c :: s) => append doc (chunk (c :: s))
  | _ => doc
  end.

Module TextContent.

Record t : Type := mk
  { text : str;
    section : option str;
    subsection : option str;
    subsubsection : option str;
    label : option str;
    newline : bool }.

Definition execute (self : t) (doc : Document) : Document :=
  let doc :=
    append_if (section self)
      (fun x => "\section{" ++ normalize_text x ++ "}") doc in
  let doc :=
    append_if (subsection self)
      (fun x => "\subsection{" ++ normalize_text x ++ "}") doc in
  let doc :=
    append_if (subsubsection self)
      (fun x => "\subsubsection{" ++ normalize_text x ++ "}") doc in
  let doc := append_if (label self) (fun x => "\label{" ++ x ++ "}") doc in
  let doc := append doc (normalize_text (text self)) in
  if newline self then append doc "\par\vspace{\baselineskip}" else doc.

End TextContent.

Module VerbatimContent.

Record t : Type := mk
  { text : str;
    newline : bool;
    font_size : str }.

Definition verbatim_block (self : t) : str :=
  "{\" ++ font_size self ++ [LF]
  ++ "\begin{verbatim}" ++ [LF] ++ text self ++ [LF] ++ "\end{verbatim}}".

Definition execute (self : t) (doc : Document) : Document :=
  let doc := append doc (verbatim_block self) in
  if newline self then append doc "\vspace{\baselineskip}" else doc.

End VerbatimContent.

Module ImageContent.

Record t : Type := mk
  { src : str;
    caption : str;
    label : option str;
    width : str;
    placement : str }.

Definition execute (self : t) (doc : Document) : Document :=
  let doc := append doc ("\begin{figure}[" ++ placement self ++ "]") in
  let doc :=
    append doc
      ("\centering" ++ [LF] ++ "\includegraphics[width=" ++ width self ++ "]{"
       ++ src self ++ "}") in
  let doc := append doc ("\caption{" ++ normalize_text (caption self) ++ "}") in
  let doc := append_if (label self) (fun x => "\label{" ++ x ++ "}") doc in
  let doc := append doc "\end{figure}" in
  append doc "\vspace{\baselineskip}".

End ImageContent.

Module EmbededContent.

Record t : Type := mk { src : str }.

End EmbededContent.

(** ** Rendering with included files

    [open] raises [FileNotFoundError] on a missing file, and an include
    chain need not end: rendering takes the files as a function from names
    (relative to [ARTIFACT_DIR], already parsed into the keyword arguments of
    [from_dic]) and a bound on the depth of includes. *)

Inductive error : Type :=
| FileNotFoundError (path : str)
| Exception (e : exn).

Inductive run (A : Type) : Type :=
| Returns (a : A)
| Raises (e : error)
| OutOfFuel.
Arguments Returns {A} a.
Arguments Raises {A} e.
Arguments OutOfFuel {A}.

Definition lift {A : Type} (r : result A) : run A :=
  match r with
  | Ok a => Returns a
  | Raise e => Raises (Exception e)
  end.

(** A [for] loop whose body may raise or not return. *)
Fixpoint run_each {A S : Type} (body : S -> A -> run S) (l : list A) (s : S)
  : run S :=
  match l with
  | [] => Returns s
  | a :: l' =>
      match body s a with
      | Returns s' => run_each body l' s'
      | Raises e => Raises e
      | OutOfFuel => OutOfFuel
      end
  end.

(** The number of description lines of a revision history. *)
Definition description_lines (revisions : list RevisionEntry.t) : nat :=
  list_sum (map (fun rev => length (RevisionEntry.description rev)) revisions).

Definition has_description (rev : RevisionEntry.t) : bool :=
  match RevisionEntry.description rev with
  | [] => false
  | _ :: _ => true
  end.

(** The outcome of a run whose result is transformed. *)
Definition run_map {A B : Type} (f : A -> B) (r : run A) : run B :=
  match r with
  | Returns a => Returns (f a)
  | Raises e => Raises e
  | OutOfFuel => OutOfFuel
  end.

(** The nodes and the documents of the loader, over the five models. *)
Definition Node : Type :=
  ContentNode EmbededContent.t TextContent.t ItemizeContent.t ImageContent.t
    VerbatimContent.t.

Definition Content : Type :=
  DocumentContent EmbededContent.t TextContent.t ItemizeContent.t
    ImageContent.t VerbatimContent.t.

Definition is_embed (n : Node) : bool :=
  match n with
  | Embeded _ _ _ _ _ _ => true
  | _ => false
  end.

(** A record whose [type] is one of the five discriminators. *)
Definition has_known_type (c : dict) : bool :=
  match dict_get "type" c with
  | Some type => known_type type
  | None => false
  end.

(** A part without the [code] key that its [text] key shadows. *)
Definition without_shadowed_code (p : Part) : Part :=
  match part_text p with
  | Some text => mkPart (Some text) None
  | None => p
  end.

Section Rendering.
(** The pydantic constructors and the files under [ARTIFACT_DIR]. *)
Variable new_EmbededContent : dict -> result EmbededContent.t.
Variable new_TextContent : dict -> result TextContent.t.
Variable new_ItemizeContent : dict -> result ItemizeContent.t.
Variable new_ImageContent : dict -> result ImageContent.t.
Variable new_VerbatimContent : dict -> result VerbatimContent.t.
Variable files : str -> option ContentFile.

(** [open(ARTIFACT_DIR / name)], [yaml.safe_load] and
    [DocumentContent.from_dic] on the loaded mapping. *)
Definition open_content (name : str) : run Content :=
  match files name with
  | None => Raises (FileNotFoundError name)
  | Some data =>
      lift (from_dic _ _ _ _ _ new_EmbededContent new_TextContent
              new_ItemizeContent new_ImageContent new_VerbatimContent data)
  end.

(** [DocumentContent.execute]; the [Embeded] case is
    [EmbededContent.execute], which loads the file and renders it in place. *)
Fixpoint DocumentContent_execute (fuel : nat) (self : Content)
    (doc : Document) : run Document :=
  let doc :=
    append_if (title _ _ _ _ _ self)
      (fun x => "\section{" ++ normalize_text x ++ "}") doc in
  let doc :=
    append_if (label _ _ _ _ _ self) (fun x => "\label{" ++ x ++ "}") doc in
  run_each
    (fun doc cnt =>
       match cnt with
       | Text _ _ _ _ _ c => Returns (TextContent.execute c doc)
       | Itemize _ _ _ _ _ c => Returns (ItemizeContent.execute c doc)
       | Image _ _ _ _ _ c => Returns (ImageContent.execute c doc)
       | Verbatim _ _ _ _ _ c => Returns (VerbatimContent.execute c doc)
       | Embeded _ _ _ _ _ c =>
           match fuel with
           | 0 => OutOfFuel
           | S fuel' =>
               match open_content (EmbededContent.src c) with
               | Returns included =>
                   DocumentContent_execute fuel' included doc
               | Raises e => Raises e
               | OutOfFuel => OutOfFuel
               end
           end
       end)
    (content _ _ _ _ _ self) doc.
End Rendering.

(** Constructors and files for the examples: [EmbededContent] needs a
    string [src], [TextContent] takes an optional string [text]; the other
    models are not used.  [loop.yaml] includes itself, [main.yaml] holds a
    paragraph and includes [part.yaml], and [broken.yaml] includes a file that
    does not exist. *)
Definition example_new_EmbededContent (c : dict) : result EmbededContent.t :=
  match dict_get "src" c with
  | Some (YStr src) => Ok (EmbededContent.mk src)
  | _ => Raise ValidationError
  end.

Definition example_new_TextContent (c : dict) : result TextContent.t :=
  match dict_get "text" c with
  | Some (YStr text) => Ok (TextContent.mk text None None None None true)
  | None => Ok (TextContent.mk "" None None None None true)
  | _ => Raise ValidationError
  end.

Definition example_files (name : str) : option ContentFile :=
  if str_eqb name "loop.yaml" then
    Some (mkContentFile None None
            (objects
               [[(lit "type", YStr "paragraph"); (lit "text", YStr "a")];
                [(lit "type", YStr "embed"); (lit "src", YStr "loop.yaml")]])
            (Some [0; 1]))
  else if str_eqb name "main.yaml" then
    Some (mkContentFile None None
            (objects
               [[(lit "type", YStr "paragraph"); (lit "text", YStr "a_b")];
                [(lit "type", YStr "embed"); (lit "src", YStr "part.yaml")];
                [(lit "type", YStr "paragraph"); (lit "text", YStr "end")]])
            (Some [0; 1; 2]))
  else if str_eqb name "part.yaml" then
    Some (mkContentFile None None
            (objects
               [[(lit "type", YStr "paragraph"); (lit "text", YStr "50%")]])
            (Some [0]))
  else if str_eqb name "broken.yaml" then
    Some (mkContentFile None None
            (objects
               [[(lit "type", YStr "embed"); (lit "src", YStr "gone.yaml")]])
            (Some [0]))
  else None.

Definition example_render : nat -> Content -> Document -> run Document :=
  DocumentContent_execute example_new_EmbededContent example_new_TextContent
    (fun _ => Raise ValidationError) (fun _ => Raise ValidationError)
    (fun _ => Raise ValidationError) example_files.

Definition example_open : str -> run Content :=
  open_content example_new_EmbededContent example_new_TextContent
    (fun _ => Raise ValidationError) (fun _ => Raise ValidationError)
    (fun _ => Raise ValidationError) example_files.

(* ================================================================== *)
(** * docs/tex/models/document_config.py: assembling the document *)
(* ================================================================== *)

(** A [pylatex.Document] with its preamble: the constructor's arguments,
    the preamble entries and the body.  A [Command] argument is either a
    plain string, which pylatex escapes when it writes the command, or a
    [NoEscape] string. *)
Module Latex.

Inductive Arg : Type :=
| Plain (s : str)
| Raw (s : str).

Inductive Entry : Type :=
| NoEscape (s : str)
| Command (name : str) (arg : Arg).

Record t : Type := mk
  { documentclass : str;
    document_options : list str;
    geometry_options : list (str * str);
    preamble : list Entry;
    body : Document }.

Definition preamble_append (doc : t) (e : Entry) : t :=
  mk (documentclass doc) (document_options doc) (geometry_options doc)
     (preamble doc ++ [e]) (body doc).

Definition with_body (doc : t) (body : Document) : t :=
  mk (documentclass doc) (document_options doc) (geometry_options doc)
     (preamble doc) body.

End Latex.

(** [maketitle_def] in [create_page_title]. *)
Definition maketitle_def : str :=
  join [LF]
    [lit "\makeatletter";
     lit "\renewcommand{\maketitle}{%";
     lit "  \bgroup\setlength{\parindent}{0pt}%";
     lit "  \noindent";
     lit "  \begin{minipage}[t]{0.7\textwidth}";
     lit "    \vspace{0pt}%";
     lit "    \raggedright";
     lit "    {\Large \@title}\\[1em]";
     lit "    \@author\\[1em]";
     lit "    \@date";
     lit "  \end{minipage}%";
     lit "  \hfill";
     lit "  \begin{minipage}[t]{0.25\textwidth}";
     lit "    \vspace{0pt}%";
     lit "    \raggedleft";
     lit "    \includegraphics[width=0.75\textwidth]{docs/images/barcode.png}";
     lit "  \end{minipage}";
     lit "  \egroup";
     lit "  \vspace{2em}";
     lit "}";
     lit "\makeatother"].

(** The body of [for a in self.author]: one formatted author. *)
Definition format_author (email_domain : option str) (a : str) : str :=
  match split_once "|" a with
  | Some (name, alias) =>
      let email := strip alias in
      let email :=
        match email_domain with
        | Some (c :: domain) => email ++ "@" ++ (c :: domain)
        | _ => email
        end in
      "\textit{" ++ strip name ++ "} (" ++ email ++ ")"
  | None => "\textit{" ++ a ++ "}"
  end.

Section Assembly.
Variable datetime : Type.
Variable strptime : str -> str -> option datetime.
Variable strftime : datetime -> str -> str.
Variable new_EmbededContent : dict -> result EmbededContent.t.
Variable new_TextContent : dict -> result TextContent.t.
Variable new_ItemizeContent : dict -> result ItemizeContent.t.
Variable new_ImageContent : dict -> result ImageContent.t.
Variable new_VerbatimContent : dict -> result VerbatimContent.t.
Variable files : str -> option ContentFile.

Definition create_page_title (self : DocumentConfig.t) (doc : Latex.t)
  : result Latex.t :=
  let doc := Latex.preamble_append doc (Latex.NoEscape maketitle_def) in
  let doc :=
    Latex.preamble_append doc
      (Latex.Command "title" (Latex.Plain (DocumentConfig.title self))) in
  let formatted_authors :=
    map (format_author (DocumentConfig.email_domain self))
        (DocumentConfig.author self) in
  let authors := join " \\ " formatted_authors in
  let doc :=
    Latex.preamble_append doc (Latex.Command "author" (Latex.Raw authors)) in
  date_content <- DocumentConfig.date_content datetime strptime strftime self ;;
  let doc :=
    Latex.preamble_append doc
      (Latex.Command "date" (Latex.Raw date_content)) in
  Ok (Latex.with_body doc (append (Latex.body doc) "\maketitle")).

(** [for cnt in self.content]: each content file is opened, loaded and
    rendered into the body. *)
Definition execute_files (fuel : nat) (names : list str) (body : Document)
  : run Document :=
  run_each
    (fun body cnt =>
       match
         open_content new_EmbededContent new_TextContent new_ItemizeContent
           new_ImageContent new_VerbatimContent files cnt
       with
       | Returns content =>
           DocumentContent_execute new_EmbededContent new_TextContent
             new_ItemizeContent new_ImageContent new_VerbatimContent files
             fuel content body
       | Raises e => Raises e
       | OutOfFuel => OutOfFuel
       end)
    names body.

(** [DocumentConfig.execute] *)
Definition DocumentConfig_execute (fuel : nat) (self : DocumentConfig.t)
  : run Latex.t :=
  let geometry := DocumentConfig.geometry_options self in
  let doc :=
    Latex.mk "extarticle" [lit "9pt"]
      [(lit "top", top geometry); (lit "bottom", bottom geometry);
       (lit "left", left geometry); (lit "right", right geometry)]
      [] [] in
  let doc :=
    fold_left (fun doc pre => Latex.preamble_append doc (Latex.NoEscape pre))
              (DocumentConfig.preamble self) doc in
  let doc :=
    Latex.preamble_append doc
      (Latex.NoEscape
         ("\fancyhead[L]{\small \textit{" ++ DocumentConfig.title self ++ "}}")) in
  match create_page_title self doc with
  | Raise e => Raises (Exception e)
  | Ok doc =>
      let body := Latex.body doc in
      let body := append body "\thispagestyle{empty}" in
      let body := append body "\begin{abstract}\itshape" in
      let body :=
        append body (normalize_text (strip (DocumentConfig.abstract self))) in
      let body := append body "\end{abstract}" in
      match RevisionEntry.render body (DocumentConfig.revision_history self) with
      | Raise e => Raises (Exception e)
      | Ok body =>
          let body := append body "\newpage" in
          let body := append body "\tableofcontents" in
          let body := append body "\newpage" in
          match execute_files fuel (DocumentConfig.content self) body with
          | Returns body => Returns (Latex.with_body doc body)
          | Raises e => Raises e
          | OutOfFuel => OutOfFuel
          end
      end
  end.
End Assembly.

(** A configuration with one preamble line, one revision and the content
    file [main.yaml], and its assembly with the example files. *)
Definition example_document : DocumentConfig.t :=
  DocumentConfig.mk "Agent Identity" [lit "Ann Lee|ann"; lit "Bob"]
    "Example Org" (Some (lit "example.com")) "agent-identity"
    (mkGeometryOptions "1in" "1in" "1in" "1in")
    [lit "\usepackage{fancyhdr}"] [lit "main.yaml"] " An abstract. "
    [RevisionEntry.mk "1.0" "2024-02-01" [lit "init"]].

Definition example_assemble : nat -> DocumentConfig.t -> run Latex.t :=
  DocumentConfig_execute _ CPython.strptime CPython.strftime
    example_new_EmbededContent example_new_TextContent
    (fun _ => Raise ValidationError) (fun _ => Raise ValidationError)
    (fun _ => Raise ValidationError) example_files.

(* ================================================================== *)
(** * Facts about scanning and matching *)
(* ================================================================== *)

Lemma strip_prefix_app (p s : str) : strip_prefix p (p ++ s) = Some s.
Proof.
  induction p as [|a p IH]; simpl; [reflexivity|].
  rewrite Ascii.eqb_refl. exact IH.
Qed.

Lemma strip_prefix_spec (p s rest : str) :
  strip_prefix p s = Some rest <-> s = p ++ rest.
Proof.
  split.
  - revert s. induction p as [|a p IH]; intros s H; simpl in *.
    + congruence.
    + destruct s as [|b s]; [discriminate|].
      destruct (Ascii.eqb a b) eqn:E; [|discriminate].
      apply Ascii.eqb_eq in E. subst b. f_equal. now apply IH.
  - intros ->. apply strip_prefix_app.
Qed.

Lemma contains_spec (needle s : str) :
  contains needle s = true <-> exists pre post, s = pre ++ needle ++ post.
Proof.
  split.
  - induction s as [|c s IH]; simpl.
    + destruct (strip_prefix needle []) eqn:E; [|discriminate].
      intros _. apply strip_prefix_spec in E. now exists [], l.
    + destruct (strip_prefix needle (c :: s)) eqn:E.
      * intros _. apply strip_prefix_spec in E. now exists [], l.
      * intros H. destruct (IH H) as (pre & post & ->).
        now exists (c :: pre), post.
  - intros (pre & post & ->). induction pre as [|c pre IH]; simpl.
    + destruct (needle ++ post) eqn:E; simpl.
      * destruct needle; [reflexivity | discriminate].
      * rewrite <- E, strip_prefix_app. reflexivity.
    + destruct (strip_prefix needle (c :: pre ++ needle ++ post)); auto.
Qed.

Section ScanFacts.
Context {A : Type} (try_at : A -> str -> option (A * str * str)).

Lemma scan_nil n a : scan try_at n a [] = (a, []).
Proof. destruct n; reflexivity. Qed.

(** The fuel does not matter once it covers the text, provided a match
    consumes at least one character. *)
Lemma scan_fuel_irrelevant :
  (forall a s a' out rest,
      try_at a s = Some (a', out, rest) -> length rest < length s) ->
  forall n m a s,
    length s <= n -> length s <= m -> scan try_at n a s = scan try_at m a s.
Proof.
  intros shrinks. induction n as [|n IH]; intros m a s Hn Hm.
  - destruct s; [now rewrite !scan_nil | simpl in Hn; lia].
  - destruct s as [|c s]; [now rewrite !scan_nil|].
    destruct m as [|m]; [simpl in Hm; lia|].
    simpl in *. destruct (try_at a (c :: s)) as [[[a' out] rest]|] eqn:E.
    + apply shrinks in E. simpl in E.
      rewrite (IH m a' rest) by lia. reflexivity.
    + rewrite (IH m a s) by lia. reflexivity.
Qed.

(** Where nothing matches, the text is copied. *)
Lemma scan_no_match (a : A) (s : str) :
  (forall pre t, s = pre ++ t -> try_at a t = None) ->
  forall n, scan try_at n a s = (a, s).
Proof.
  induction s as [|c s IH]; intros H n; [apply scan_nil|].
  destruct n as [|n]; [reflexivity|]. simpl.
  rewrite (H [] (c :: s) eq_refl).
  rewrite IH; [reflexivity|].
  intros pre t ->. apply (H (c :: pre)). reflexivity.
Qed.

(** A match that covers the whole text is replaced once. *)
Lemma scan_whole (a a' : A) (s out : str) :
  s <> [] -> try_at a s = Some (a', out, []) ->
  scan try_at (length s) a s = (a', out).
Proof.
  intros Hs H. destruct s as [|c s]; [congruence|].
  simpl. rewrite H, scan_nil, app_nil_r. reflexivity.
Qed.
End ScanFacts.

Lemma str_replace_whole (old new : str) :
  old <> [] -> str_replace old new old = new.
Proof.
  intros H. unfold str_replace. destruct old as [|c old']; [congruence|].
  rewrite (scan_whole _ tt tt (c :: old') new); [reflexivity | exact H |].
  rewrite <- (app_nil_r (c :: old')) at 2. rewrite strip_prefix_app.
  reflexivity.
Qed.

(** The fuel [str_replace] gives to the scan is enough. *)
Lemma str_replace_fuel (c : ascii) (old new text : str) (n : nat) :
  length text <= n ->
  snd (scan (fun (_ : unit) s =>
               match strip_prefix (c :: old) s with
               | Some rest => Some (tt, new, rest)
               | None => None
               end) n tt text)
  = str_replace (c :: old) new text.
Proof.
  intros Hn. unfold str_replace. f_equal.
  apply scan_fuel_irrelevant; auto.
  intros [] s [] out rest.
  destruct (strip_prefix (c :: old) s) as [rest'|] eqn:E; [|discriminate].
  intros H. inversion H; subst. apply strip_prefix_spec in E. subst s.
  rewrite length_app. simpl. lia.
Qed.

Lemma rep_eq (k : list str -> str -> option (list str * str))
    capture greedy min cs acc gs s :
  rep k capture greedy min cs acc gs s =
  let stop :=
    if (min <=? length acc)%nat
    then k (if capture then gs ++ [acc] else gs) s
    else None in
  match s with
  | c :: s' =>
      if in_class cs c then
        if greedy then
          match rep k capture greedy min cs (acc ++ [c]) gs s' with
          | Some r => Some r
          | None => stop
          end
        else
          match stop with
          | Some r => Some r
          | None => rep k capture greedy min cs (acc ++ [c]) gs s'
          end
      else stop
  | [] => stop
  end.
Proof. destruct s; reflexivity. Qed.

(** A greedy repetition takes the whole run when the rest of the pattern
    matches behind it. *)
Lemma rep_greedy_run (k : list str -> str -> option (list str * str))
    (capture : bool) min cs (run : str) :
  forall (acc : str) (gs : list str) (s : str) r,
    forallb (in_class cs) run = true ->
    ends_run cs s = true ->
    min <= length (acc ++ run) ->
    k (if capture then gs ++ [acc ++ run] else gs) s = Some r ->
    rep k capture true min cs acc gs (run ++ s) = Some r.
Proof.
  induction run as [|a run IH]; intros acc gs s r Hrun Hs Hmin Hk.
  - rewrite app_nil_r in *. simpl. rewrite rep_eq. cbv zeta.
    apply Nat.leb_le in Hmin. rewrite Hmin, Hk.
    destruct s as [|c s]; [reflexivity|].
    simpl in Hs. apply negb_true_iff in Hs. rewrite Hs. reflexivity.
  - simpl in Hrun. apply andb_true_iff in Hrun as [Ha Hrun].
    rewrite rep_eq. simpl. rewrite Ha.
    rewrite (IH (acc ++ [a]) gs s r); auto.
    + rewrite <- app_assoc. exact Hmin.
    + rewrite <- app_assoc. exact Hk.
Qed.

(** A lazy repetition stops at the first place where it may stop and the
    rest of the pattern matches. *)
Lemma rep_lazy_run (k : list str -> str -> option (list str * str))
    (capture : bool) min cs (run : str) :
  forall (acc : str) (gs : list str) (s : str) r,
    forallb (in_class cs) run = true ->
    (forall pre post,
        run = pre ++ post -> post <> [] -> min <= length (acc ++ pre) ->
        k (if capture then gs ++ [acc ++ pre] else gs) (post ++ s) = None) ->
    min <= length (acc ++ run) ->
    k (if capture then gs ++ [acc ++ run] else gs) s = Some r ->
    rep k capture false min cs acc gs (run ++ s) = Some r.
Proof.
  induction run as [|a run IH]; intros acc gs s r Hrun Hfail Hmin Hk.
  - rewrite app_nil_r in *. simpl. rewrite rep_eq. cbv zeta.
    apply Nat.leb_le in Hmin. rewrite Hmin, Hk.
    destruct s as [|c s]; [reflexivity|].
    destruct (in_class cs c); reflexivity.
  - simpl in Hrun. apply andb_true_iff in Hrun as [Ha Hrun].
    rewrite rep_eq. simpl. rewrite Ha.
    assert (Hstop :
      (if (min <=? length acc)%nat
       then k (if capture then gs ++ [acc] else gs) (a :: run ++ s)
       else None) = None).
    { destruct (min <=? length acc)%nat eqn:E; [|reflexivity].
      apply Nat.leb_le in E.
      specialize (Hfail [] (a :: run) eq_refl).
      rewrite app_nil_r in Hfail. apply Hfail; [discriminate | exact E]. }
    rewrite Hstop.
    apply IH; auto.
    + intros pre post -> Hpost Hlen.
      rewrite <- app_assoc in *. simpl in *.
      apply (Hfail (a :: pre) post); auto.
    + rewrite <- app_assoc. exact Hmin.
    + rewrite <- app_assoc. exact Hk.
Qed.

(** A match never gives back more text than it was given, and a pattern
    that starts with a literal consumes at least that character. *)
Lemma rep_length (k : list str -> str -> option (list str * str))
    (capture : bool) greedy min cs :
  (forall gs s r, k gs s = Some r -> length (snd r) <= length s) ->
  forall s acc gs r,
    rep k capture greedy min cs acc gs s = Some r ->
    length (snd r) <= length s.
Proof.
  intros Hk. induction s as [|c s IH]; intros acc gs r H; rewrite rep_eq in H;
    cbv zeta in H.
  - destruct (min <=? length acc)%nat; [|discriminate]. now apply Hk in H.
  - assert (Hstop : forall r0,
      (if (min <=? length acc)%nat
       then k (if capture then gs ++ [acc] else gs) (c :: s)
       else None) = Some r0 -> length (snd r0) <= length (c :: s)).
    { intros r0 H0. destruct (min <=? length acc)%nat; [|discriminate].
      now apply Hk in H0. }
    destruct (in_class cs c); [|now apply Hstop].
    destruct greedy.
    + destruct (rep k capture true min cs (acc ++ [c]) gs s) eqn:E.
      * inversion H; subst. apply IH in E. simpl. lia.
      * now apply Hstop.
    + destruct (if (min <=? length acc)%nat
                then k (if capture then gs ++ [acc] else gs) (c :: s)
                else None) eqn:E.
      * inversion H; subst. now apply Hstop.
      * apply IH in H. simpl. lia.
Qed.

Lemma rmatch_length (p : pattern) :
  forall gs s r, rmatch p gs s = Some r -> length (snd r) <= length s.
Proof.
  induction p as [|n p IH]; intros gs s r H; simpl in H.
  - inversion H; subst. reflexivity.
  - destruct n as [c | capture greedy min cs].
    + destruct s as [|x s]; [discriminate|].
      destruct (Ascii.eqb x c); [|discriminate].
      apply IH in H. simpl. lia.
    + eapply rep_length; eauto.
Qed.

Lemma rmatch_lit_shrinks c (p : pattern) gs s r :
  rmatch (Lit c :: p) gs s = Some r -> length (snd r) < length s.
Proof.
  simpl. destruct s as [|x s]; [discriminate|].
  destruct (Ascii.eqb x c); [|discriminate].
  intros H. apply rmatch_length in H. simpl. lia.
Qed.

(** What is left after a match is a suffix of the text, so [group(0)] is
    the text in front of it. *)
Lemma rep_suffix (k : list str -> str -> option (list str * str))
    (capture : bool) greedy min cs :
  (forall gs s r, k gs s = Some r -> exists pre, s = pre ++ snd r) ->
  forall s acc gs r,
    rep k capture greedy min cs acc gs s = Some r ->
    exists pre, s = pre ++ snd r.
Proof.
  intros Hk. induction s as [|c s IH]; intros acc gs r H; rewrite rep_eq in H;
    cbv zeta in H.
  - destruct (min <=? length acc)%nat; [|discriminate]. now apply Hk in H.
  - assert (Hstop : forall r0,
      (if (min <=? length acc)%nat
       then k (if capture then gs ++ [acc] else gs) (c :: s)
       else None) = Some r0 -> exists pre, c :: s = pre ++ snd r0).
    { intros r0 H0. destruct (min <=? length acc)%nat; [|discriminate].
      now apply Hk in H0. }
    assert (Hmore : forall r0,
      rep k capture greedy min cs (acc ++ [c]) gs s = Some r0 ->
      exists pre, c :: s = pre ++ snd r0).
    { intros r0 H0. apply IH in H0 as [pre ->]. now exists (c :: pre). }
    destruct (in_class cs c); [|now apply Hstop].
    destruct greedy.
    + destruct (rep k capture true min cs (acc ++ [c]) gs s) eqn:E.
      * inversion H; subst. now apply Hmore.
      * now apply Hstop.
    + destruct (if (min <=? length acc)%nat
                then k (if capture then gs ++ [acc] else gs) (c :: s)
                else None) eqn:E.
      * inversion H; subst. now apply Hstop.
      * now apply Hmore.
Qed.

Lemma rmatch_suffix (p : pattern) :
  forall gs s r, rmatch p gs s = Some r -> exists pre, s = pre ++ snd r.
Proof.
  induction p as [|n p IH]; intros gs s r H; simpl in H.
  - inversion H; subst. now exists [].
  - destruct n as [c | capture greedy min cs].
    + destruct s as [|x s]; [discriminate|].
      destruct (Ascii.eqb x c); [|discriminate].
      apply IH in H as [pre ->]. now exists (x :: pre).
    + eapply rep_suffix; eauto.
Qed.

Lemma re_match_group0 (p : pattern) (s : str) (m : Match) (rest : str) :
  re_match p s = Some (m, rest) -> s = group 0 m ++ rest.
Proof.
  unfold re_match.
  destruct (rmatch p [] s) as [[gs rest']|] eqn:E; [|discriminate].
  intros H. inversion H; subst. simpl.
  apply rmatch_suffix in E as [pre ->]. simpl.
  rewrite length_app, Nat.add_sub, firstn_app, firstn_all, Nat.sub_diag.
  simpl. now rewrite app_nil_r.
Qed.

(** The five patterns of the normaliser start with a literal, so the fuel
    [re_sub_with] gives to the scan is enough. *)
Lemma re_sub_with_fuel {A : Type} c (p : pattern)
    (repl : A -> Match -> A * str) (a : A) (text : str) (n : nat) :
  length text <= n ->
  scan (fun a s =>
          match re_match (Lit c :: p) s with
          | Some (m, rest) => let '(a', out) := repl a m in Some (a', out, rest)
          | None => None
          end) n a text
  = re_sub_with (Lit c :: p) repl a text.
Proof.
  intros Hn. unfold re_sub_with. apply scan_fuel_irrelevant; auto.
  intros a0 s a' out rest. unfold re_match.
  destruct (rmatch (Lit c :: p) [] s) as [[gs rest']|] eqn:E; [|discriminate].
  apply rmatch_lit_shrinks in E. simpl in E.
  destruct (repl a0 _). intros H. inversion H; subst. exact E.
Qed.

Lemma re_sub_with_no_match {A : Type} (p : pattern)
    (repl : A -> Match -> A * str) (a : A) (text : str) :
  re_search p text = false -> re_sub_with p repl a text = (a, text).
Proof.
  intros H. unfold re_sub_with. apply scan_no_match.
  intros pre t ->. unfold re_match.
  induction pre as [|c pre IH]; simpl in H.
  - destruct t; simpl in H; destruct (rmatch p _ _); congruence.
  - apply IH. destruct (rmatch p [] (c :: pre ++ t)); congruence.
Qed.

Lemma re_sub_with_whole {A : Type} (p : pattern)
    (repl : A -> Match -> A * str) (a : A) (text : str) gs :
  text <> [] -> rmatch p [] text = Some (gs, []) ->
  re_sub_with p repl a text = repl a (mkMatch text gs).
Proof.
  intros Ht H. unfold re_sub_with.
  destruct (repl a (mkMatch text gs)) as [a' out] eqn:E.
  apply scan_whole; auto. unfold re_match. rewrite H. simpl.
  rewrite Nat.sub_0_r, firstn_all, E. reflexivity.
Qed.

(** A pattern that starts with a literal matches nowhere in a text without
    that character. *)
Lemma re_search_absent c (p : pattern) (text : str) :
  forallb (fun x => negb (Ascii.eqb x c)) text = true ->
  re_search (Lit c :: p) text = false.
Proof.
  induction text as [|x text IH]; intros H; [reflexivity|].
  simpl in H. apply andb_true_iff in H as [Hx H].
  apply negb_true_iff in Hx.
  change (re_search (Lit c :: p) (x :: text))
    with (match rmatch (Lit c :: p) [] (x :: text) with
          | Some _ => true
          | None => re_search (Lit c :: p) text
          end).
  simpl. rewrite Hx. apply IH, H.
Qed.

(* ================================================================== *)
(** * The text normaliser *)
(* ================================================================== *)

Example normalize_text_empty : normalize_text "" = "".
Proof. reflexivity. Qed.

(** The token of the first captured macro passes the escaping and the
    formatting stages unchanged. *)
Lemma cmd_token_0_untouched :
  _apply_formatting (_escape_latex (cmd_token 0)) = cmd_token 0.
Proof. vm_compute. reflexivity. Qed.

(** The macro pattern matches a whole macro. *)
Lemma rmatch_cmd (name arg s : str) :
  name <> [] ->
  forallb is_letter name = true ->
  forallb (fun c => negb (Ascii.eqb c "}")) arg = true ->
  rmatch CMD_RE [] ("\" ++ name ++ "{" ++ arg ++ "}" ++ s) = Some ([], s).
Proof.
  intros Hne Hname Harg. unfold CMD_RE.
  change (rep (rmatch [Lit "{"; Rep false true 0 (NotChar "}"); Lit "}"])
              false true 1 Letter [] []
              (name ++ ("{"%char :: arg ++ "}"%char :: s))
          = Some ([], s)).
  apply rep_greedy_run; auto.
  - destruct name; [congruence | simpl; lia].
  - change (rep (rmatch [Lit "}"]) false true 0 (NotChar "}") [] []
                (arg ++ ("}"%char :: s)) = Some ([], s)).
    apply rep_greedy_run; auto. simpl. lia.
Qed.

(** ** Links *)

(** The token of the first captured link passes the macro scan, the
    escaping and the formatting stages unchanged. *)
Lemma link_token_0_untouched :
  re_sub_with CMD_RE _capture_cmd [] (link_token 0) = ([], link_token 0)
  /\ _apply_formatting (_escape_latex (link_token 0)) = link_token 0.
Proof. split; vm_compute; reflexivity. Qed.

Lemma link_token_nonempty idx : link_token idx <> [].
Proof. discriminate. Qed.

Lemma cmd_token_nonempty idx : cmd_token idx <> [].
Proof. discriminate. Qed.

(** Restoring a single link: the URL as captured, the display text escaped
    and formatted, and nothing else done to either. *)
Lemma restore_single_link (display url : str) :
  restore_links [(display, url)] (link_token 0)
  = "\href{" ++ url ++ "}{" ++ _apply_formatting (_escape_latex display) ++ "}".
Proof.
  change (restore_links [(display, url)] (link_token 0))
    with (str_replace (link_token 0)
            (href url (_apply_formatting (_escape_latex display)))
            (link_token 0)).
  rewrite str_replace_whole by apply link_token_nonempty. reflexivity.
Qed.

(** The link pattern matches a whole link. *)
Lemma rmatch_link (display url s : str) :
  display <> [] -> url <> [] ->
  forallb (fun c => negb (Ascii.eqb c "]")) display = true ->
  forallb (fun c => negb (Ascii.eqb c ")")) url = true ->
  rmatch LINK_RE [] ("[" ++ display ++ "](" ++ url ++ ")" ++ s)
  = Some ([display; url], s).
Proof.
  intros Hd Hu Hdisplay Hurl. unfold LINK_RE.
  change (rep (rmatch [Lit "]"; Lit "("; Rep true true 1 (NotChar ")"); Lit ")"])
              true true 1 (NotChar "]") [] []
              (display ++ ("]"%char :: "("%char :: url ++ ")"%char :: s))
          = Some ([display; url], s)).
  apply rep_greedy_run; auto.
  - destruct display; [congruence | simpl; lia].
  - change (rep (rmatch [Lit ")"]) true true 1 (NotChar ")") [] [display]
                (url ++ (")"%char :: s)) = Some ([display; url], s)).
    apply rep_greedy_run; auto.
    destruct url; [congruence | simpl; lia].
Qed.

(** A text that is exactly one link [[display](url)] becomes one hyperlink:
    the URL is used as captured and the display text goes through escaping
    and formatting only. *)
Lemma normalize_text_link (display url : str) :
  display <> [] -> url <> [] ->
  forallb (fun c => negb (Ascii.eqb c "]")) display = true ->
  forallb (fun c => negb (Ascii.eqb c ")")) url = true ->
  normalize_text ("[" ++ display ++ "](" ++ url ++ ")")
  = "\href{" ++ url ++ "}{" ++ _apply_formatting (_escape_latex display) ++ "}".
Proof.
  intros Hd Hu Hdisplay Hurl. unfold normalize_text.
  rewrite (re_sub_with_whole LINK_RE _capture_link [] _ [display; url]).
  - change (_capture_link [] {| group0 := _; captures := [display; url] |})
      with ([(display, url)], link_token 0).
    destruct link_token_0_untouched as [-> ->].
    change (restore_cmds [] (link_token 0)) with (link_token 0).
    apply restore_single_link.
  - discriminate.
  - pose proof (rmatch_link display url [] Hd Hu Hdisplay Hurl) as H.
    exact H.
Qed.

Lemma normalize_text_link_witness :
  normalize_text "[a_b **c**](https://example.com/x_y?q=1&r=2)"
  = "\href{https://example.com/x_y?q=1&r=2}{a\_b \textbf{c}}".
Proof.
  apply (normalize_text_link "a_b **c**" "https://example.com/x_y?q=1&r=2");
    [discriminate | discriminate | reflexivity | reflexivity].
Defined.

(** A macro inside the display text of a link is escaped like any other
    text: the display text is not scanned for macros again. *)
Example link_display_not_rescanned :
  normalize_text "[\ref{a_b}](u_v)" = "\href{u_v}{\ref{a\_b}}"
  /\ normalize_text "\ref{a_b}" = "\ref{a_b}".
Proof. split; vm_compute; reflexivity. Qed.

(** C1. For the input [[Docs](https://example.com/a_b)] the link stage
    captures the display text and the URL; restoring a captured link uses the
    URL exactly as captured and passes the display text through escaping and
    formatting only (no second scan for links or macros); the result is the
    hyperlink to [https://example.com/a_b], whose underscore is not escaped,
    with the display text [Docs]. *)
Theorem normalize_text_docs_link :
  re_sub_with LINK_RE _capture_link [] "[Docs](https://example.com/a_b)"
    = ([(lit "Docs", lit "https://example.com/a_b")], link_token 0)
  /\ (forall display url : str,
        restore_links [(display, url)] (link_token 0)
        = "\href{" ++ url ++ "}{"
          ++ _apply_formatting (_escape_latex display) ++ "}")
  /\ _apply_formatting (_escape_latex "Docs") = "Docs"
  /\ normalize_text "[Docs](https://example.com/a_b)"
     = "\href{https://example.com/a_b}{Docs}"
  /\ contains (_escape_latex "https://example.com/a_b")
       (normalize_text "[Docs](https://example.com/a_b)") = false.
Proof.
  split; [vm_compute; reflexivity|].
  split; [exact restore_single_link|].
  repeat split; vm_compute; reflexivity.
Qed.

(** ** Escaping is not idempotent *)

(** C2. ["50% done"] contains a reserved character; it is normalised to
    ["50\% done"], and normalising that again gives ["50\\% done"], a
    different string: [normalize_text] is not idempotent on its own escaped
    output. *)
Theorem normalize_text_not_idempotent :
  normalize_text "50% done" = "50\% done"
  /\ normalize_text (normalize_text "50% done") = "50\\% done"
  /\ exists text : str,
       In "%"%char text
       /\ normalize_text (normalize_text text) <> normalize_text text.
Proof.
  split; [vm_compute; reflexivity|].
  split; [vm_compute; reflexivity|].
  exists (lit "50% done"). split.
  - vm_compute. tauto.
  - vm_compute. discriminate.
Qed.

(** ** Macros *)

(** A macro whose argument holds a link is not returned as it was: the link
    scan runs first and the link is rewritten inside the macro. *)
Lemma macro_with_link_rewritten :
  let name : str := "ref" in
  let arg : str := "[a](b)" in
  name <> []
  /\ forallb is_letter name = true
  /\ forallb (fun c => negb (Ascii.eqb c "}")) arg = true
  /\ normalize_text ("\" ++ name ++ "{" ++ arg ++ "}") = "\ref{\href{b}{a}}"
  /\ normalize_text ("\" ++ name ++ "{" ++ arg ++ "}")
     <> "\" ++ name ++ "{" ++ arg ++ "}".
Proof.
  cbv zeta. split; [discriminate|].
  repeat split; try (vm_compute; reflexivity).
  vm_compute. discriminate.
Qed.

(** The stages after the link scan: a single macro is captured whole by
    the macro scan, its token passes escaping and formatting, and the macro
    is restored as it was. *)
Lemma macro_stages (name arg : str) :
  name <> [] ->
  forallb is_letter name = true ->
  forallb (fun c => negb (Ascii.eqb c "}")) arg = true ->
  let input := "\" ++ name ++ "{" ++ arg ++ "}" in
  let '(latex_cmds, text) := re_sub_with CMD_RE _capture_cmd [] input in
  restore_cmds latex_cmds (_apply_formatting (_escape_latex text)) = input.
Proof.
  intros Hne Hname Harg input.
  rewrite (re_sub_with_whole CMD_RE _capture_cmd [] input []).
  - change (_capture_cmd [] {| group0 := input; captures := [] |})
      with ([input], cmd_token 0).
    cbv beta iota. rewrite cmd_token_0_untouched.
    change (restore_cmds [input] (cmd_token 0))
      with (str_replace (cmd_token 0) input (cmd_token 0)).
    apply str_replace_whole, cmd_token_nonempty.
  - discriminate.
  - exact (rmatch_cmd name arg [] Hne Hname Harg).
Qed.

(** C3 (amended). An input that is a single raw macro -- a backslash, one
    or more letters and a brace-delimited argument -- and in which the link
    pattern matches nowhere is returned exactly as it is. *)
Theorem normalize_text_macro_passthrough (name arg : str) :
  name <> [] ->
  forallb is_letter name = true ->
  forallb (fun c => negb (Ascii.eqb c "}")) arg = true ->
  re_search LINK_RE ("\" ++ name ++ "{" ++ arg ++ "}") = false ->
  normalize_text ("\" ++ name ++ "{" ++ arg ++ "}")
  = "\" ++ name ++ "{" ++ arg ++ "}".
Proof.
  intros Hne Hname Harg Hlink. unfold normalize_text.
  rewrite re_sub_with_no_match by exact Hlink.
  pose proof (macro_stages name arg Hne Hname Harg) as H. cbv zeta in H.
  destruct (re_sub_with CMD_RE _capture_cmd []
              ("\" ++ name ++ "{" ++ arg ++ "}")) as [latex_cmds text].
  rewrite H. reflexivity.
Qed.

Lemma normalize_text_macro_passthrough_witness :
  normalize_text "\ref{fig:one}" = "\ref{fig:one}".
Proof.
  apply (normalize_text_macro_passthrough "ref" "fig:one");
    [discriminate | reflexivity | reflexivity | reflexivity].
Defined.

Lemma is_letter_not_bracket (name : str) :
  forallb is_letter name = true ->
  forallb (fun c => negb (Ascii.eqb c "[")) name = true.
Proof.
  induction name as [|c name IH]; simpl; [reflexivity|].
  intros H. apply andb_true_iff in H as [Hc H]. rewrite (IH H), andb_true_r.
  destruct (Ascii.eqb c "[") eqn:E; [|reflexivity].
  apply Ascii.eqb_eq in E. subst c. discriminate.
Qed.

(** A macro whose argument holds no opening bracket holds no link, and is
    returned exactly as it is. *)
Lemma normalize_text_macro_no_bracket (name arg : str) :
  name <> [] ->
  forallb is_letter name = true ->
  forallb (fun c => negb (Ascii.eqb c "}")) arg = true ->
  forallb (fun c => negb (Ascii.eqb c "[")) arg = true ->
  normalize_text ("\" ++ name ++ "{" ++ arg ++ "}")
  = "\" ++ name ++ "{" ++ arg ++ "}".
Proof.
  intros Hne Hname Harg Hbr. unfold normalize_text.
  rewrite re_sub_with_no_match.
  - pose proof (macro_stages name arg Hne Hname Harg) as H. cbv zeta in H.
    destruct (re_sub_with CMD_RE _capture_cmd []
                ("\" ++ name ++ "{" ++ arg ++ "}")) as [latex_cmds text].
    rewrite H. reflexivity.
  - apply re_search_absent.
    rewrite !forallb_app, (is_letter_not_bracket name Hname), Hbr.
    reflexivity.
Qed.

Lemma normalize_text_macro_no_bracket_witness :
  normalize_text "\label{sec:intro_1}" = "\label{sec:intro_1}".
Proof.
  apply (normalize_text_macro_no_bracket "label" "sec:intro_1");
    [discriminate | reflexivity | reflexivity | reflexivity].
Defined.

(** ** Inline formatting *)

Lemma re_sub_no_match (p : pattern) (template : Match -> str) (text : str) :
  re_search p text = false -> re_sub p template text = text.
Proof.
  intros H. unfold re_sub. rewrite re_sub_with_no_match by exact H.
  reflexivity.
Qed.

Lemma re_sub_whole (p : pattern) (template : Match -> str) (text : str) gs :
  text <> [] -> rmatch p [] text = Some (gs, []) ->
  re_sub p template text = template (mkMatch text gs).
Proof.
  intros Ht H. unfold re_sub.
  rewrite (re_sub_with_whole p _ tt text gs Ht H). reflexivity.
Qed.

Lemma plain_forallb (x : str) :
  forallb plain x = true ->
  forallb (fun c => negb (Ascii.eqb c "*")) x = true
  /\ forallb (fun c => negb (Ascii.eqb c "`")) x = true
  /\ forallb (in_class Dot) x = true.
Proof.
  induction x as [|c x IH]; simpl; [auto|].
  unfold plain at 1. rewrite !andb_true_iff.
  intros [[[H1 H2] H3] H]. destruct (IH H) as (I1 & I2 & I3).
  rewrite H1, H2, H3, I1, I2, I3. auto.
Qed.

(** The bold pattern matches [**x**] as a whole when [x] holds no asterisk. *)
Lemma rmatch_bold (x : str) :
  x <> [] ->
  forallb (fun c => negb (Ascii.eqb c "*")) x = true ->
  forallb (in_class Dot) x = true ->
  rmatch BOLD_RE [] ("**" ++ x ++ "**") = Some ([x], []).
Proof.
  intros Hne Hstar Hdot. unfold BOLD_RE.
  change (rep (rmatch [Lit "*"; Lit "*"]) true false 1 Dot [] []
              (x ++ ["*"%char; "*"%char]) = Some ([x], [])).
  apply rep_lazy_run; auto.
  - intros pre post -> Hpost _.
    destruct post as [|c post]; [congruence|].
    rewrite forallb_app in Hstar. apply andb_true_iff in Hstar as [_ Hstar].
    simpl in Hstar. apply andb_true_iff in Hstar as [Hc _].
    apply negb_true_iff in Hc. simpl. rewrite Hc. reflexivity.
  - destruct x; [congruence | simpl; lia].
Qed.

(** [**x**] becomes one bold construct, for every non-empty [x] without
    asterisk, backtick or newline. *)
Lemma apply_formatting_bold (x : str) :
  x <> [] -> forallb plain x = true ->
  _apply_formatting ("**" ++ x ++ "**") = "\textbf{" ++ x ++ "}".
Proof.
  intros Hne Hplain. destruct (plain_forallb x Hplain) as (Hstar & Htick & Hdot).
  unfold _apply_formatting.
  rewrite (re_sub_no_match CODE_RE).
  2:{ apply re_search_absent. rewrite !forallb_app, Htick. reflexivity. }
  rewrite (re_sub_whole BOLD_RE textbf _ [x]).
  2:{ discriminate. }
  2:{ apply rmatch_bold; auto. }
  change (textbf {| group0 := _; captures := [x] |})
    with ("\textbf{" ++ x ++ "}").
  apply re_sub_no_match, re_search_absent.
  rewrite !forallb_app, Hstar. reflexivity.
Qed.

(** C4. The formatting stage applies the monospace pattern, then the bold
    pattern, then the italic pattern.  [**x**] becomes one bold construct
    (the italic pattern alone would have taken [**x*] as an italic span); the
    input [**bold** and *italic* and `code`] yields the three markers and no
    asterisk or backtick is left. *)
Theorem apply_formatting_bold_before_italic :
  (forall text : str,
      _apply_formatting text
      = re_sub ITALIC_RE textit
          (re_sub BOLD_RE textbf (re_sub CODE_RE texttt text)))
  /\ _apply_formatting "**x**" = "\textbf{x}"
  /\ re_sub ITALIC_RE textit "**x**" = "\textit{*x}*"
  /\ (forall x : str,
        x <> [] -> forallb plain x = true ->
        _apply_formatting ("**" ++ x ++ "**") = "\textbf{" ++ x ++ "}")
  /\ normalize_text "**bold** and *italic* and `code`"
     = "\textbf{bold} and \textit{italic} and \texttt{code}"
  /\ existsb (fun c => Ascii.eqb c "*" || Ascii.eqb c "`")
       (normalize_text "**bold** and *italic* and `code`") = false.
Proof.
  split; [reflexivity|].
  split; [vm_compute; reflexivity|].
  split; [vm_compute; reflexivity|].
  split; [exact apply_formatting_bold|].
  split; vm_compute; reflexivity.
Qed.

Lemma apply_formatting_bold_before_italic_witness :
  _apply_formatting "**x**" = "\textbf{x}".
Proof.
  destruct apply_formatting_bold_before_italic as (_ & _ & _ & H & _).
  apply (H (lit "x")); [discriminate | reflexivity].
Defined.

(* ================================================================== *)
(** * Itemized lists *)
(* ================================================================== *)

Lemma rstrip_spec (s : str) :
  exists ws,
    s = rstrip s ++ ws
    /\ forallb isspace ws = true
    /\ (rstrip s = []
        \/ exists pre c, rstrip s = pre ++ [c] /\ isspace c = false).
Proof.
  induction s as [|c s (ws & Hs & Hws & Hend)]; simpl.
  - exists []. auto.
  - destruct (rstrip s) as [|r rs] eqn:E.
    + destruct (isspace c) eqn:Hc.
      * exists (c :: ws). simpl in *. rewrite Hc, Hws. subst s. auto.
      * exists ws. simpl in *. subst s. repeat split; auto.
        right. exists [], c. auto.
    + exists ws. split; [simpl; f_equal; exact Hs|]. split; [exact Hws|].
      right. destruct Hend as [Hend | (pre & c' & Hpre & Hc')]; [discriminate|].
      exists (c :: pre), c'. rewrite Hpre. auto.
Qed.

Section ItemizeFacts.
Import ItemizeContent.

(** The loops only append to the document. *)
Lemma execute_part_extends font_size (parts : list Part) :
  forall st, exists extra,
    fst (fold_left (execute_part font_size) parts st) = fst st ++ extra.
Proof.
  induction parts as [|p parts IH]; intros [doc first]; simpl.
  - exists []. now rewrite app_nil_r.
  - unfold append.
    destruct (part_text p) as [text|]; [|destruct (part_code p) as [code|]];
      match goal with
      | |- context [fold_left _ parts ?st] =>
          destruct (IH st) as [extra ->]; simpl
      end.
    + rewrite <- app_assoc. eauto.
    + rewrite <- app_assoc. eauto.
    + eauto.
Qed.

Lemma execute_item_extends (doc : Document) (item : Item) :
  exists extra, execute_item doc item = doc ++ extra.
Proof.
  destruct item as [s | d]; unfold execute_item, append.
  - eauto.
  - destruct (get (item_parts d) []) as [|p parts].
    + destruct (get (item_code d) "");
        [eauto | rewrite <- app_assoc; eauto].
    + exact (execute_part_extends _ (p :: parts) (doc, true)).
Qed.

Lemma fold_execute_item_extends (l : list Item) :
  forall doc, exists extra, fold_left execute_item l doc = doc ++ extra.
Proof.
  induction l as [|item l IH]; intros doc; simpl.
  - exists []. now rewrite app_nil_r.
  - destruct (execute_item_extends doc item) as [e1 ->].
    destruct (IH (doc ++ e1)) as [e2 ->]. rewrite <- app_assoc. eauto.
Qed.

(** A part that has a [code] key and no [text] key leaves its block in the
    document. *)
Lemma execute_part_code font_size (parts : list Part) (p : Part) body :
  In p parts -> part_text p = None -> part_code p = Some body ->
  forall st,
    In (verbatim_block font_size body)
       (fst (fold_left (execute_part font_size) parts st)).
Proof.
  intros Hin Htext Hcode.
  induction parts as [|q parts IH]; [contradiction|].
  intros [doc first]. destruct Hin as [-> | Hin].
  - simpl. rewrite Htext, Hcode.
    match goal with
    | |- context [fold_left _ parts ?st] =>
        destruct (execute_part_extends font_size parts st) as [extra ->]
    end.
    simpl. unfold append. rewrite !in_app_iff. simpl. auto.
  - simpl. apply IH, Hin.
Qed.

Lemma fold_execute_item_in (l : list Item) (item : Item) (chunk : str) :
  In item l ->
  (forall doc, In chunk (execute_item doc item)) ->
  forall doc, In chunk (fold_left execute_item l doc).
Proof.
  intros Hin Hchunk. induction l as [|x l IH]; [contradiction|].
  intros doc. destruct Hin as [-> | Hin]; simpl.
  - destruct (fold_execute_item_extends l (execute_item doc item))
      as [extra ->].
    apply in_or_app. left. apply Hchunk.
  - apply IH, Hin.
Qed.

(** After the first part no marker is added: every text part is emitted
    as its normalised text and every code part as its block. *)
Lemma execute_part_unmarked font_size (parts : list Part) :
  forall doc,
    fold_left (execute_part font_size) parts (doc, false)
    = (doc ++ flat_map
                (fun p =>
                   match part_text p, part_code p with
                   | Some text, _ => [normalize_text text]
                   | None, Some code => [verbatim_block font_size code]
                   | None, None => []
                   end) parts,
       false).
Proof.
  induction parts as [|p parts IH]; intros doc; simpl.
  - now rewrite app_nil_r.
  - unfold append.
    destruct (part_text p) as [text|]; [|destruct (part_code p) as [code|]];
      rewrite IH; simpl; rewrite <- ?app_assoc; reflexivity.
Qed.
End ItemizeFacts.

(** X4. A structured item that starts with a text part gets its marker from
    that part, and no later part adds one. *)
Lemma itemize_text_first (doc : Document) (d : ItemDict) text code parts :
  item_parts d = Some (mkPart (Some text) code :: parts) ->
  ItemizeContent.execute_item doc (ItemMap d)
  = doc ++ ("\item " ++ normalize_text text)
        :: flat_map
             (fun p =>
                match part_text p, part_code p with
                | Some text, _ => [normalize_text text]
                | None, Some code =>
                    [ItemizeContent.verbatim_block
                       (get (item_font_size d) "small") code]
                | None, None => []
                end) parts.
Proof.
  intros H. unfold ItemizeContent.execute_item. rewrite H.
  cbn [get fold_left ItemizeContent.execute_part part_text].
  rewrite execute_part_unmarked. unfold append. simpl.
  rewrite <- app_assoc. reflexivity.
Qed.

Lemma itemize_text_first_witness :
  ItemizeContent.execute_item []
    (ItemMap (mkItemDict
                (Some [mkPart (Some (lit "run `make`")) None;
                       mkPart None (Some (lit "make all"));
                       mkPart (Some (lit "then wait")) None])
                (Some (lit "footnotesize")) None None))
  = [lit "\item run \texttt{make}";
     "\begin{Verbatim}[fontsize=\footnotesize]" ++ [LF] ++ "make all" ++ [LF]
       ++ "\end{Verbatim}" ++ [LF];
     lit "then wait"].
Proof.
  apply (itemize_text_first []
           (mkItemDict
              (Some [mkPart (Some (lit "run `make`")) None;
                     mkPart None (Some (lit "make all"));
                     mkPart (Some (lit "then wait")) None])
              (Some (lit "footnotesize")) None None)
           "run `make`" None
           [mkPart None (Some (lit "make all"));
            mkPart (Some (lit "then wait")) None]).
  reflexivity.
Defined.

(** A structured item that starts with a code part gets no marker at all:
    the block is emitted bare and the later parts add none. *)
Lemma itemize_code_first (doc : Document) (d : ItemDict) code parts :
  item_parts d = Some (mkPart None (Some code) :: parts) ->
  ItemizeContent.execute_item doc (ItemMap d)
  = doc ++ ItemizeContent.verbatim_block (get (item_font_size d) "small") code
        :: flat_map
             (fun p =>
                match part_text p, part_code p with
                | Some text, _ => [normalize_text text]
                | None, Some code =>
                    [ItemizeContent.verbatim_block
                       (get (item_font_size d) "small") code]
                | None, None => []
                end) parts.
Proof.
  intros H. unfold ItemizeContent.execute_item. rewrite H.
  cbn [get fold_left ItemizeContent.execute_part part_text part_code].
  rewrite execute_part_unmarked. unfold append. simpl.
  rewrite <- app_assoc. reflexivity.
Qed.

(** C5. A list whose only item is structured and starts with a code part
    is rendered without any list marker: the document holds the opening of
    the list, the bare block, the closing and the spacing.  The same item with
    a text part in front gets one marker, on the text part. *)
Theorem itemize_code_first_has_no_marker :
  let code_part := mkPart None (Some (lit "x")) in
  let text_part := mkPart (Some (lit "run")) None in
  let item parts := ItemMap (mkItemDict (Some parts) None None None) in
  ItemizeContent.execute (ItemizeContent.mk [item [code_part]] true) []
  = [lit "\begin{itemize}[topsep=0pt]";
     "\begin{Verbatim}[fontsize=\small]" ++ [LF] ++ "x" ++ [LF]
       ++ "\end{Verbatim}" ++ [LF];
     lit "\end{itemize}";
     lit "\vspace{\baselineskip}"]
  /\ existsb (contains "\item")
       (ItemizeContent.execute
          (ItemizeContent.mk [item [code_part]] true) []) = false
  /\ ItemizeContent.execute
       (ItemizeContent.mk [item [text_part; code_part]] true) []
     = [lit "\begin{itemize}[topsep=0pt]";
        lit "\item run";
        "\begin{Verbatim}[fontsize=\small]" ++ [LF] ++ "x" ++ [LF]
          ++ "\end{Verbatim}" ++ [LF];
        lit "\end{itemize}";
        lit "\vspace{\baselineskip}"].
Proof. cbv zeta. repeat split; vm_compute; reflexivity. Qed.

(** A code body with trailing blank lines is not emitted as given: no
    chunk of the rendered list holds it. *)
Lemma itemize_code_body_stripped :
  let body : str := "x = 1" ++ [LF; LF] in
  let item :=
    ItemMap (mkItemDict (Some [mkPart None (Some body)]) None None None) in
  let self := ItemizeContent.mk [item] true in
  ItemizeContent.execute self []
  = [lit "\begin{itemize}[topsep=0pt]";
     "\begin{Verbatim}[fontsize=\small]" ++ [LF] ++ "x = 1" ++ [LF]
       ++ "\end{Verbatim}" ++ [LF];
     lit "\end{itemize}";
     lit "\vspace{\baselineskip}"]
  /\ ~ (exists chunk pre post,
          In chunk (ItemizeContent.execute self [])
          /\ chunk = pre ++ body ++ post).
Proof.
  cbv zeta. split; [vm_compute; reflexivity|].
  intros (chunk & pre & post & Hin & Heq).
  assert (Hc : contains ("x = 1" ++ [LF; LF]) chunk = true).
  { apply contains_spec. eauto. }
  clear Heq.
  repeat (destruct Hin as [<- | Hin]; [vm_compute in Hc; discriminate|]).
  contradiction.
Qed.

(** C6 (amended). For every part of a structured item that has a [code] key
    and no [text] key, the rendered list holds a [Verbatim] block at the
    item's [font_size] ([small] when the key is absent) whose content is the
    code body without its trailing whitespace, and otherwise unchanged,
    followed by a newline. *)
Theorem itemize_code_part_block
    (self : ItemizeContent.t) (doc : Document) (d : ItemDict)
    (parts : list Part) (p : Part) (body : str) :
  In (ItemMap d) (ItemizeContent.items self) ->
  item_parts d = Some parts ->
  In p parts ->
  part_text p = None ->
  part_code p = Some body ->
  exists kept ws,
    body = kept ++ ws
    /\ forallb isspace ws = true
    /\ (kept = [] \/ exists pre c, kept = pre ++ [c] /\ isspace c = false)
    /\ In ("\begin{Verbatim}[fontsize=\" ++ get (item_font_size d) "small"
           ++ "]" ++ [LF] ++ kept ++ [LF] ++ "\end{Verbatim}" ++ [LF])
          (ItemizeContent.execute self doc).
Proof.
  intros Hitem Hparts Hp Htext Hcode.
  destruct (rstrip_spec body) as (ws & Hbody & Hws & Hend).
  exists (rstrip body), ws. repeat split; auto.
  change ("\begin{Verbatim}[fontsize=\" ++ get (item_font_size d) "small"
          ++ "]" ++ [LF] ++ rstrip body ++ [LF] ++ "\end{Verbatim}" ++ [LF])
    with (ItemizeContent.verbatim_block (get (item_font_size d) "small") body).
  assert (Hfold : In (ItemizeContent.verbatim_block
                        (get (item_font_size d) "small") body)
                     (fold_left ItemizeContent.execute_item
                        (ItemizeContent.items self)
                        (append doc "\begin{itemize}[topsep=0pt]"))).
  { apply (fold_execute_item_in _ (ItemMap d)); auto.
    intros doc'. unfold ItemizeContent.execute_item. rewrite Hparts.
    cbn [get]. destruct parts as [|q parts]; [contradiction|].
    apply execute_part_code with (p := p); auto. }
  unfold ItemizeContent.execute, append in *.
  destruct (ItemizeContent.newline self); rewrite !in_app_iff; auto.
Qed.

Lemma itemize_code_part_block_witness :
  exists kept ws,
    "x = 1" ++ [LF; LF] = kept ++ ws
    /\ forallb isspace ws = true
    /\ (kept = [] \/ exists pre c, kept = pre ++ [c] /\ isspace c = false)
    /\ In ("\begin{Verbatim}[fontsize=\" ++ lit "small"
           ++ "]" ++ [LF] ++ kept ++ [LF] ++ "\end{Verbatim}" ++ [LF])
          (ItemizeContent.execute
             (ItemizeContent.mk
                [ItemMap (mkItemDict
                            (Some [mkPart None (Some ("x = 1" ++ [LF; LF]))])
                            None None None)] true) []).
Proof.
  apply (itemize_code_part_block
           (ItemizeContent.mk
              [ItemMap (mkItemDict
                          (Some [mkPart None (Some ("x = 1" ++ [LF; LF]))])
                          None None None)] true)
           [] (mkItemDict (Some [mkPart None (Some ("x = 1" ++ [LF; LF]))])
                 None None None)
           [mkPart None (Some ("x = 1" ++ [LF; LF]))]
           (mkPart None (Some ("x = 1" ++ [LF; LF]))));
    simpl; auto.
Defined.

(* ================================================================== *)
(** * The loader *)
(* ================================================================== *)

Lemma for_each_app {A S : Type} (body : S -> A -> result S) (l1 l2 : list A) :
  forall s,
    for_each body (l1 ++ l2) s = (s' <- for_each body l1 s ;; for_each body l2 s').
Proof.
  induction l1 as [|a l1 IH]; intros s; simpl; [reflexivity|].
  destruct (body s a); simpl; auto.
Qed.

Section LoaderFacts.
Variables EmbededContent TextContent ItemizeContent' ImageContent
          VerbatimContent : Type.
Variable new_EmbededContent : dict -> result EmbededContent.
Variable new_TextContent : dict -> result TextContent.
Variable new_ItemizeContent : dict -> result ItemizeContent'.
Variable new_ImageContent : dict -> result ImageContent.
Variable new_VerbatimContent : dict -> result VerbatimContent.

Let load_record :=
  from_dic_record _ _ _ _ _ new_EmbededContent new_TextContent
    new_ItemizeContent new_ImageContent new_VerbatimContent.
Let load :=
  from_dic _ _ _ _ _ new_EmbededContent new_TextContent
    new_ItemizeContent new_ImageContent new_VerbatimContent.

(** What a record does depends on its discriminator and its other keys
    only: it appends the same nodes to any list, one node under a known
    discriminator and none under another, or it raises the same exception.
    The object of the record loses its [type] key. *)
Lemma from_dic_record_cases (type : yaml) (c : dict) :
  (exists extra,
      length extra = (if known_type type then 1 else 0)
      /\ forall (h : heap) nodes (r : nat),
           dict_pop "type" (h r) = Some (type, c) ->
           load_record (h, nodes) r = Ok (heap_set h r c, nodes ++ extra))
  \/ (exists e,
         forall (h : heap) nodes (r : nat),
           dict_pop "type" (h r) = Some (type, c) ->
           load_record (h, nodes) r = Raise e).
Proof.
  unfold known_type, load_record, from_dic_record.
  destruct (eq_str type "embed") eqn:E1.
  { destruct (new_EmbededContent c) as [n|e] eqn:N;
      [left; exists [Embeded _ _ _ _ _ n] | right; exists e];
      repeat split; intros h nodes r H; rewrite H; cbv beta iota zeta;
      rewrite E1, N; reflexivity. }
  destruct (eq_str type "paragraph") eqn:E2.
  { destruct (new_TextContent c) as [n|e] eqn:N;
      [left; exists [Text _ _ _ _ _ n] | right; exists e];
      repeat split; intros h nodes r H; rewrite H; cbv beta iota zeta;
      rewrite E1, E2, N; reflexivity. }
  destruct (eq_str type "itemize") eqn:E3.
  { destruct (new_ItemizeContent c) as [n|e] eqn:N;
      [left; exists [Itemize _ _ _ _ _ n] | right; exists e];
      repeat split; intros h nodes r H; rewrite H; cbv beta iota zeta;
      rewrite E1, E2, E3, N; reflexivity. }
  destruct (eq_str type "image") eqn:E4.
  { destruct (new_ImageContent c) as [n|e] eqn:N;
      [left; exists [Image _ _ _ _ _ n] | right; exists e];
      repeat split; intros h nodes r H; rewrite H; cbv beta iota zeta;
      rewrite E1, E2, E3, E4, N; reflexivity. }
  destruct (eq_str type "code") eqn:E5.
  { destruct (new_VerbatimContent c) as [n|e] eqn:N;
      [left; exists [Verbatim _ _ _ _ _ n] | right; exists e];
      repeat split; intros h nodes r H; rewrite H; cbv beta iota zeta;
      rewrite E1, E2, E3, E4, E5, N; reflexivity. }
  left. exists []. split; [reflexivity|].
  intros h nodes r H. rewrite H. cbv beta iota zeta.
  rewrite E1, E2, E3, E4, E5, app_nil_r. reflexivity.
Qed.

(** A record that loads had a [type] key, which its object has lost. *)
Lemma from_dic_record_ok (h : heap) nodes (r : nat) (h' : heap) nodes' :
  load_record (h, nodes) r = Ok (h', nodes') ->
  exists type c extra,
    dict_pop "type" (h r) = Some (type, c)
    /\ h' = heap_set h r c
    /\ nodes' = nodes ++ extra
    /\ length extra = (if known_type type then 1 else 0).
Proof.
  destruct (dict_pop "type" (h r)) as [[type c]|] eqn:P.
  - destruct (from_dic_record_cases type c) as [(extra & L & Hs)|(e & Hs)];
      rewrite (Hs h nodes r P); [|discriminate].
    intros H. inversion H. exists type, c, extra. auto.
  - unfold load_record, from_dic_record. rewrite P. discriminate.
Qed.

(** A record with an unknown discriminator leaves the list of nodes as it
    is and raises nothing. *)
Lemma from_dic_record_unknown (h : heap) nodes (r : nat) type rest :
  dict_pop "type" (h r) = Some (type, rest) ->
  known_type type = false ->
  load_record (h, nodes) r = Ok (heap_set h r rest, nodes).
Proof.
  intros Hpop Hknown. unfold load_record, from_dic_record. rewrite Hpop.
  unfold known_type in Hknown. rewrite !orb_false_iff in Hknown.
  destruct Hknown as [[[[-> ->] ->] ->] ->]. reflexivity.
Qed.

(** [d.pop(key)] leaves no [key] in the mapping. *)
Lemma dict_get_popped (key : str) (d : dict) v rest :
  dict_pop key d = Some (v, rest) -> dict_get key rest = None.
Proof.
  unfold dict_pop. destruct (dict_get key d); [|discriminate].
  intros H. inversion H. clear.
  induction d as [|[k w] d IH]; simpl; [reflexivity|].
  destruct (str_eqb k key) eqn:E; simpl; [exact IH|]. rewrite E. exact IH.
Qed.

(** Loading the records [l] changes no object outside [l] and gives no
    object a [type] key. *)
Lemma for_each_load_heap (l : list nat) :
  forall (h : heap) nodes (h' : heap) nodes',
    for_each load_record l (h, nodes) = Ok (h', nodes') ->
    (forall i, ~ In i l -> h' i = h i)
    /\ (forall i, dict_get "type" (h i) = None ->
                  dict_get "type" (h' i) = None).
Proof.
  induction l as [|r l IH]; intros h nodes h' nodes' H; cbn [for_each] in H.
  - inversion H. auto.
  - destruct (load_record (h, nodes) r) as [[h1 nodes1]|] eqn:E;
      [|discriminate].
    cbn [bind] in H. apply IH in H. destruct H as [Hout Hnone].
    apply from_dic_record_ok in E.
    destruct E as (type & c & extra & P & -> & _ & _).
    split; intros i Hi.
    + rewrite Hout by (intros Hin; apply Hi; right; exact Hin).
      unfold heap_set. destruct (Nat.eqb_spec i r) as [->|]; [|reflexivity].
      exfalso. apply Hi. left. reflexivity.
    + apply Hnone. unfold heap_set. destruct (Nat.eqb_spec i r) as [->|];
        [|exact Hi].
      exact (dict_get_popped _ _ _ _ P).
Qed.

(** A record whose object has no [type] key stops the loader. *)
Lemma for_each_load_popped (l : list nat) :
  forall (h : heap) nodes (r : nat) st,
    In r l -> dict_get "type" (h r) = None ->
    for_each load_record l (h, nodes) <> Ok st.
Proof.
  induction l as [|a l IH]; intros h nodes r st Hin Hnone H; [destruct Hin|].
  cbn [for_each] in H.
  destruct (load_record (h, nodes) a) as [[h1 nodes1]|] eqn:E;
    [|discriminate].
  cbn [bind] in H. apply from_dic_record_ok in E.
  destruct E as (type & c & extra & P & -> & _ & _).
  destruct (Nat.eq_dec a r) as [->|Hne].
  - unfold dict_pop in P. rewrite Hnone in P. discriminate.
  - destruct Hin as [Heq|Hin]; [contradiction|].
    apply (IH _ _ r st Hin) in H; [exact H|].
    unfold heap_set. destruct (Nat.eqb_spec r a) as [->|]; [contradiction|].
    exact Hnone.
Qed.

(** The nodes of the records [l] depend on the objects of [l] only. *)
Lemma for_each_load_agree (l : list nat) :
  forall (h1 h2 : heap) nodes,
    (forall r, In r l -> h1 r = h2 r) ->
    (st <- for_each load_record l (h1, nodes) ;; Ok (snd st))
    = (st <- for_each load_record l (h2, nodes) ;; Ok (snd st)).
Proof.
  induction l as [|a l IH]; intros h1 h2 nodes Hag; [reflexivity|].
  cbn [for_each].
  assert (Ha : h1 a = h2 a) by (apply Hag; left; reflexivity).
  destruct (dict_pop "type" (h2 a)) as [[type c]|] eqn:P2.
  - assert (P1 : dict_pop "type" (h1 a) = Some (type, c))
      by (rewrite Ha; exact P2).
    destruct (from_dic_record_cases type c) as [(extra & _ & Hs)|(e & Hs)];
      rewrite (Hs h1 nodes a P1), (Hs h2 nodes a P2); [|reflexivity].
    cbn [bind]. apply IH. intros r Hr. unfold heap_set.
    destruct (Nat.eqb r a); [reflexivity|]. apply Hag. right. exact Hr.
  - unfold load_record, from_dic_record. rewrite Ha, P2. reflexivity.
Qed.

(** C7 (amended). A content record whose discriminator is none of [embed],
    [paragraph], [itemize], [image] and [code], and whose mapping object
    occurs nowhere else in the content list, is skipped: handling it raises
    nothing and appends no node, and the loader returns what it returns for
    the same file without the record. *)
Theorem from_dic_skips_unknown_type
    (title label : option str) (h : heap) (before after : list nat)
    (r : nat) type rest :
  dict_pop "type" (h r) = Some (type, rest) ->
  known_type type = false ->
  ~ In r before ->
  ~ In r after ->
  (forall (h' : heap) nodes,
      h' r = h r ->
      load_record (h', nodes) r = Ok (heap_set h' r rest, nodes))
  /\ load (mkContentFile title label h (Some (before ++ r :: after)))
     = load (mkContentFile title label h (Some (before ++ after))).
Proof.
  intros Hpop Hknown Hbefore Hafter. split.
  - intros h' nodes E. apply from_dic_record_unknown with type; [|exact Hknown].
    rewrite E. exact Hpop.
  - unfold load, from_dic.
    cbn [file_content file_objects file_title file_label].
    fold load_record. rewrite !for_each_app.
    destruct (for_each load_record before (h, [])) as [[h' nodes]|e] eqn:E;
      [|reflexivity].
    cbn [bind for_each].
    destruct (for_each_load_heap _ _ _ _ _ E) as [Hout _].
    rewrite (from_dic_record_unknown h' nodes r type rest)
      by (rewrite ?Hout; auto).
    cbn [bind].
    assert (Hag : forall i, In i after -> heap_set h' r rest i = h' i).
    { intros i Hi. unfold heap_set.
      destruct (Nat.eqb_spec i r) as [->|]; [contradiction|reflexivity]. }
    apply (for_each_load_agree after _ _ nodes) in Hag.
    destruct (for_each load_record after (heap_set h' r rest, nodes))
      as [[ha na]|ea];
      destruct (for_each load_record after (h', nodes)) as [[hb nb]|eb];
      cbn [bind snd] in Hag |- *; congruence.
Qed.
End LoaderFacts.

(** A mapping with the discriminator [table] that the content list holds
    twice (a YAML alias of an anchored record) is not skipped: [pop] took
    the key out of the object at its first occurrence, so the second raises
    [KeyError], while the file with one occurrence loads, with no node. *)
Lemma from_dic_aliased_record_raises :
  let new (_ : dict) : result unit := Ok tt in
  let table : dict := [(lit "type", YStr "table")] in
  known_type (YStr "table") = false
  /\ from_dic _ _ _ _ _ new new new new new
       (mkContentFile None None (objects [table]) (Some ([] ++ 0 :: [0])))
     = Raise (KeyError "type")
  /\ from_dic _ _ _ _ _ new new new new new
       (mkContentFile None None (objects [table]) (Some ([] ++ [0])))
     = Ok (mkDocumentContent _ _ _ _ _ None None []).
Proof. cbv zeta. repeat split. Qed.

Lemma from_dic_skips_unknown_type_witness :
  let new (_ : dict) : result unit := Ok tt in
  let paragraph : dict := [(lit "type", YStr "paragraph"); (lit "text", YStr "a")] in
  let table : dict := [(lit "type", YStr "table"); (lit "rows", YInt 3)] in
  let code : dict := [(lit "text", YStr "x"); (lit "type", YStr "code")] in
  from_dic _ _ _ _ _ new new new new new
    (mkContentFile None None (objects [paragraph; table; code])
       (Some ([0] ++ 1 :: [2])))
  = from_dic _ _ _ _ _ new new new new new
      (mkContentFile None None (objects [paragraph; table; code])
         (Some ([0] ++ [2]))).
Proof.
  cbv zeta.
  apply (from_dic_skips_unknown_type unit unit unit unit unit
           (fun _ => Ok tt) (fun _ => Ok tt) (fun _ => Ok tt)
           (fun _ => Ok tt) (fun _ => Ok tt) None None
           (objects
              [[(lit "type", YStr "paragraph"); (lit "text", YStr "a")];
               [(lit "type", YStr "table"); (lit "rows", YInt 3)];
               [(lit "text", YStr "x"); (lit "type", YStr "code")]])
           [0] [2] 1 (YStr "table") [(lit "rows", YInt 3)]);
    try reflexivity; simpl; intros [H|[]]; discriminate H.
Defined.

(* ================================================================== *)
(** * Revision history, version and date *)
(* ================================================================== *)

(** The last entry of a history written [revs ++ [rev]], as the models read
    it. *)
Lemma history_last (h revs : list RevisionEntry.t) (rev : RevisionEntry.t) :
  h = revs ++ [rev] ->
  exists first others, h = first :: others /\ last others first = rev.
Proof.
  intros ->. destruct revs as [|first revs]; simpl.
  - exists rev, []. auto.
  - exists first, (revs ++ [rev]). split; [reflexivity|].
    apply last_last.
Qed.

Lemma fold_append_map {A : Type} (f : A -> str) (l : list A) :
  forall doc : Document,
    fold_left (fun doc a => append doc (f a)) l doc = doc ++ map f l.
Proof.
  induction l as [|a l IH]; intros doc; simpl.
  - now rewrite app_nil_r.
  - rewrite IH. unfold append. rewrite <- app_assoc. reflexivity.
Qed.

(** The rows of one entry: the main row with the first description line,
    then one continuation row per further line. *)
Lemma render_entry_rows (doc : Document) (version date first : str)
    (rest : list str) :
  RevisionEntry.render_entry doc
    (RevisionEntry.mk version date (first :: rest))
  = Ok (doc
        ++ (version ++ " & " ++ date ++ " & " ++ normalize_text first ++ " \\")
        :: map (fun desc => "& & " ++ normalize_text desc ++ " \\") rest).
Proof.
  unfold RevisionEntry.render_entry. cbn [RevisionEntry.description
    RevisionEntry.version RevisionEntry.date]. f_equal.
  rewrite (fold_append_map (fun desc => "& & " ++ normalize_text desc ++ " \\")).
  unfold append. rewrite <- app_assoc. reflexivity.
Qed.

(** An entry without description lines makes the table raise
    [IndexError]. *)
Lemma render_empty_description (doc : Document) (version date : str) :
  RevisionEntry.render_entry doc (RevisionEntry.mk version date [])
  = Raise IndexError
  /\ RevisionEntry.render doc [RevisionEntry.mk version date []]
     = Raise IndexError.
Proof. split; reflexivity. Qed.

(** C9. The history [("1.0","2024-01-01",["init"]),
    ("1.1","2024-02-01",["fix a","fix b"])] is rendered as a table with
    exactly three data rows between the rule and the end of the table; the
    last two come from the entry of version 1.1 and the second of them has
    empty version and date cells.  In general an entry gives one main row
    with its first description line and one continuation row per further
    line. *)
Theorem render_two_revisions :
  let r10 := RevisionEntry.mk "1.0" "2024-01-01" [lit "init"] in
  let r11 := RevisionEntry.mk "1.1" "2024-02-01" [lit "fix a"; lit "fix b"] in
  RevisionEntry.render [] [r10; r11]
  = Ok [lit "\vspace{1em}";
        [LF];
        lit "\begin{center}\textit{Revision History}\end{center}";
        [LF];
        lit "\begin{center}";
        lit "\small";
        lit "\renewcommand{\arraystretch}{1.75}";
        lit "\begin{tabular}{@{}rll@{}}";
        lit "\textit{Version} & \textit{Date} & \textit{Description} \\";
        lit "\hline";
        lit "1.0 & 2024-01-01 & init \\";
        lit "1.1 & 2024-02-01 & fix a \\";
        lit "& & fix b \\";
        lit "\end{tabular}";
        lit "\end{center}";
        [LF];
        lit "\newpage"]
  /\ for_each RevisionEntry.render_entry [r10; r11] []
     = Ok [lit "1.0 & 2024-01-01 & init \\";
           lit "1.1 & 2024-02-01 & fix a \\";
           lit "& & fix b \\"]
  /\ RevisionEntry.render_entry [] r11
     = Ok [lit "1.1 & 2024-02-01 & fix a \\"; lit "& & fix b \\"]
  /\ (forall (doc : Document) (version date first : str) (rest : list str),
        RevisionEntry.render_entry doc
          (RevisionEntry.mk version date (first :: rest))
        = Ok (doc
              ++ (version ++ " & " ++ date ++ " & "
                  ++ normalize_text first ++ " \\")
              :: map (fun desc => "& & " ++ normalize_text desc ++ " \\")
                   rest)).
Proof.
  cbv zeta. split; [vm_compute; reflexivity|].
  split; [vm_compute; reflexivity|].
  split; [vm_compute; reflexivity|].
  exact render_entry_rows.
Qed.

Section DatetimeFacts.
Variable datetime : Type.
Variable strptime : str -> str -> option datetime.
Variable strftime : datetime -> str -> str.

Import DocumentConfig.

(** C8. With a non-empty revision history the version is that of the last
    entry, and the date and the date field of the title are computed from
    the date of the last entry alone; with an empty history the version is
    [0.1.0], the date is the [\today] marker and no revision table is
    emitted. *)
Theorem version_and_date_from_last_entry (self : DocumentConfig.t) :
  (forall revs rev,
      revision_history self = revs ++ [rev] ->
      version self = RevisionEntry.version rev
      /\ latest_date datetime strptime strftime self
         = match strptime (RevisionEntry.date rev) "%Y-%m-%d" with
           | Some dt => Ok (strftime dt "%B %d, %Y")
           | None => Raise ValueError
           end
      /\ date_content datetime strptime strftime self
         = match strptime (RevisionEntry.date rev) "%Y-%m-%d" with
           | Some dt =>
               Ok ("{\large \textit{" ++ affiliation self
                   ++ "}}\\[2em]\textit{" ++ strftime dt "%B %d, %Y"
                   ++ "}\\[0.5em]\textit{Version "
                   ++ RevisionEntry.version rev ++ "}")
           | None => Raise ValueError
           end)
  /\ (revision_history self = [] ->
      version self = "0.1.0"
      /\ latest_date datetime strptime strftime self = Ok (lit "\today")
      /\ date_content datetime strptime strftime self
         = Ok ("{\large \textit{" ++ affiliation self
               ++ "}}\\[2em]\textit{\today}\\[0.5em]\textit{Version 0.1.0}")
      /\ forall doc,
           RevisionEntry.render doc (revision_history self) = Ok doc).
Proof.
  split.
  - intros revs rev H.
    destruct (history_last _ _ _ H) as (first & others & Hh & Hlast).
    unfold date_content, latest_date, version. rewrite Hh, Hlast.
    cbv zeta.
    destruct (strptime (RevisionEntry.date rev) "%Y-%m-%d"); auto.
  - intros H. unfold date_content, latest_date, version. rewrite H.
    repeat split.
Qed.

End DatetimeFacts.

Lemma version_and_date_from_last_entry_witness :
  let r10 := RevisionEntry.mk "1.0" "2024-01-01" [lit "init"] in
  let r11 := RevisionEntry.mk "1.1" "2024-02-01" [lit "fix a"; lit "fix b"] in
  (DocumentConfig.version (example_config [r10; r11]) = "1.1"
   /\ DocumentConfig.latest_date _ CPython.strptime CPython.strftime
        (example_config [r10; r11]) = Ok (lit "February 01, 2024")
   /\ DocumentConfig.date_content _ CPython.strptime CPython.strftime
        (example_config [r10; r11])
      = Ok (lit "{\large \textit{Example Org}}\\[2em]\textit{February 01, 2024}\\[0.5em]\textit{Version 1.1}"))
  /\ (DocumentConfig.version (example_config []) = "0.1.0"
      /\ DocumentConfig.latest_date _ CPython.strptime CPython.strftime
           (example_config []) = Ok (lit "\today")
      /\ RevisionEntry.render [] [] = Ok []).
Proof.
  cbv zeta.
  pose proof (version_and_date_from_last_entry _ CPython.strptime
                CPython.strftime
                (example_config
                   [RevisionEntry.mk "1.0" "2024-01-01" [lit "init"];
                    RevisionEntry.mk "1.1" "2024-02-01"
                      [lit "fix a"; lit "fix b"]])) as [H _].
  pose proof (version_and_date_from_last_entry _ CPython.strptime
                CPython.strftime (example_config [])) as [_ H0].
  specialize (H [RevisionEntry.mk "1.0" "2024-01-01" [lit "init"]]
                (RevisionEntry.mk "1.1" "2024-02-01"
                   [lit "fix a"; lit "fix b"]) eq_refl).
  specialize (H0 eq_refl).
  destruct H as (Hv & Hd & Hc). destruct H0 as (Hv0 & Hd0 & _ & Hr).
  split; [split; [exact Hv | split; [exact Hd | exact Hc]]|].
  split; [exact Hv0 | split; [exact Hd0 | exact (Hr [])]].
Defined.

(** What the library accepts for [%Y-%m-%d], and what it gives back. *)
Example latest_date_examples :
  map (fun date : string =>
         DocumentConfig.latest_date _ CPython.strptime CPython.strftime
           (example_config [RevisionEntry.mk "1.0" date [lit "init"]]))
      ["2024-02-01"; "2024-12-31"; "2024-02-29"; "2024-1-5";
       "2023-02-29"; "2024-13-01"; "24-02-01"; "2024-02-01 "; "Feb 1, 2024"]
    %string
  = [Ok (lit "February 01, 2024"); Ok (lit "December 31, 2024");
     Ok (lit "February 29, 2024"); Ok (lit "January 05, 2024");
     Raise ValueError; Raise ValueError; Raise ValueError; Raise ValueError;
     Raise ValueError].
Proof. vm_compute. reflexivity. Qed.

(* ================================================================== *)
(** * Escaping *)
(* ================================================================== *)

(** Replacing one character is a character-wise substitution. *)
Lemma str_replace_char (c : ascii) (new text : str) :
  str_replace [c] new text
  = flat_map (fun x => if Ascii.eqb c x then new else [x]) text.
Proof.
  unfold str_replace.
  assert (H : forall n s, length s <= n ->
    snd (scan (fun (_ : unit) s0 =>
                 match strip_prefix [c] s0 with
                 | Some rest => Some (tt, new, rest)
                 | None => None
                 end) n tt s)
    = flat_map (fun x => if Ascii.eqb c x then new else [x]) s).
  { induction n as [|n IH]; intros s Hs.
    - destruct s; [reflexivity | simpl in Hs; lia].
    - destruct s as [|x s]; [reflexivity|]. simpl in Hs. simpl.
      destruct (Ascii.eqb c x).
      + specialize (IH s ltac:(lia)).
        destruct (scan _ n tt s) as [u r]. simpl in *. now rewrite IH.
      + specialize (IH s ltac:(lia)).
        destruct (scan _ n tt s) as [u r]. simpl in *. now rewrite IH. }
  apply H. reflexivity.
Qed.

Lemma flat_map_flat_map {A B C : Type} (f : B -> list C) (g : A -> list B)
    (l : list A) :
  flat_map f (flat_map g l) = flat_map (fun x => flat_map f (g x)) l.
Proof.
  induction l as [|a l IH]; simpl; [reflexivity|].
  rewrite flat_map_app, IH. reflexivity.
Qed.

(** Every reserved character gets one backslash in front and every other
    character, the backslash included, is kept: the five replacements do not
    touch what an earlier one has written. *)
Lemma escape_latex_flat_map (text : str) :
  _escape_latex text = flat_map escape_char text.
Proof.
  unfold _escape_latex.
  change (lit "#") with ["#"%char]. change (lit "$") with ["$"%char].
  change (lit "_") with ["_"%char]. change (lit "&") with ["&"%char].
  change (lit "%") with ["%"%char].
  rewrite !str_replace_char, !flat_map_flat_map.
  apply flat_map_ext. intros c.
  destruct c as [[] [] [] [] [] [] [] []]; reflexivity.
Qed.

Lemma escape_latex_app (a b : str) :
  _escape_latex (a ++ b) = _escape_latex a ++ _escape_latex b.
Proof. rewrite !escape_latex_flat_map. apply flat_map_app. Qed.

(** An escaped text never starts with a reserved character. *)
Lemma escaped_head (text : str) (c : ascii) (rest : str) :
  flat_map escape_char text = c :: rest -> reserved c = false.
Proof.
  destruct text as [|x text]; [discriminate|]. simpl. unfold escape_char.
  destruct (reserved x) eqn:E; simpl; intros H; inversion H; subst; auto.
Qed.

Lemma escape_char_injective (text1 : str) :
  forall text2,
    flat_map escape_char text1 = flat_map escape_char text2 -> text1 = text2.
Proof.
  induction text1 as [|x xs IH]; intros [|y ys] H; simpl in H.
  - reflexivity.
  - unfold escape_char at 1 in H. destruct (reserved y); discriminate.
  - unfold escape_char at 1 in H. destruct (reserved x); discriminate.
  - pose proof (escaped_head xs) as Hxs. pose proof (escaped_head ys) as Hys.
    pose proof (IH ys) as IHys.
    remember (flat_map escape_char xs) as fx.
    remember (flat_map escape_char ys) as fy.
    clear Heqfx Heqfy IH. unfold escape_char in H.
    destruct (reserved x) eqn:Ex, (reserved y) eqn:Ey; simpl in H;
      inversion H; subst.
    + f_equal. auto.
    + specialize (Hys x fx eq_refl). congruence.
    + specialize (Hxs y fy eq_refl). congruence.
    + f_equal. auto.
Qed.

(** X7. Escaping loses nothing: two texts with the same escaped form are the
    same text. *)
Theorem escape_latex_injective (text1 text2 : str) :
  _escape_latex text1 = _escape_latex text2 -> text1 = text2.
Proof.
  rewrite !escape_latex_flat_map. apply escape_char_injective.
Qed.

Lemma escape_latex_injective_witness :
  lit "a_b" = lit "a_b".
Proof.
  apply (escape_latex_injective "a_b" "a_b"). reflexivity.
Defined.

(* ================================================================== *)
(** * Scanning a text in pieces *)
(* ================================================================== *)

Lemma scan_app_no_match {A : Type}
    (try_at : A -> str -> option (A * str * str)) (a : A) (pre s : str)
    (n : nat) :
  (forall pre1 pre2, pre = pre1 ++ pre2 -> pre2 <> [] ->
                     try_at a (pre2 ++ s) = None) ->
  scan try_at (length pre + n) a (pre ++ s)
  = let '(a', r) := scan try_at n a s in (a', pre ++ r).
Proof.
  induction pre as [|c pre IH]; intros H.
  - simpl. destruct (scan try_at n a s). reflexivity.
  - pose proof (H [] (c :: pre) eq_refl ltac:(discriminate)) as H0.
    simpl in *. rewrite H0, IH.
    + destruct (scan try_at n a s). reflexivity.
    + intros pre1 pre2 -> Hne. apply (H (c :: pre1) pre2); auto.
Qed.

Lemma rmatch_lit_absent c (p : pattern) (t s : str) :
  forallb (fun x => negb (Ascii.eqb x c)) t = true -> t <> [] ->
  rmatch (Lit c :: p) [] (t ++ s) = None.
Proof.
  destruct t as [|x t]; [congruence|]. simpl. intros H _.
  apply andb_true_iff in H as [H _]. apply negb_true_iff in H.
  now rewrite H.
Qed.

(** [re.sub] copies a prefix in which the first character of the pattern
    does not occur. *)
Lemma re_sub_with_skip {A : Type} c (p : pattern)
    (repl : A -> Match -> A * str) (a : A) (pre s : str) :
  forallb (fun x => negb (Ascii.eqb x c)) pre = true ->
  re_sub_with (Lit c :: p) repl a (pre ++ s)
  = let '(a', r) := re_sub_with (Lit c :: p) repl a s in (a', pre ++ r).
Proof.
  intros H. unfold re_sub_with at 1. rewrite length_app.
  rewrite scan_app_no_match; [reflexivity|].
  intros pre1 pre2 -> Hne. unfold re_match.
  rewrite rmatch_lit_absent; auto.
  rewrite forallb_app in H. now apply andb_true_iff in H as [_ H].
Qed.

(** [re.sub] replaces a match at the start of the text and goes on behind
    it. *)
Lemma re_sub_with_match {A : Type} c (p : pattern)
    (repl : A -> Match -> A * str) (a : A) (m s : str) gs :
  rmatch (Lit c :: p) [] (m ++ s) = Some (gs, s) ->
  re_sub_with (Lit c :: p) repl a (m ++ s)
  = let '(a1, out) := repl a (mkMatch m gs) in
    let '(a2, r) := re_sub_with (Lit c :: p) repl a1 s in
    (a2, out ++ r).
Proof.
  intros H. pose proof (rmatch_lit_shrinks _ _ _ _ _ H) as Hlen.
  simpl in Hlen. rewrite length_app in Hlen.
  destruct m as [|x m]; [simpl in Hlen; lia|].
  unfold re_sub_with at 1. simpl length. cbn [scan app].
  change (x :: m ++ s) with ((x :: m) ++ s).
  unfold re_match at 1. rewrite H.
  replace (firstn (length ((x :: m) ++ s) - length s) ((x :: m) ++ s))
    with (x :: m).
  2:{ rewrite length_app, Nat.add_sub, firstn_app, firstn_all, Nat.sub_diag.
      simpl. now rewrite app_nil_r. }
  destruct (repl a (mkMatch (x :: m) gs)) as [a1 out].
  rewrite re_sub_with_fuel by (rewrite length_app; lia).
  reflexivity.
Qed.

Lemma strip_prefix_absent c (old t s : str) :
  forallb (fun x => negb (Ascii.eqb x c)) t = true -> t <> [] ->
  strip_prefix (c :: old) (t ++ s) = None.
Proof.
  destruct t as [|x t]; [congruence|]. simpl. intros H _.
  apply andb_true_iff in H as [H _]. apply negb_true_iff in H.
  rewrite Ascii.eqb_sym, H. reflexivity.
Qed.

(** [str.replace] copies a prefix in which the first character of [old]
    does not occur, and replaces [old] where the text starts with it. *)
Lemma str_replace_skip c (old new pre s : str) :
  forallb (fun x => negb (Ascii.eqb x c)) pre = true ->
  str_replace (c :: old) new (pre ++ s)
  = pre ++ str_replace (c :: old) new s.
Proof.
  intros H. unfold str_replace. rewrite length_app.
  rewrite scan_app_no_match.
  - destruct (scan _ (length s) tt s). reflexivity.
  - intros pre1 pre2 -> Hne. rewrite strip_prefix_absent; auto.
    rewrite forallb_app in H. now apply andb_true_iff in H as [_ H].
Qed.

Lemma str_replace_match c (old new s : str) :
  str_replace (c :: old) new ((c :: old) ++ s)
  = new ++ str_replace (c :: old) new s.
Proof.
  rewrite <- (str_replace_fuel c old new ((c :: old) ++ s)
                (S (length (old ++ s)))) by (simpl; lia).
  cbn [scan app]. 
  change (c :: old ++ s) with ((c :: old) ++ s).
  rewrite strip_prefix_app.
  pose proof (str_replace_fuel c old new s (length (old ++ s))) as H.
  rewrite length_app in *. specialize (H ltac:(lia)).
  destruct (scan _ (length old + length s) tt s) as [u r].
  simpl in *. now rewrite H.
Qed.

Lemma str_replace_absent c (old new s : str) :
  forallb (fun x => negb (Ascii.eqb x c)) s = true ->
  str_replace (c :: old) new s = s.
Proof.
  intros H. rewrite <- (app_nil_r s) at 1.
  rewrite str_replace_skip by exact H. now rewrite app_nil_r.
Qed.

(** A text between two pieces that hold no [\x00]: the placeholder is
    replaced and the pieces are copied. *)
Lemma str_replace_token (token new pre post : str) :
  match token with NUL' :: _ => Ascii.eqb NUL' NUL | [] => false end = true ->
  forallb (fun x => negb (Ascii.eqb x NUL)) pre = true ->
  forallb (fun x => negb (Ascii.eqb x NUL)) post = true ->
  str_replace token new (pre ++ token ++ post) = pre ++ new ++ post.
Proof.
  destruct token as [|c token]; [discriminate|]. intros Hc Hpre Hpost.
  apply Ascii.eqb_eq in Hc. subst c.
  rewrite str_replace_skip by exact Hpre.
  rewrite str_replace_match, str_replace_absent by exact Hpost.
  reflexivity.
Qed.

(* ================================================================== *)
(** * Normalising prose *)
(* ================================================================== *)

Lemma forallb_escaped (P : ascii -> bool) (text : str) :
  P "\"%char = true -> forallb P text = true ->
  forallb P (_escape_latex text) = true.
Proof.
  intros Hb H. rewrite escape_latex_flat_map.
  induction text as [|c text IH]; [reflexivity|].
  simpl in *. apply andb_true_iff in H as [Hc H].
  rewrite forallb_app, (IH H), andb_true_r.
  unfold escape_char. destruct (reserved c); simpl; now rewrite ?Hb, Hc.
Qed.

Lemma apply_formatting_unmarked (text : str) :
  forallb (fun c => negb (Ascii.eqb c "*")) text = true ->
  forallb (fun c => negb (Ascii.eqb c "`")) text = true ->
  _apply_formatting text = text.
Proof.
  intros Hstar Htick. unfold _apply_formatting.
  rewrite (re_sub_no_match CODE_RE) by now apply re_search_absent.
  rewrite (re_sub_no_match BOLD_RE) by now apply re_search_absent.
  apply re_sub_no_match. now apply re_search_absent.
Qed.

(** A text in which neither the link nor the macro pattern matches, and
    which holds no asterisk and no backtick, is escaped and nothing else. *)
Lemma normalize_text_plain (text : str) :
  re_search LINK_RE text = false ->
  re_search CMD_RE text = false ->
  forallb (fun c => negb (Ascii.eqb c "*")) text = true ->
  forallb (fun c => negb (Ascii.eqb c "`")) text = true ->
  normalize_text text = _escape_latex text.
Proof.
  intros Hlink Hcmd Hstar Htick. unfold normalize_text.
  rewrite re_sub_with_no_match by exact Hlink.
  rewrite re_sub_with_no_match by exact Hcmd.
  rewrite apply_formatting_unmarked; auto using forallb_escaped.
Qed.

Lemma unmarked_forallb (text : str) :
  forallb unmarked text = true ->
  forallb (fun c => negb (Ascii.eqb c "[")) text = true
  /\ forallb (fun c => negb (Ascii.eqb c "\")) text = true
  /\ forallb (fun c => negb (Ascii.eqb c "*")) text = true
  /\ forallb (fun c => negb (Ascii.eqb c "`")) text = true.
Proof.
  induction text as [|c text IH]; simpl; [auto|].
  unfold unmarked at 1. rewrite !andb_true_iff.
  intros [[[[H1 H2] H3] H4] H]. destruct (IH H) as (I1 & I2 & I3 & I4).
  rewrite H1, H2, H3, H4, I1, I2, I3, I4. auto.
Qed.

Lemma forallb_impl (P Q : ascii -> bool) (text : str) :
  (forall c, P c = true -> Q c = true) ->
  forallb P text = true -> forallb Q text = true.
Proof.
  intros HPQ. induction text as [|c text IH]; simpl; [auto|].
  rewrite !andb_true_iff. intros [Hc H]. auto.
Qed.

Lemma prose_forallb (text : str) :
  forallb prose text = true ->
  forallb unmarked text = true
  /\ forallb (fun c => negb (Ascii.eqb c NUL)) text = true.
Proof.
  intros H. split; revert H; apply forallb_impl; intros c;
    unfold prose, unmarked; rewrite !andb_true_iff; tauto.
Qed.

(** Text without opening bracket, backslash, asterisk and backtick goes
    through the escaping stage alone. *)
Lemma normalize_text_unmarked (text : str) :
  forallb unmarked text = true ->
  normalize_text text = flat_map escape_char text.
Proof.
  intros H. destruct (unmarked_forallb text H) as (Hbr & Hbs & Hstar & Htick).
  rewrite normalize_text_plain; auto.
  - apply escape_latex_flat_map.
  - unfold LINK_RE. now apply re_search_absent.
  - unfold CMD_RE. now apply re_search_absent.
Qed.

(** X8. Text that holds no opening bracket, backslash, asterisk or backtick
    is normalised to its escaped form, character by character: each reserved
    character gets one backslash and nothing else changes. *)
Theorem normalize_text_escapes_prose (text : str) :
  forallb unmarked text = true ->
  normalize_text text = flat_map escape_char text
  /\ normalize_text text = _escape_latex text.
Proof.
  intros H. rewrite escape_latex_flat_map. split; now apply normalize_text_unmarked.
Qed.

Lemma normalize_text_escapes_prose_witness :
  normalize_text "R&D: 100% of $5 #1_a" = "R\&D: 100\% of \$5 \#1\_a".
Proof.
  apply (proj1 (normalize_text_escapes_prose "R&D: 100% of $5 #1_a" eq_refl)).
Defined.

(** In an escaped text every backslash that the text did not hold stands
    before a reserved character, so no macro starts at it. *)
Lemma re_search_cmd_escaped (text : str) :
  forallb (fun c => negb (Ascii.eqb c "\")) text = true ->
  re_search CMD_RE (flat_map escape_char text) = false.
Proof.
  induction text as [|c text IH]; intros H; [reflexivity|].
  simpl in H. apply andb_true_iff in H as [Hc H]. specialize (IH H).
  apply negb_true_iff in Hc. simpl flat_map. unfold escape_char at 1.
  destruct (reserved c) eqn:Er.
  - assert (Hl : is_letter c = false).
    { unfold reserved in Er.
      repeat (apply orb_true_iff in Er as [Er | Er]);
        apply Ascii.eqb_eq in Er; subst c; reflexivity. }
    cbn [app].
    change (re_search CMD_RE ("\"%char :: c :: flat_map escape_char text))
      with (match rmatch CMD_RE []
                    ("\"%char :: c :: flat_map escape_char text) with
            | Some _ => true
            | None =>
                match rmatch CMD_RE [] (c :: flat_map escape_char text) with
                | Some _ => true
                | None => re_search CMD_RE (flat_map escape_char text)
                end
            end).
    assert (H1 : rmatch CMD_RE []
                   ("\"%char :: c :: flat_map escape_char text) = None).
    { unfold CMD_RE. cbn [rmatch]. rewrite Ascii.eqb_refl.
      rewrite rep_eq. cbn [length Nat.leb in_class]. rewrite Hl. reflexivity. }
    assert (H2 : rmatch CMD_RE [] (c :: flat_map escape_char text) = None).
    { unfold CMD_RE. cbn [rmatch]. now rewrite Hc. }
    now rewrite H1, H2.
  - cbn [app].
    change (re_search CMD_RE (c :: flat_map escape_char text))
      with (match rmatch CMD_RE [] (c :: flat_map escape_char text) with
            | Some _ => true
            | None => re_search CMD_RE (flat_map escape_char text)
            end).
    unfold CMD_RE at 1. cbn [rmatch]. now rewrite Hc.
Qed.

Lemma length_escaped (text : str) :
  length (flat_map escape_char text)
  = length text + length (filter reserved text).
Proof.
  induction text as [|c text IH]; [reflexivity|].
  simpl. rewrite length_app, IH. unfold escape_char.
  destruct (reserved c); simpl; lia.
Qed.

Lemma filter_reserved_escaped (text : str) :
  filter reserved (flat_map escape_char text) = filter reserved text.
Proof.
  induction text as [|c text IH]; [reflexivity|].
  simpl. rewrite filter_app, IH. unfold escape_char.
  destruct (reserved c) eqn:E; simpl; now rewrite E.
Qed.

(** X3. Escaping works character by character: every reserved character
    [# $ _ & %] gets one backslash in front and every other character, the
    backslash included, is kept, so that the escaped form of a concatenation
    is the concatenation of the escaped forms and the text grows by the number
    of its reserved characters. *)
Theorem escape_latex_by_character (a b : str) :
  _escape_latex a = flat_map escape_char a
  /\ _escape_latex (a ++ b) = _escape_latex a ++ _escape_latex b
  /\ length (_escape_latex a) = length a + length (filter reserved a).
Proof.
  split; [apply escape_latex_flat_map|].
  split; [apply escape_latex_app|].
  rewrite escape_latex_flat_map. apply length_escaped.
Qed.

(** X9. Normalising prose twice escapes it twice: every reserved character
    of the text ends up behind two more characters, so the second pass
    changes the result as soon as the text holds a reserved character. *)
Theorem normalize_text_twice_escapes_twice (text : str) :
  forallb unmarked text = true ->
  normalize_text (normalize_text text)
  = flat_map escape_char (flat_map escape_char text)
  /\ length (normalize_text (normalize_text text))
     = length (normalize_text text) + length (filter reserved text)
  /\ (existsb reserved text = true ->
      normalize_text (normalize_text text) <> normalize_text text).
Proof.
  intros H. destruct (unmarked_forallb text H) as (Hbr & Hbs & Hstar & Htick).
  rewrite (normalize_text_unmarked text H).
  assert (Htwice : normalize_text (flat_map escape_char text)
                   = flat_map escape_char (flat_map escape_char text)).
  { rewrite normalize_text_plain.
    - apply escape_latex_flat_map.
    - unfold LINK_RE. apply re_search_absent.
      rewrite <- escape_latex_flat_map. now apply forallb_escaped.
    - now apply re_search_cmd_escaped.
    - rewrite <- escape_latex_flat_map. now apply forallb_escaped.
    - rewrite <- escape_latex_flat_map. now apply forallb_escaped. }
  rewrite Htwice. split; [reflexivity|].
  assert (Hlen : length (flat_map escape_char (flat_map escape_char text))
                 = length (flat_map escape_char text)
                   + length (filter reserved text)).
  { now rewrite length_escaped, filter_reserved_escaped. }
  split; [exact Hlen|].
  intros Hex Heq. rewrite Heq in Hlen.
  assert (Hpos : 0 < length (filter reserved text)).
  { clear - Hex. induction text as [|c text IH]; [discriminate|].
    simpl in *. destruct (reserved c); simpl in *; [lia | auto]. }
  lia.
Qed.

Lemma normalize_text_twice_escapes_twice_witness :
  normalize_text (normalize_text "a_b & c") = "a\\_b \\& c"
  /\ length (normalize_text (normalize_text "a_b & c")) = 9 + 2.
Proof.
  destruct (normalize_text_twice_escapes_twice "a_b & c" eq_refl)
    as (H1 & H2 & _).
  split; [exact H1 | exact H2].
Defined.

(* ================================================================== *)
(** * Links and macros inside prose *)
(* ================================================================== *)

Lemma token_escaped_untouched :
  flat_map escape_char (link_token 0) = link_token 0
  /\ flat_map escape_char (cmd_token 0) = cmd_token 0
  /\ forallb unmarked (link_token 0) = true
  /\ forallb unmarked (cmd_token 0) = true.
Proof. repeat split; reflexivity. Qed.

(** What the stages behind the scans do to a text made of prose around one
    placeholder: the prose is escaped and the placeholder is kept. *)
Lemma escape_and_format_around (token pre post : str) :
  flat_map escape_char token = token ->
  forallb unmarked token = true ->
  forallb unmarked pre = true -> forallb unmarked post = true ->
  _apply_formatting (_escape_latex (pre ++ token ++ post))
  = _escape_latex pre ++ token ++ _escape_latex post.
Proof.
  intros Htok Hunm Hpre Hpost.
  rewrite !escape_latex_app.
  rewrite (escape_latex_flat_map token), Htok.
  destruct (unmarked_forallb _ Hunm) as (_ & _ & Ts & Tt).
  destruct (unmarked_forallb _ Hpre) as (_ & _ & Ps & Pt).
  destruct (unmarked_forallb _ Hpost) as (_ & _ & Qs & Qt).
  apply apply_formatting_unmarked; rewrite !forallb_app.
  - rewrite Ts, !forallb_escaped; auto.
  - rewrite Tt, !forallb_escaped; auto.
Qed.

(** A link between two pieces without bracket, backslash, asterisk and
    backtick: the link is captured, the pieces are escaped, and the
    placeholder is then looked for in the whole text. *)
Lemma normalize_text_link_between (pre display url post : str) :
  forallb unmarked pre = true -> forallb unmarked post = true ->
  display <> [] -> url <> [] ->
  forallb (fun c => negb (Ascii.eqb c "]")) display = true ->
  forallb (fun c => negb (Ascii.eqb c ")")) url = true ->
  normalize_text (pre ++ "[" ++ display ++ "](" ++ url ++ ")" ++ post)
  = str_replace (link_token 0)
      (href url (_apply_formatting (_escape_latex display)))
      (_escape_latex pre ++ link_token 0 ++ _escape_latex post).
Proof.
  intros Upre Upost Hd Hu Hdisplay Hurl.
  destruct (unmarked_forallb _ Upre) as (Bpre & Spre & _ & _).
  destruct (unmarked_forallb _ Upost) as (Bpost & Spost & _ & _).
  unfold normalize_text.
  (* the link scan *)
  unfold LINK_RE at 1. rewrite re_sub_with_skip by exact Bpre.
  replace ("[" ++ display ++ "](" ++ url ++ ")" ++ post)
    with (("[" ++ display ++ "](" ++ url ++ ")") ++ post).
  2:{ simpl. f_equal. rewrite <- !app_assoc. simpl. rewrite <- !app_assoc.
      reflexivity. }
  assert (Hm : rmatch LINK_RE []
                 (("[" ++ display ++ "](" ++ url ++ ")") ++ post)
               = Some ([display; url], post)).
  { pose proof (rmatch_link display url post Hd Hu Hdisplay Hurl) as H.
    rewrite <- H. f_equal. simpl. f_equal. rewrite <- !app_assoc.
    simpl. rewrite <- !app_assoc. reflexivity. }
  unfold LINK_RE in Hm. rewrite (re_sub_with_match _ _ _ _ _ _ _ Hm).
  change (_capture_link [] {| group0 := _; captures := [display; url] |})
    with ([(display, url)], link_token 0).
  cbv beta iota.
  fold LINK_RE. rewrite (re_sub_with_no_match LINK_RE)
    by (unfold LINK_RE; now apply re_search_absent).
  cbv beta iota.
  (* the macro scan *)
  rewrite (re_sub_with_no_match CMD_RE).
  2:{ unfold CMD_RE. apply re_search_absent.
      rewrite !forallb_app, Spre, Spost. reflexivity. }
  (* escaping and formatting *)
  destruct token_escaped_untouched as (El & _ & Ul & _).
  rewrite escape_and_format_around by assumption.
  reflexivity.
Qed.

(** X1. A link between two pieces of prose becomes a hyperlink between the
    escaped pieces: the URL is used as written and the display text is
    escaped and formatted. *)
Theorem normalize_text_link_in_prose (pre display url post : str) :
  forallb prose pre = true -> forallb prose post = true ->
  display <> [] -> url <> [] ->
  forallb (fun c => negb (Ascii.eqb c "]")) display = true ->
  forallb (fun c => negb (Ascii.eqb c ")")) url = true ->
  normalize_text (pre ++ "[" ++ display ++ "](" ++ url ++ ")" ++ post)
  = flat_map escape_char pre
    ++ "\href{" ++ url ++ "}{" ++ _apply_formatting (_escape_latex display)
    ++ "}" ++ flat_map escape_char post.
Proof.
  intros Hpre Hpost Hd Hu Hdisplay Hurl.
  destruct (prose_forallb _ Hpre) as (Upre & Npre).
  destruct (prose_forallb _ Hpost) as (Upost & Npost).
  rewrite normalize_text_link_between by assumption.
  rewrite str_replace_token; auto using forallb_escaped.
  rewrite !escape_latex_flat_map. unfold href.
  rewrite <- !app_assoc. reflexivity.
Qed.

Lemma normalize_text_link_in_prose_witness :
  normalize_text "See [the a_b docs](https://example.com/a_b) for 100%."
  = "See \href{https://example.com/a_b}{the a\_b docs} for 100\%.".
Proof.
  apply (normalize_text_link_in_prose "See " "the a_b docs"
           "https://example.com/a_b" " for 100%.");
    first [discriminate | reflexivity].
Defined.

(** X10. A text that already holds the placeholder of the first link is not
    protected: the placeholder in the text is replaced by the hyperlink like
    the one that stands for the link. *)
Theorem normalize_text_placeholder_in_text (display url : str) :
  display <> [] -> url <> [] ->
  forallb (fun c => negb (Ascii.eqb c "]")) display = true ->
  forallb (fun c => negb (Ascii.eqb c ")")) url = true ->
  normalize_text
    (link_token 0 ++ "[" ++ display ++ "](" ++ url ++ ")")
  = ("\href{" ++ url ++ "}{" ++ _apply_formatting (_escape_latex display)
     ++ "}")
    ++ "\href{" ++ url ++ "}{" ++ _apply_formatting (_escape_latex display)
    ++ "}".
Proof.
  intros Hd Hu Hdisplay Hurl.
  pose proof (normalize_text_link_between (link_token 0) display url []
                eq_refl eq_refl Hd Hu Hdisplay Hurl) as H.
  rewrite app_nil_r in H. rewrite H.
  destruct token_escaped_untouched as (El & _).
  rewrite (escape_latex_flat_map (link_token 0)), El.
  change (_escape_latex []) with (@nil ascii). rewrite app_nil_r.
  change (link_token 0) with (NUL :: "LINK" ++ str_of_nat 0 ++ [NUL]).
  rewrite str_replace_match.
  rewrite str_replace_whole by discriminate.
  reflexivity.
Qed.

Lemma normalize_text_placeholder_in_text_witness :
  normalize_text (link_token 0 ++ "[a](b)") = "\href{b}{a}\href{b}{a}".
Proof.
  apply (normalize_text_placeholder_in_text "a" "b");
    first [discriminate | reflexivity].
Defined.

Lemma macro_app (name arg post : str) :
  ("\" ++ name ++ "{" ++ arg ++ "}") ++ post
  = "\" ++ name ++ "{" ++ arg ++ "}" ++ post.
Proof.
  simpl. f_equal. repeat (rewrite <- app_assoc; simpl). reflexivity.
Qed.

(** X2. A raw macro between two pieces of prose is kept exactly as written,
    between the escaped pieces, when its argument holds no opening
    bracket. *)
Theorem normalize_text_macro_in_prose (pre name arg post : str) :
  forallb prose pre = true -> forallb prose post = true ->
  name <> [] ->
  forallb is_letter name = true ->
  forallb (fun c => negb (Ascii.eqb c "}")) arg = true ->
  forallb (fun c => negb (Ascii.eqb c "[")) arg = true ->
  normalize_text (pre ++ "\" ++ name ++ "{" ++ arg ++ "}" ++ post)
  = flat_map escape_char pre
    ++ "\" ++ name ++ "{" ++ arg ++ "}" ++ flat_map escape_char post.
Proof.
  intros Hpre Hpost Hne Hname Harg Hbr.
  destruct (prose_forallb _ Hpre) as (Upre & Npre).
  destruct (prose_forallb _ Hpost) as (Upost & Npost).
  destruct (unmarked_forallb _ Upre) as (Bpre & Spre & _ & _).
  destruct (unmarked_forallb _ Upost) as (Bpost & Spost & _ & _).
  unfold normalize_text.
  (* the link scan finds nothing *)
  rewrite (re_sub_with_no_match LINK_RE).
  2:{ unfold LINK_RE. apply re_search_absent.
      rewrite !forallb_app, Bpre, Bpost, Hbr,
        (is_letter_not_bracket name Hname). reflexivity. }
  (* the macro scan *)
  unfold CMD_RE at 1. rewrite re_sub_with_skip by exact Spre.
  set (macro := "\" ++ name ++ "{" ++ arg ++ "}").
  assert (Hm : rmatch CMD_RE [] (macro ++ post) = Some ([], post)).
  { unfold macro. rewrite macro_app.
    exact (rmatch_cmd name arg post Hne Hname Harg). }
  rewrite <- (macro_app name arg post). fold macro.
  unfold CMD_RE in Hm. rewrite (re_sub_with_match _ _ _ _ _ _ _ Hm).
  change (_capture_cmd [] {| group0 := macro; captures := [] |})
    with ([macro], cmd_token 0).
  cbv beta iota.
  fold CMD_RE. rewrite (re_sub_with_no_match CMD_RE)
    by (unfold CMD_RE; now apply re_search_absent).
  cbv beta iota.
  (* escaping, formatting and restoring *)
  destruct token_escaped_untouched as (_ & Ec & _ & Uc).
  rewrite escape_and_format_around by assumption.
  change (restore_links [] ?x) with x.
  change (restore_cmds [macro]
            (_escape_latex pre ++ cmd_token 0 ++ _escape_latex post))
    with (str_replace (cmd_token 0) macro
            (_escape_latex pre ++ cmd_token 0 ++ _escape_latex post)).
  rewrite str_replace_token; auto using forallb_escaped.
  rewrite !escape_latex_flat_map. unfold macro.
  rewrite <- !app_assoc. reflexivity.
Qed.

Lemma normalize_text_macro_in_prose_witness :
  normalize_text "Figure \ref{fig:one_a} shows 50% of #1."
  = "Figure \ref{fig:one_a} shows 50\% of \#1.".
Proof.
  apply (normalize_text_macro_in_prose "Figure " "ref" "fig:one_a"
           " shows 50% of #1.");
    first [discriminate | reflexivity].
Defined.

(* ================================================================== *)
(** * Rendering content *)
(* ================================================================== *)

Lemma append_if_app (field : option str) (chunk : str -> str)
    (doc : Document) :
  append_if field chunk doc = doc ++ append_if field chunk [].
Proof.
  unfold append_if, append. destruct field as [[|c s]|];
    now rewrite ?app_nil_r.
Qed.

Lemma append_app (doc extra : Document) (chunk : str) :
  append (doc ++ extra) chunk = doc ++ append extra chunk.
Proof. unfold append. now rewrite app_assoc. Qed.

Lemma append_if_app2 (field : option str) (chunk : str -> str)
    (doc extra : Document) :
  append_if field chunk (doc ++ extra) = doc ++ append_if field chunk extra.
Proof.
  unfold append_if. destruct field as [[|c s]|]; auto using append_app.
Qed.

Lemma text_execute_app (self : TextContent.t) (doc : Document) :
  TextContent.execute self doc = doc ++ TextContent.execute self [].
Proof.
  unfold TextContent.execute.
  destruct (TextContent.newline self); rewrite <- (app_nil_r doc) at 1;
    now rewrite !append_if_app2, !append_app.
Qed.

Lemma verbatim_execute_app (self : VerbatimContent.t) (doc : Document) :
  VerbatimContent.execute self doc = doc ++ VerbatimContent.execute self [].
Proof.
  unfold VerbatimContent.execute.
  destruct (VerbatimContent.newline self); rewrite <- (app_nil_r doc) at 1;
    now rewrite !append_app.
Qed.

Lemma image_execute_app (self : ImageContent.t) (doc : Document) :
  ImageContent.execute self doc = doc ++ ImageContent.execute self [].
Proof.
  unfold ImageContent.execute.
  rewrite <- (app_nil_r doc) at 1.
  now rewrite !append_app, append_if_app2, !append_app.
Qed.

Lemma execute_part_app font_size (parts : list Part) :
  forall (doc extra : Document) (first : bool),
    fold_left (ItemizeContent.execute_part font_size) parts
      (doc ++ extra, first)
    = (doc ++ fst (fold_left (ItemizeContent.execute_part font_size) parts
                     (extra, first)),
       snd (fold_left (ItemizeContent.execute_part font_size) parts
              (extra, first))).
Proof.
  induction parts as [|p parts IH]; intros doc extra first; [reflexivity|].
  cbn [fold_left]. unfold ItemizeContent.execute_part at 2 4 6.
  destruct (part_text p) as [text|]; [|destruct (part_code p) as [code|]];
    rewrite ?append_app; apply IH.
Qed.

Lemma execute_item_app (item : Item) (doc extra : Document) :
  ItemizeContent.execute_item (doc ++ extra) item
  = doc ++ ItemizeContent.execute_item extra item.
Proof.
  destruct item as [s | d]; unfold ItemizeContent.execute_item.
  - apply append_app.
  - destruct (get (item_parts d) []) as [|p parts].
    + rewrite append_app. destruct (get (item_code d) "");
        now rewrite ?append_app.
    + now rewrite execute_part_app.
Qed.

Lemma fold_execute_item_app (l : list Item) :
  forall doc extra,
    fold_left ItemizeContent.execute_item l (doc ++ extra)
    = doc ++ fold_left ItemizeContent.execute_item l extra.
Proof.
  induction l as [|item l IH]; intros doc extra; [reflexivity|].
  simpl. now rewrite execute_item_app, IH.
Qed.

Lemma itemize_execute_app (self : ItemizeContent.t) (doc : Document) :
  ItemizeContent.execute self doc = doc ++ ItemizeContent.execute self [].
Proof.
  unfold ItemizeContent.execute.
  destruct (ItemizeContent.newline self); rewrite <- (app_nil_r doc) at 1;
    now rewrite append_app, fold_execute_item_app, !append_app.
Qed.

Lemma run_each_app {A S : Type} (body : S -> A -> run S) (l1 l2 : list A) :
  forall s,
    run_each body (l1 ++ l2) s
    = match run_each body l1 s with
      | Returns s' => run_each body l2 s'
      | Raises e => Raises e
      | OutOfFuel => OutOfFuel
      end.
Proof.
  induction l1 as [|a l1 IH]; intros s; simpl; [reflexivity|].
  destruct (body s a); auto.
Qed.

Lemma run_each_prefixed {A : Type} (body : Document -> A -> run Document)
    (l : list A) :
  (forall a, In a l ->
     forall doc extra,
       body (doc ++ extra) a = run_map (app doc) (body extra a)) ->
  forall doc extra,
    run_each body l (doc ++ extra) = run_map (app doc) (run_each body l extra).
Proof.
  induction l as [|a l IH]; intros H doc extra; [reflexivity|].
  simpl. rewrite (H a (or_introl eq_refl)).
  destruct (body extra a) as [extra'| |]; simpl; auto.
  apply IH. intros a' Ha'. apply H. now right.
Qed.

Section RenderingFacts.
Variable new_EmbededContent : dict -> result EmbededContent.t.
Variable new_TextContent : dict -> result TextContent.t.
Variable new_ItemizeContent : dict -> result ItemizeContent.t.
Variable new_ImageContent : dict -> result ImageContent.t.
Variable new_VerbatimContent : dict -> result VerbatimContent.t.
Variable files : str -> option ContentFile.

Let render :=
  DocumentContent_execute new_EmbededContent new_TextContent
    new_ItemizeContent new_ImageContent new_VerbatimContent files.
Let fetch :=
  open_content new_EmbededContent new_TextContent new_ItemizeContent
    new_ImageContent new_VerbatimContent files.

Lemma render_app (fuel : nat) :
  forall (self : Content) (doc extra : Document),
    render fuel self (doc ++ extra) = run_map (app doc) (render fuel self extra).
Proof.
  induction fuel as [|fuel IH]; intros self doc extra;
    unfold render; cbn [DocumentContent_execute];
    rewrite !append_if_app2; apply run_each_prefixed;
    intros [c|c|c|c|c] _ doc' extra'; simpl;
    try reflexivity;
    try (f_equal;
         first [ rewrite text_execute_app, (text_execute_app c extra')
               | rewrite itemize_execute_app, (itemize_execute_app c extra')
               | rewrite image_execute_app, (image_execute_app c extra')
               | rewrite verbatim_execute_app,
                   (verbatim_execute_app c extra') ];
         now rewrite app_assoc).
  destruct (open_content _ _ _ _ _ _ _) as [included| |];
    [apply IH | reflexivity | reflexivity].
Qed.

(** X11. Rendering a content file only appends to the document, and what it
    appends (or the error it raises) does not depend on what the document
    already holds. *)
Theorem render_only_appends (fuel : nat) (self : Content) (doc : Document) :
  render fuel self doc = run_map (app doc) (render fuel self []).
Proof.
  rewrite <- (app_nil_r doc) at 1. apply render_app.
Qed.
End RenderingFacts.

(* ================================================================== *)
(** * Included files *)
(* ================================================================== *)

Lemma run_each_more {A S : Type} (body1 body2 : S -> A -> run S)
    (l : list A) :
  (forall s a r, body1 s a = r -> r <> OutOfFuel -> body2 s a = r) ->
  forall s r,
    run_each body1 l s = r -> r <> OutOfFuel -> run_each body2 l s = r.
Proof.
  intros H. induction l as [|a l IH]; intros s r Hr Hne; [exact Hr|].
  simpl in *. destruct (body1 s a) as [s'| e |] eqn:E.
  - rewrite (H s a (Returns s') E) by discriminate. auto.
  - rewrite (H s a (Raises e) E) by discriminate. exact Hr.
  - congruence.
Qed.

Section IncludeFacts.
Variable new_EmbededContent : dict -> result EmbededContent.t.
Variable new_TextContent : dict -> result TextContent.t.
Variable new_ItemizeContent : dict -> result ItemizeContent.t.
Variable new_ImageContent : dict -> result ImageContent.t.
Variable new_VerbatimContent : dict -> result VerbatimContent.t.
Variable files : str -> option ContentFile.

Let render :=
  DocumentContent_execute new_EmbededContent new_TextContent
    new_ItemizeContent new_ImageContent new_VerbatimContent files.
Let fetch :=
  open_content new_EmbededContent new_TextContent new_ItemizeContent
    new_ImageContent new_VerbatimContent files.

(** The body of the loop of [DocumentContent.execute]. *)
Let step (fuel : nat) (doc : Document) (cnt : Node) : run Document :=
  match cnt with
  | Text _ _ _ _ _ c => Returns (TextContent.execute c doc)
  | Itemize _ _ _ _ _ c => Returns (ItemizeContent.execute c doc)
  | Image _ _ _ _ _ c => Returns (ImageContent.execute c doc)
  | Verbatim _ _ _ _ _ c => Returns (VerbatimContent.execute c doc)
  | Embeded _ _ _ _ _ c =>
      match fuel with
      | 0 => OutOfFuel
      | S fuel' =>
          match fetch (EmbededContent.src c) with
          | Returns included => render fuel' included doc
          | Raises e => Raises e
          | OutOfFuel => OutOfFuel
          end
      end
  end.

Lemma render_eq (fuel : nat) (self : Content) (doc : Document) :
  render fuel self doc
  = run_each (step fuel) (content _ _ _ _ _ self)
      (append_if (label _ _ _ _ _ self) (fun x => "\label{" ++ x ++ "}")
         (append_if (title _ _ _ _ _ self)
            (fun x => "\section{" ++ normalize_text x ++ "}") doc)).
Proof. destruct fuel; reflexivity. Qed.

(** A result obtained within some depth of includes is the result within
    any greater depth. *)
Lemma render_more_fuel (fuel : nat) :
  forall (self : Content) (doc : Document) r,
    render fuel self doc = r -> r <> OutOfFuel -> render (S fuel) self doc = r.
Proof.
  induction fuel as [|fuel IH]; intros self doc r Hr Hne;
    rewrite render_eq in *; revert Hr Hne; apply run_each_more;
    intros s [c|c|c|c|c] r' Hr' Hne'; simpl in *; auto; try congruence.
  destruct (fetch (EmbededContent.src c)) as [included| |]; auto.
Qed.

Lemma render_fuel_le (fuel fuel' : nat) (self : Content) (doc : Document) r :
  render fuel self doc = r -> r <> OutOfFuel -> fuel <= fuel' ->
  render fuel' self doc = r.
Proof.
  intros Hr Hne Hle. induction Hle; auto using render_more_fuel.
Qed.

(** Records that are not includes render within any depth. *)
Lemma run_each_no_embed (fuel : nat) (l : list Node) :
  forallb (fun n => negb (is_embed n)) l = true ->
  forall doc, exists doc', run_each (step fuel) l doc = Returns doc'.
Proof.
  induction l as [|n l IH]; intros H doc; [now exists doc|].
  simpl in H. apply andb_true_iff in H as [Hn H].
  destruct n as [c|c|c|c|c]; try discriminate; simpl; apply IH, H.
Qed.

(** X12. A file that includes itself is never rendered: whatever the bound
    on the depth of includes, rendering it exceeds the bound. *)
Theorem render_cycle_never_returns
    (name : str) (data : ContentFile) (included : Content)
    (before after : list Node) :
  files name = Some data ->
  from_dic _ _ _ _ _ new_EmbededContent new_TextContent new_ItemizeContent
    new_ImageContent new_VerbatimContent data = Ok included ->
  content _ _ _ _ _ included
    = before ++ Embeded _ _ _ _ _ (EmbededContent.mk name) :: after ->
  forallb (fun n => negb (is_embed n)) before = true ->
  forall fuel doc, render fuel included doc = OutOfFuel.
Proof.
  intros Hfile Hload Hcontent Hbefore.
  assert (Hfetch : fetch name = Returns included).
  { unfold fetch, open_content. now rewrite Hfile, Hload. }
  induction fuel as [|fuel IH]; intros doc; rewrite render_eq, Hcontent,
    run_each_app.
  - destruct (run_each_no_embed 0 before Hbefore
                (append_if (label _ _ _ _ _ included)
                   (fun x => "\label{" ++ x ++ "}")
                   (append_if (title _ _ _ _ _ included)
                      (fun x => "\section{" ++ normalize_text x ++ "}") doc)))
      as [doc' ->].
    reflexivity.
  - destruct (run_each_no_embed (S fuel) before Hbefore
                (append_if (label _ _ _ _ _ included)
                   (fun x => "\label{" ++ x ++ "}")
                   (append_if (title _ _ _ _ _ included)
                      (fun x => "\section{" ++ normalize_text x ++ "}") doc)))
      as [doc' ->].
    simpl. rewrite Hfetch, IH. reflexivity.
Qed.

(** X13. An include of a file that does not exist aborts the rendering with
    [FileNotFoundError], whatever follows it. *)
Theorem render_missing_include
    (self : Content) (c : EmbededContent.t) (before after : list Node) :
  content _ _ _ _ _ self = before ++ Embeded _ _ _ _ _ c :: after ->
  forallb (fun n => negb (is_embed n)) before = true ->
  files (EmbededContent.src c) = None ->
  forall fuel doc,
    render (S fuel) self doc = Raises (FileNotFoundError (EmbededContent.src c)).
Proof.
  intros Hcontent Hbefore Hfile fuel doc.
  rewrite render_eq, Hcontent, run_each_app.
  destruct (run_each_no_embed (S fuel) before Hbefore
              (append_if (label _ _ _ _ _ self)
                 (fun x => "\label{" ++ x ++ "}")
                 (append_if (title _ _ _ _ _ self)
                    (fun x => "\section{" ++ normalize_text x ++ "}") doc)))
    as [doc' ->].
  simpl. unfold fetch, open_content. rewrite Hfile. reflexivity.
Qed.

(** X14. An include of a file without title and label renders like its
    records pasted in its place. *)
Theorem render_include_inlines
    (self : Content) (c : EmbededContent.t) (included : Content)
    (before after : list Node) (fuel : nat) (doc result : Document) :
  content _ _ _ _ _ self = before ++ Embeded _ _ _ _ _ c :: after ->
  fetch (EmbededContent.src c) = Returns included ->
  title _ _ _ _ _ included = None ->
  label _ _ _ _ _ included = None ->
  render (S fuel) self doc = Returns result ->
  render (S fuel)
    (mkDocumentContent _ _ _ _ _ (title _ _ _ _ _ self)
       (label _ _ _ _ _ self)
       (before ++ content _ _ _ _ _ included ++ after)) doc
  = Returns result.
Proof.
  intros Hcontent Hfetch Htitle Hlabel.
  rewrite !render_eq, Hcontent. cbn [content title label].
  rewrite !run_each_app.
  destruct (run_each (step (S fuel)) before _) as [doc'| |]; auto.
  cbn [run_each].
  change (step (S fuel) doc' (Embeded _ _ _ _ _ c))
    with (match fetch (EmbededContent.src c) with
          | Returns included => render fuel included doc'
          | Raises e => Raises e
          | OutOfFuel => OutOfFuel
          end).
  rewrite Hfetch.
  destruct (render fuel included doc') as [doc''| |] eqn:E;
    try discriminate.
  apply render_more_fuel in E; [|discriminate].
  rewrite render_eq, Htitle, Hlabel in E. cbn [append_if] in E.
  now rewrite run_each_app, E.
Qed.
End IncludeFacts.

Lemma render_cycle_never_returns_witness :
  example_open "loop.yaml"
  = Returns
      (mkDocumentContent _ _ _ _ _ None None
         [Text _ _ _ _ _ (TextContent.mk "a" None None None None true);
          Embeded _ _ _ _ _ (EmbededContent.mk "loop.yaml")])
  /\ example_render 7
       (mkDocumentContent _ _ _ _ _ None None
          [Text _ _ _ _ _ (TextContent.mk "a" None None None None true);
           Embeded _ _ _ _ _ (EmbededContent.mk "loop.yaml")]) []
     = OutOfFuel.
Proof.
  split; [reflexivity|].
  apply (render_cycle_never_returns example_new_EmbededContent
           example_new_TextContent (fun _ => Raise ValidationError)
           (fun _ => Raise ValidationError) (fun _ => Raise ValidationError)
           example_files "loop.yaml"
           (mkContentFile None None
              (objects
                 [[(lit "type", YStr "paragraph"); (lit "text", YStr "a")];
                  [(lit "type", YStr "embed");
                   (lit "src", YStr "loop.yaml")]])
              (Some [0; 1]))
           _ [Text _ _ _ _ _ (TextContent.mk "a" None None None None true)]
           []);
    reflexivity.
Defined.

Lemma render_missing_include_witness :
  match example_open "broken.yaml" with
  | Returns broken =>
      example_render 3 broken [] = Raises (FileNotFoundError "gone.yaml")
  | _ => False
  end.
Proof.
  apply (render_missing_include example_new_EmbededContent
           example_new_TextContent (fun _ => Raise ValidationError)
           (fun _ => Raise ValidationError) (fun _ => Raise ValidationError)
           example_files _ (EmbededContent.mk "gone.yaml") [] []);
    reflexivity.
Defined.

Lemma render_include_inlines_witness :
  example_render 1
    (mkDocumentContent _ _ _ _ _ None None
       [Text _ _ _ _ _ (TextContent.mk "a_b" None None None None true);
        Text _ _ _ _ _ (TextContent.mk "50%" None None None None true);
        Text _ _ _ _ _ (TextContent.mk "end" None None None None true)]) []
  = Returns [lit "a\_b"; lit "\par\vspace{\baselineskip}";
             lit "50\%"; lit "\par\vspace{\baselineskip}";
             lit "end"; lit "\par\vspace{\baselineskip}"].
Proof.
  apply (render_include_inlines example_new_EmbededContent
           example_new_TextContent (fun _ => Raise ValidationError)
           (fun _ => Raise ValidationError) (fun _ => Raise ValidationError)
           example_files
           (mkDocumentContent _ _ _ _ _ None None
              [Text _ _ _ _ _ (TextContent.mk "a_b" None None None None true);
               Embeded _ _ _ _ _ (EmbededContent.mk "part.yaml");
               Text _ _ _ _ _ (TextContent.mk "end" None None None None true)])
           (EmbededContent.mk "part.yaml")
           (mkDocumentContent _ _ _ _ _ None None
              [Text _ _ _ _ _ (TextContent.mk "50%" None None None None true)])
           [Text _ _ _ _ _ (TextContent.mk "a_b" None None None None true)]
           [Text _ _ _ _ _ (TextContent.mk "end" None None None None true)]
           0 []);
    reflexivity.
Defined.

(* ================================================================== *)
(** * What the loader returns *)
(* ================================================================== *)

Section LoaderResults.
Variables EmbededContent TextContent ItemizeContent' ImageContent
          VerbatimContent : Type.
Variable new_EmbededContent : dict -> result EmbededContent.
Variable new_TextContent : dict -> result TextContent.
Variable new_ItemizeContent : dict -> result ItemizeContent'.
Variable new_ImageContent : dict -> result ImageContent.
Variable new_VerbatimContent : dict -> result VerbatimContent.

Let load_record :=
  from_dic_record _ _ _ _ _ new_EmbededContent new_TextContent
    new_ItemizeContent new_ImageContent new_VerbatimContent.
Let load :=
  from_dic _ _ _ _ _ new_EmbededContent new_TextContent
    new_ItemizeContent new_ImageContent new_VerbatimContent.

Lemma from_dic_record_length (h : heap) nodes (r : nat) (h' : heap) nodes' :
  load_record (h, nodes) r = Ok (h', nodes') ->
  length nodes' = length nodes + (if has_known_type (h r) then 1 else 0).
Proof.
  intros H. apply from_dic_record_ok in H.
  destruct H as (type & c & extra & P & _ & -> & L).
  unfold has_known_type. unfold dict_pop in P.
  destruct (dict_get "type" (h r)); [|discriminate].
  inversion P; subst. rewrite length_app. lia.
Qed.

(** The records that load are counted on the objects as the file gave
    them: no object is met a second time. *)
Lemma for_each_load_length (records : list nat) :
  forall (h h' : heap) nodes nodes',
    for_each load_record records (h, nodes) = Ok (h', nodes') ->
    length nodes'
    = length nodes
      + length (filter (fun r => has_known_type (h r)) records).
Proof.
  induction records as [|r records IH]; intros h h' nodes nodes' H;
    cbn [for_each] in H.
  - inversion H. simpl. lia.
  - destruct (load_record (h, nodes) r) as [[h1 nodes1]|] eqn:E;
      [|discriminate].
    cbn [bind] in H.
    assert (Hr : ~ In r records).
    { intros Hin. apply from_dic_record_ok in E.
      destruct E as (type & c & extra & P & -> & _ & _).
      eapply for_each_load_popped; [exact Hin| |exact H].
      unfold heap_set. rewrite Nat.eqb_refl.
      exact (dict_get_popped _ _ _ _ P). }
    apply IH in H. pose proof (from_dic_record_length _ _ _ _ _ E) as L.
    apply from_dic_record_ok in E.
    destruct E as (type & c & extra & _ & -> & _ & _).
    rewrite (filter_ext_in (fun i => has_known_type (heap_set h r c i))
               (fun i => has_known_type (h i))) in H.
    + cbn [filter]. destruct (has_known_type (h r)); cbn [length]; lia.
    + intros i Hi. unfold heap_set.
      destruct (Nat.eqb_spec i r) as [->|]; [contradiction|reflexivity].
Qed.

(** X15. When the loader returns, the file had a [content] key, the title
    and the label are those of the file, and there is one node for each
    record of a known type, the other records leaving none. *)
Theorem from_dic_one_node_per_known_record (data : ContentFile) d :
  load data = Ok d ->
  exists records,
    file_content data = Some records
    /\ length (content _ _ _ _ _ d)
       = length (filter (fun r => has_known_type (file_objects data r))
                   records)
    /\ title _ _ _ _ _ d = file_title data
    /\ label _ _ _ _ _ d = file_label data.
Proof.
  unfold load, from_dic. destruct (file_content data) as [records|];
    [|discriminate].
  fold load_record.
  destruct (for_each load_record records (file_objects data, []))
    as [[h nodes]|] eqn:E; [|discriminate].
  simpl. intros H. inversion H; subst. exists records.
  apply for_each_load_length in E. simpl in *. auto.
Qed.

(** X6. A file without [content] key raises [KeyError], the default of
    [data.get] notwithstanding, and so does a record without [type] key,
    once the records before it are loaded. *)
Theorem from_dic_missing_key
    (title label : option str) (h : heap) (before after : list nat)
    (r : nat) d :
  load (mkContentFile title label h (Some before)) = Ok d ->
  dict_get "type" (h r) = None ->
  load (mkContentFile title label h None) = Raise (KeyError "content")
  /\ load (mkContentFile title label h (Some (before ++ r :: after)))
     = Raise (KeyError "type").
Proof.
  intros Hbefore Htype. split; [reflexivity|].
  unfold load, from_dic in Hbefore |- *.
  cbn [file_content file_objects] in Hbefore |- *. rewrite for_each_app.
  destruct (for_each _ before (h, [])) as [[h' nodes]|] eqn:E;
    [|discriminate].
  apply for_each_load_heap in E. destruct E as [_ Hnone].
  cbn [bind for_each]. unfold from_dic_record, dict_pop.
  rewrite (Hnone r Htype). reflexivity.
Qed.
End LoaderResults.

Lemma from_dic_one_node_per_known_record_witness :
  exists records,
    Some [0; 1; 2] = Some records
    /\ 2 = length
             (filter
                (fun r =>
                   has_known_type
                     (objects
                        [[(lit "type", YStr "paragraph");
                          (lit "text", YStr "a")];
                         [(lit "type", YStr "table")];
                         [(lit "type", YStr "embed");
                          (lit "src", YStr "part.yaml")]] r))
                records)
    /\ @None str = None /\ @None str = None.
Proof.
  apply (from_dic_one_node_per_known_record _ _ _ _ _
           example_new_EmbededContent example_new_TextContent
           (fun _ => @Raise unit ValidationError)
           (fun _ => @Raise unit ValidationError)
           (fun _ => @Raise unit ValidationError)
           (mkContentFile None None
              (objects
                 [[(lit "type", YStr "paragraph"); (lit "text", YStr "a")];
                  [(lit "type", YStr "table")];
                  [(lit "type", YStr "embed");
                   (lit "src", YStr "part.yaml")]])
              (Some [0; 1; 2]))
           (mkDocumentContent _ _ _ _ _ None None
              [Text _ _ _ _ _ (TextContent.mk "a" None None None None true);
               Embeded _ _ _ _ _ (EmbededContent.mk "part.yaml")])).
  reflexivity.
Defined.

Lemma from_dic_missing_key_witness :
  from_dic _ _ _ _ _ example_new_EmbededContent example_new_TextContent
    (fun _ => @Raise unit ValidationError)
    (fun _ => @Raise unit ValidationError)
    (fun _ => @Raise unit ValidationError)
    (mkContentFile None None
       (objects [[(lit "type", YStr "paragraph")];
                 [(lit "text", YStr "no type")]])
       None)
  = Raise (KeyError "content")
  /\ from_dic _ _ _ _ _ example_new_EmbededContent example_new_TextContent
       (fun _ => @Raise unit ValidationError)
       (fun _ => @Raise unit ValidationError)
       (fun _ => @Raise unit ValidationError)
       (mkContentFile None None
          (objects [[(lit "type", YStr "paragraph")];
                    [(lit "text", YStr "no type")]])
          (Some ([0] ++ 1 :: [])))
     = Raise (KeyError "type").
Proof.
  apply (from_dic_missing_key _ _ _ _ _
           example_new_EmbededContent example_new_TextContent
           (fun _ => @Raise unit ValidationError)
           (fun _ => @Raise unit ValidationError)
           (fun _ => @Raise unit ValidationError)
           None None
           (objects [[(lit "type", YStr "paragraph")];
                     [(lit "text", YStr "no type")]])
           [0] [] 1
           (mkDocumentContent _ _ _ _ _ None None
              [Text _ _ _ _ _ (TextContent.mk "" None None None None true)]));
    reflexivity.
Defined.

(* ================================================================== *)
(** * The revision table *)
(* ================================================================== *)

Lemma render_entry_ok (doc : Document) (rev : RevisionEntry.t) :
  has_description rev = true ->
  exists rows,
    RevisionEntry.render_entry doc rev = Ok (doc ++ rows)
    /\ length rows = length (RevisionEntry.description rev).
Proof.
  destruct rev as [version date description]. unfold has_description. simpl.
  destruct description as [|first rest]; [discriminate|]. intros _.
  rewrite render_entry_rows. eexists. split; [reflexivity|].
  simpl. now rewrite length_map.
Qed.

Lemma for_each_render_entry_ok (revisions : list RevisionEntry.t) :
  forallb has_description revisions = true ->
  forall doc, exists rows,
    for_each RevisionEntry.render_entry revisions doc = Ok (doc ++ rows)
    /\ length rows = description_lines revisions.
Proof.
  induction revisions as [|rev revisions IH]; intros H doc.
  - exists []. now rewrite app_nil_r.
  - simpl in H. apply andb_true_iff in H as [Hrev H].
    destruct (render_entry_ok doc rev Hrev) as (rows1 & E1 & L1).
    destruct (IH H (doc ++ rows1)) as (rows2 & E2 & L2).
    exists (rows1 ++ rows2). simpl. rewrite E1. simpl. rewrite E2.
    rewrite app_assoc. split; [reflexivity|].
    unfold description_lines in *. simpl. rewrite length_app. lia.
Qed.

Lemma for_each_render_entry_raises (revisions : list RevisionEntry.t) rev :
  In rev revisions -> has_description rev = false ->
  forall doc,
    for_each RevisionEntry.render_entry revisions doc = Raise IndexError.
Proof.
  intros Hin Hrev.
  induction revisions as [|r revisions IH]; [contradiction|]. intros doc.
  simpl. destruct (has_description r) eqn:Hr.
  - destruct (render_entry_ok doc r Hr) as (rows & -> & _). simpl.
    destruct Hin as [-> | Hin]; [congruence | auto].
  - unfold RevisionEntry.render_entry. unfold has_description in Hr.
    destruct (RevisionEntry.description r); [reflexivity | discriminate].
Qed.

(** X5. The revision table raises [IndexError] as soon as one entry of the
    history has no description line. *)
Theorem render_raises_on_empty_description
    (doc : Document) (revisions : list RevisionEntry.t)
    (rev : RevisionEntry.t) :
  In rev revisions ->
  RevisionEntry.description rev = [] ->
  RevisionEntry.render doc revisions = Raise IndexError.
Proof.
  intros Hin Hrev. unfold RevisionEntry.render.
  destruct revisions as [|r revisions]; [contradiction|].
  rewrite (for_each_render_entry_raises (r :: revisions) rev); auto.
  unfold has_description. now rewrite Hrev.
Qed.

Lemma render_raises_on_empty_description_witness :
  RevisionEntry.render []
    [RevisionEntry.mk "1.0" "2024-01-01" [lit "init"];
     RevisionEntry.mk "1.1" "2024-02-01" []]
  = Raise IndexError.
Proof.
  apply (render_raises_on_empty_description [] _
           (RevisionEntry.mk "1.1" "2024-02-01" []));
    [right; left; reflexivity | reflexivity].
Defined.

(** X16. When every entry of a non-empty history has a description line, the
    table is rendered without error: it adds the ten chunks of its head, one
    row for each description line of each entry, and the four chunks of its
    end. *)
Theorem render_one_row_per_description_line
    (doc : Document) (revisions : list RevisionEntry.t) :
  revisions <> [] ->
  forallb has_description revisions = true ->
  exists table,
    RevisionEntry.render doc revisions = Ok (doc ++ table)
    /\ length table = 10 + description_lines revisions + 4.
Proof.
  intros Hne H. unfold RevisionEntry.render.
  destruct revisions as [|r revisions]; [congruence|].
  match goal with
  | |- context [for_each RevisionEntry.render_entry _ ?d] =>
      destruct (for_each_render_entry_ok (r :: revisions) H d)
        as (rows & -> & L)
  end.
  simpl bind. unfold append. rewrite <- !app_assoc. simpl.
  eexists. split; [reflexivity|].
  simpl. rewrite length_app. simpl. lia.
Qed.

Lemma render_one_row_per_description_line_witness :
  exists table,
    RevisionEntry.render [lit "\maketitle"]
      [RevisionEntry.mk "1.0" "2024-01-01" [lit "init"];
       RevisionEntry.mk "1.1" "2024-02-01" [lit "fix a"; lit "fix b"]]
    = Ok ([lit "\maketitle"] ++ table)
    /\ length table = 10 + 3 + 4.
Proof.
  apply (render_one_row_per_description_line [lit "\maketitle"]
           [RevisionEntry.mk "1.0" "2024-01-01" [lit "init"];
            RevisionEntry.mk "1.1" "2024-02-01" [lit "fix a"; lit "fix b"]]);
    [discriminate | reflexivity].
Defined.

(* ================================================================== *)
(** * Authors *)
(* ================================================================== *)

Lemma split_once_first (sep : ascii) (before after : str) :
  forallb (fun c => negb (Ascii.eqb c sep)) before = true ->
  split_once sep (before ++ sep :: after) = Some (before, after).
Proof.
  induction before as [|c before IH]; simpl.
  - now rewrite Ascii.eqb_refl.
  - intros H. apply andb_true_iff in H as [Hc H].
    apply negb_true_iff in Hc. now rewrite Hc, IH.
Qed.

Lemma split_once_absent (sep : ascii) (s : str) :
  forallb (fun c => negb (Ascii.eqb c sep)) s = true ->
  split_once sep s = None.
Proof.
  induction s as [|c s IH]; simpl; [reflexivity|].
  intros H. apply andb_true_iff in H as [Hc H].
  apply negb_true_iff in Hc. now rewrite Hc, IH.
Qed.

(** X17. An author written [name|alias] is split at the first bar: the name
    and the alias are stripped of surrounding whitespace, later bars stay in
    the alias, and a non-empty e-mail domain is added behind an [@]; an author
    without bar is kept as written, whitespace included. *)
Theorem format_author_at_first_bar
    (email_domain : option str) (name alias a : str) :
  forallb (fun c => negb (Ascii.eqb c "|")) name = true ->
  forallb (fun c => negb (Ascii.eqb c "|")) a = true ->
  format_author email_domain (name ++ "|" ++ alias)
  = "\textit{" ++ strip name ++ "} (" ++ strip alias
    ++ match email_domain with
       | Some (c :: domain) => "@" ++ c :: domain
       | _ => []
       end
    ++ ")"
  /\ format_author email_domain a = "\textit{" ++ a ++ "}".
Proof.
  intros Hname Ha. unfold format_author. split.
  - change (name ++ "|" ++ alias) with (name ++ "|"%char :: alias).
    rewrite split_once_first by exact Hname.
    destruct email_domain as [[|c domain]|]; cbv zeta;
      rewrite <- ?app_assoc; simpl; rewrite ?app_nil_r; reflexivity.
  - now rewrite split_once_absent.
Qed.

Lemma format_author_at_first_bar_witness :
  format_author (Some (lit "example.com")) " Ann Lee | ann|lee "
  = "\textit{Ann Lee} (ann|lee@example.com)"
  /\ format_author (Some (lit "example.com")) " Bob "
     = "\textit{ Bob }".
Proof.
  apply (format_author_at_first_bar (Some (lit "example.com"))
           " Ann Lee " " ann|lee " " Bob ");
    reflexivity.
Defined.

(* ================================================================== *)
(** * Assembling the document *)
(* ================================================================== *)

Lemma render_entry_app (doc extra : Document) (rev : RevisionEntry.t) :
  RevisionEntry.render_entry (doc ++ extra) rev
  = match RevisionEntry.render_entry extra rev with
    | Ok rows => Ok (doc ++ rows)
    | Raise e => Raise e
    end.
Proof.
  destruct rev as [version date [|first rest]]; [reflexivity|].
  rewrite !render_entry_rows. now rewrite <- app_assoc.
Qed.

Lemma for_each_render_entry_app (revisions : list RevisionEntry.t) :
  forall doc extra,
    for_each RevisionEntry.render_entry revisions (doc ++ extra)
    = match for_each RevisionEntry.render_entry revisions extra with
      | Ok rows => Ok (doc ++ rows)
      | Raise e => Raise e
      end.
Proof.
  induction revisions as [|rev revisions IH]; intros doc extra;
    [reflexivity|].
  simpl. rewrite render_entry_app.
  destruct (RevisionEntry.render_entry extra rev); simpl; auto.
Qed.

(** The revision table only appends to the document. *)
Lemma revision_render_app (doc : Document)
    (revisions : list RevisionEntry.t) :
  RevisionEntry.render doc revisions
  = match RevisionEntry.render [] revisions with
    | Ok table => Ok (doc ++ table)
    | Raise e => Raise e
    end.
Proof.
  unfold RevisionEntry.render.
  destruct revisions as [|rev revisions]; [now rewrite app_nil_r|].
  rewrite <- (app_nil_r doc) at 1. rewrite !append_app.
  rewrite for_each_render_entry_app.
  destruct (for_each RevisionEntry.render_entry (rev :: revisions) _);
    simpl; [|reflexivity].
  now rewrite !append_app.
Qed.

Lemma preamble_lines (lines : list str) :
  forall doc,
    fold_left
      (fun doc pre => Latex.preamble_append doc (Latex.NoEscape pre))
      lines doc
    = Latex.mk (Latex.documentclass doc) (Latex.document_options doc)
        (Latex.geometry_options doc)
        (Latex.preamble doc ++ map Latex.NoEscape lines) (Latex.body doc).
Proof.
  induction lines as [|pre lines IH]; intros doc; simpl.
  - rewrite app_nil_r. now destruct doc.
  - rewrite IH. simpl. now rewrite <- app_assoc.
Qed.

Section AssemblyFacts.
Variable datetime : Type.
Variable strptime : str -> str -> option datetime.
Variable strftime : datetime -> str -> str.
Variable new_EmbededContent : dict -> result EmbededContent.t.
Variable new_TextContent : dict -> result TextContent.t.
Variable new_ItemizeContent : dict -> result ItemizeContent.t.
Variable new_ImageContent : dict -> result ImageContent.t.
Variable new_VerbatimContent : dict -> result VerbatimContent.t.
Variable files : str -> option ContentFile.

Let assemble :=
  DocumentConfig_execute datetime strptime strftime new_EmbededContent
    new_TextContent new_ItemizeContent new_ImageContent new_VerbatimContent
    files.
Let render_files :=
  execute_files new_EmbededContent new_TextContent new_ItemizeContent
    new_ImageContent new_VerbatimContent files.

Lemma execute_files_app (fuel : nat) (names : list str)
    (body : Document) :
  render_files fuel names body
  = run_map (app body) (render_files fuel names []).
Proof.
  unfold render_files, execute_files.
  rewrite <- (app_nil_r body) at 1. apply run_each_prefixed.
  intros name _ doc extra.
  destruct (open_content _ _ _ _ _ _ name) as [content| |];
    [apply render_app | reflexivity | reflexivity].
Qed.

(** X18. A date of the last revision that does not parse aborts the
    assembly with [ValueError], whatever the content files are: none of them
    is opened. *)
Theorem assembly_aborts_on_unparsed_date
    (self : DocumentConfig.t) revs rev (fuel : nat) :
  DocumentConfig.revision_history self = revs ++ [rev] ->
  strptime (RevisionEntry.date rev) "%Y-%m-%d" = None ->
  assemble fuel self = Raises (Exception ValueError).
Proof.
  intros H Hdate.
  destruct (history_last _ _ _ H) as (first & others & Hh & Hlast).
  unfold assemble, DocumentConfig_execute, create_page_title,
    DocumentConfig.date_content, DocumentConfig.latest_date.
  rewrite Hh, Hlast. cbv zeta. rewrite Hdate. reflexivity.
Qed.

(** X19. Whenever the assembly returns, the body of the document is the
    title, the abstract (stripped and normalised) in its environment, the
    revision table, the table of contents and the rendered content files, in
    that order; the preamble is the lines of the configuration, as written,
    followed by the header line, the title definition, the title, the
    formatted authors and the date field. *)
Theorem assembly_order (self : DocumentConfig.t) (fuel : nat)
    (doc : Latex.t) :
  assemble fuel self = Returns doc ->
  exists date table contents,
    DocumentConfig.date_content datetime strptime strftime self = Ok date
    /\ RevisionEntry.render [] (DocumentConfig.revision_history self)
       = Ok table
    /\ render_files fuel (DocumentConfig.content self) [] = Returns contents
    /\ Latex.body doc
       = [lit "\maketitle"; lit "\thispagestyle{empty}";
          lit "\begin{abstract}\itshape";
          normalize_text (strip (DocumentConfig.abstract self));
          lit "\end{abstract}"]
         ++ table
         ++ [lit "\newpage"; lit "\tableofcontents"; lit "\newpage"]
         ++ contents
    /\ Latex.preamble doc
       = map Latex.NoEscape (DocumentConfig.preamble self)
         ++ [Latex.NoEscape
               ("\fancyhead[L]{\small \textit{"
                ++ DocumentConfig.title self ++ "}}");
             Latex.NoEscape maketitle_def;
             Latex.Command "title" (Latex.Plain (DocumentConfig.title self));
             Latex.Command "author"
               (Latex.Raw
                  (join " \\ "
                     (map (format_author (DocumentConfig.email_domain self))
                        (DocumentConfig.author self))));
             Latex.Command "date" (Latex.Raw date)].
Proof.
  unfold assemble, DocumentConfig_execute, create_page_title.
  rewrite preamble_lines. cbv zeta.
  destruct (DocumentConfig.date_content datetime strptime strftime self)
    as [date|]; [|discriminate].
  cbn [bind]. unfold append. cbn [Latex.body Latex.with_body
    Latex.preamble_append Latex.preamble app].
  rewrite revision_render_app.
  destruct (RevisionEntry.render [] (DocumentConfig.revision_history self))
    as [table|]; [|discriminate].
  fold render_files. rewrite execute_files_app.
  destruct (render_files fuel (DocumentConfig.content self) [])
    as [contents| |]; [|discriminate|discriminate].
  simpl. intros H. inversion H; subst. clear H.
  exists date, table, contents. repeat split; simpl.
  - rewrite <- !app_assoc. reflexivity.
  - rewrite <- !app_assoc. reflexivity.
Qed.
End AssemblyFacts.

Lemma assembly_aborts_on_unparsed_date_witness :
  DocumentConfig_execute _ CPython.strptime CPython.strftime
    example_new_EmbededContent example_new_TextContent
    (fun _ => Raise ValidationError) (fun _ => Raise ValidationError)
    (fun _ => Raise ValidationError) example_files 5
    (example_config [RevisionEntry.mk "1.0" "1 Feb 2024" [lit "init"]])
  = Raises (Exception ValueError).
Proof.
  apply (assembly_aborts_on_unparsed_date _ CPython.strptime
           CPython.strftime example_new_EmbededContent
           example_new_TextContent (fun _ => Raise ValidationError)
           (fun _ => Raise ValidationError) (fun _ => Raise ValidationError)
           example_files
           (example_config [RevisionEntry.mk "1.0" "1 Feb 2024" [lit "init"]])
           [] (RevisionEntry.mk "1.0" "1 Feb 2024" [lit "init"]) 5);
    reflexivity.
Defined.

Lemma assembly_order_witness :
  match example_assemble 1 example_document with
  | Returns doc =>
      Latex.body doc
      = [lit "\maketitle"; lit "\thispagestyle{empty}";
         lit "\begin{abstract}\itshape"; lit "An abstract.";
         lit "\end{abstract}"]
        ++ [lit "\vspace{1em}"; [LF];
            lit "\begin{center}\textit{Revision History}\end{center}"; [LF];
            lit "\begin{center}"; lit "\small";
            lit "\renewcommand{\arraystretch}{1.75}";
            lit "\begin{tabular}{@{}rll@{}}";
            lit "\textit{Version} & \textit{Date} & \textit{Description} \\";
            lit "\hline"; lit "1.0 & 2024-02-01 & init \\";
            lit "\end{tabular}"; lit "\end{center}"; [LF]; lit "\newpage"]
        ++ [lit "\newpage"; lit "\tableofcontents"; lit "\newpage"]
        ++ [lit "a\_b"; lit "\par\vspace{\baselineskip}";
            lit "50\%"; lit "\par\vspace{\baselineskip}";
            lit "end"; lit "\par\vspace{\baselineskip}"]
  | _ => False
  end.
Proof.
  pose proof (assembly_order _ CPython.strptime CPython.strftime
                example_new_EmbededContent example_new_TextContent
                (fun _ => Raise ValidationError)
                (fun _ => Raise ValidationError)
                (fun _ => Raise ValidationError) example_files
                example_document 1) as H.
  change (DocumentConfig_execute _ CPython.strptime CPython.strftime
            example_new_EmbededContent example_new_TextContent
            (fun _ => Raise ValidationError) (fun _ => Raise ValidationError)
            (fun _ => Raise ValidationError) example_files 1 example_document)
    with (example_assemble 1 example_document) in H.
  destruct (example_assemble 1 example_document) as [doc| e |] eqn:E.
  - destruct (H doc eq_refl) as (date & table & contents & _ & Ht & Hc & Hb & _).
    rewrite Hb. vm_compute in Ht. vm_compute in Hc.
    inversion Ht; inversion Hc; subst. reflexivity.
  - vm_compute in E. discriminate.
  - vm_compute in E. discriminate.
Defined.

(* ================================================================== *)
(** * What a structured list item ignores *)
(* ================================================================== *)

Lemma execute_part_shadowed font_size (p : Part) (st : Document * bool) :
  ItemizeContent.execute_part font_size st (without_shadowed_code p)
  = ItemizeContent.execute_part font_size st p.
Proof.
  unfold without_shadowed_code, ItemizeContent.execute_part.
  destruct st as [doc first]. destruct (part_text p) as [text|] eqn:E.
  - reflexivity.
  - now rewrite E.
Qed.

Lemma fold_execute_part_shadowed font_size (parts : list Part) :
  forall st,
    fold_left (ItemizeContent.execute_part font_size)
      (map without_shadowed_code parts) st
    = fold_left (ItemizeContent.execute_part font_size) parts st.
Proof.
  induction parts as [|p parts IH]; intros st; [reflexivity|].
  simpl. now rewrite execute_part_shadowed, IH.
Qed.

Lemma fold_execute_part_keyless font_size (parts : list Part) :
  forallb (fun p => match part_text p, part_code p with
                    | None, None => true
                    | _, _ => false
                    end) parts = true ->
  forall st, fold_left (ItemizeContent.execute_part font_size) parts st = st.
Proof.
  induction parts as [|p parts IH]; intros H st; [reflexivity|].
  simpl in H. apply andb_true_iff in H as [Hp H].
  cbn [fold_left]. unfold ItemizeContent.execute_part at 2.
  destruct st as [doc first].
  destruct (part_text p); [discriminate|].
  destruct (part_code p); [discriminate|]. auto.
Qed.

(** X20. In a structured list item the code of a part that also has text is
    never rendered, and the top-level [text] and [code] keys are not read;
    an item whose parts all lack both keys renders nothing, not even a list
    marker. *)
Theorem itemize_ignored_keys
    (doc : Document) (p : Part) (parts : list Part)
    (font_size text code text' code' : option str) :
  ItemizeContent.execute_item doc
    (ItemMap (mkItemDict (Some (p :: parts)) font_size text code))
  = ItemizeContent.execute_item doc
      (ItemMap (mkItemDict (Some (map without_shadowed_code (p :: parts)))
                  font_size text' code'))
  /\ (forallb (fun p => match part_text p, part_code p with
                        | None, None => true
                        | _, _ => false
                        end) (p :: parts) = true ->
      ItemizeContent.execute_item doc
        (ItemMap (mkItemDict (Some (p :: parts)) font_size text code))
      = doc).
Proof.
  unfold ItemizeContent.execute_item. cbn [get item_parts item_font_size map].
  split.
  - change (without_shadowed_code p :: map without_shadowed_code parts)
      with (map without_shadowed_code (p :: parts)).
    now rewrite fold_execute_part_shadowed.
  - intros H. now rewrite fold_execute_part_keyless.
Qed.

Lemma itemize_ignored_keys_witness :
  ItemizeContent.execute_item []
    (ItemMap (mkItemDict (Some [mkPart None None; mkPart None None])
                None (Some (lit "legacy text")) (Some (lit "legacy code"))))
  = [].
Proof.
  apply (proj2 (itemize_ignored_keys []
                  (mkPart None None) [mkPart None None] None
                  (Some (lit "legacy text")) (Some (lit "legacy code"))
                  None None)).
  reflexivity.
Defined.

(* ================================================================== *)
(** * The date of the title *)
(* ================================================================== *)

Section DateFormat.
Import CPython.

Lemma digit_spec (c : ascii) (n : nat) :
  digit c = Some n -> n <= 9 /\ c = digit_char n.
Proof.
  unfold digit, digit_char.
  destruct (_ && _)%bool eqn:E; [|discriminate].
  apply andb_true_iff in E. destruct E as [Hlo Hhi].
  apply Nat.leb_le in Hlo, Hhi. intros H. inversion H. split; [lia|].
  replace (48 + (nat_of_ascii c - 48)) with (nat_of_ascii c) by lia.
  symmetry. apply ascii_nat_embedding.
Qed.

Lemma days_in_month_le (y m : nat) : days_in_month y m <= 31.
Proof.
  unfold days_in_month.
  do 12 (destruct m as [|m]; [try destruct (is_leap y); lia|]). lia.
Qed.

Lemma dir_Y_digits (y1 y2 y3 y4 : ascii) (a b c d : nat) (s : str) :
  digit y1 = Some a -> digit y2 = Some b -> digit y3 = Some c ->
  digit y4 = Some d ->
  dir_Y (y1 :: y2 :: y3 :: y4 :: s)
  = [(1000 * a + 100 * b + 10 * c + d, s)].
Proof.
  intros Ha Hb Hc Hd. unfold dir_Y, directive, d09. cbn [flat_map alt].
  rewrite Ha, Hb, Hc, Hd.
  apply digit_spec in Ha, Hb, Hc, Hd.
  destruct Ha as [Ha _], Hb as [Hb _], Hc as [Hc _], Hd as [Hd _].
  rewrite !(proj2 (Nat.leb_le _ 9)) by assumption.
  cbn [Nat.leb andb app]. do 2 f_equal. lia.
Qed.

Lemma map_flat_map {A B C : Type} (f : B -> C) (g : A -> list B)
    (l : list A) :
  map f (flat_map g l) = flat_map (fun x => map f (g x)) l.
Proof.
  induction l as [|a l IH]; simpl; [reflexivity|].
  rewrite map_app, IH. reflexivity.
Qed.

Lemma matches_Ymd_year (s s1 : str) (y : nat) :
  dir_Y s = [(y, s1)] ->
  matches_Ymd s = map (fun '(m, d, s5) => (mk y m d, s5)) (month_day s1).
Proof.
  intros H. unfold matches_Ymd, month_day. rewrite H. cbn [flat_map].
  rewrite app_nil_r, map_flat_map. apply flat_map_ext. intros s2.
  rewrite map_flat_map. apply flat_map_ext. intros [m s3].
  rewrite map_flat_map. apply flat_map_ext. intros s4.
  rewrite map_map. apply map_ext. intros [d s5]. reflexivity.
Qed.

Lemma month_day_two_digits :
  forallb (fun e => forallb (fun f => forallb (fun g => forallb (fun h =>
    let m := 10 * e + f in
    let d := 10 * g + h in
    let real :=
      ((1 <=? m)%nat && (m <=? 12)%nat && (1 <=? d)%nat && (d <=? 31)%nat)%bool in
    match month_day ("-"%char :: digit_char e :: digit_char f
                     :: "-"%char :: digit_char g :: digit_char h :: []) with
    | (m', d', []) :: _ => ((m' =? m)%nat && (d' =? d)%nat && real)%bool
    | _ => negb real
    end) (seq 0 10)) (seq 0 10)) (seq 0 10)) (seq 0 10) = true.
Proof. vm_compute. reflexivity. Qed.

Lemma forallb_digits (P : nat -> bool) (n : nat) :
  forallb P (seq 0 10) = true -> n <= 9 -> P n = true.
Proof.
  intros H Hn. rewrite forallb_forall in H. apply H, in_seq. lia.
Qed.

(** A string in the format to the letter parses when, and only when, the
    calendar has the date it writes. *)
Lemma strptime_Ymd_exact (raw : str) (dt : datetime) :
  read_YYYY_MM_DD raw = Some dt ->
  strptime_Ymd raw = if real_date dt then Some dt else None.
Proof.
  unfold read_YYYY_MM_DD.
  do 10 (destruct raw as [|? raw]; [discriminate|]).
  destruct raw; [|discriminate].
  repeat match goal with
         | |- context [match digit ?c with _ => _ end] =>
             destruct (digit c) eqn:?; [|discriminate]
         end.
  destruct (_ && _)%bool eqn:E; [|discriminate].
  apply andb_true_iff in E. destruct E as [E1 E2].
  apply Ascii.eqb_eq in E1, E2. subst. intros H.
  injection H as <-. unfold strptime_Ymd.
  erewrite matches_Ymd_year by (apply dir_Y_digits; eassumption).
  repeat match goal with
         | H : digit _ = Some _ |- _ =>
             apply digit_spec in H; destruct H as [? ?]
         end.
  subst.
  match goal with
  | |- context [month_day (_ :: digit_char ?e :: digit_char ?f :: _
                           :: digit_char ?g :: digit_char ?h :: _)] =>
      pose proof month_day_two_digits as B;
      apply (forallb_digits _ e) in B; [|assumption];
      apply (forallb_digits _ f) in B; [|assumption];
      apply (forallb_digits _ g) in B; [|assumption];
      apply (forallb_digits _ h) in B; [|assumption];
      cbv beta zeta in B
  end.
  match goal with
  | |- context [real_date (mk ?y ?m ?d)] =>
      pose proof (days_in_month_le y m) as L;
      assert (R : real_date (mk y m d) = true ->
                  1 <= y /\ 1 <= m <= 12 /\ 1 <= d <= days_in_month y m)
        by (unfold real_date, year, month, day;
            rewrite !andb_true_iff, !Nat.leb_le; tauto);
      assert (R' : 1 <= m <= 12 -> 1 <= d ->
                   real_date (mk y m d)
                   = ((1 <=? y)%nat && (d <=? days_in_month y m)%nat)%bool)
        by (unfold real_date, year, month, day; intros [R1 R2] R3;
            apply Nat.leb_le in R1, R2, R3; rewrite R1, R2, R3;
            cbn [andb]; rewrite andb_true_r; reflexivity)
  end.
  destruct (month_day _) as [|[[m' d'] [|? ?]] tl]; cbn [map].
  - destruct (real_date _); [|reflexivity]. exfalso.
    specialize (R eq_refl). rewrite negb_true_iff in B.
    rewrite !andb_false_iff, !Nat.leb_gt in B. lia.
  - rewrite !andb_true_iff, !Nat.eqb_eq, !Nat.leb_le in B.
    destruct B as [[-> ->] [[[B1 B2] B3] B4]].
    rewrite R' by lia. reflexivity.
  - destruct (real_date _); [|reflexivity]. exfalso.
    specialize (R eq_refl). rewrite negb_true_iff in B.
    rewrite !andb_false_iff, !Nat.leb_gt in B. lia.
Qed.

(** ** What the expression takes from a string *)

Lemma alt_inv (ranges : list (option (nat * nat))) :
  forall (acc : nat) (s : str) (n : nat) (s' : str),
    In (n, s') (alt ranges acc s) ->
    exists pre, s = pre ++ s' /\ length pre = length ranges.
Proof.
  induction ranges as [|[[lo hi]|] ranges IH]; intros acc s n s' H;
    cbn [alt] in H.
  - destruct H as [H|[]]. inversion H. exists []. auto.
  - destruct s as [|c s]; [destruct H|].
    destruct (digit c); [|destruct H].
    destruct (_ && _)%bool; [|destruct H].
    apply IH in H. destruct H as (pre & -> & L).
    exists (c :: pre). simpl. auto.
  - destruct s as [|c s]; [destruct H|].
    destruct (Ascii.eqb c " "); [|destruct H].
    apply IH in H. destruct H as (pre & -> & L).
    exists (c :: pre). simpl. auto.
Qed.

Lemma dash_inv (s s' : str) : In s' (dash s) -> s = "-"%char :: s'.
Proof.
  unfold dash. destruct s as [|c s]; [intros []|].
  destruct (Ascii.eqb_spec c "-"); [|intros []].
  intros [->|[]]. subst. reflexivity.
Qed.

Ltac alt_values H :=
  cbn [alt] in H;
  repeat match type of H with
         | In _ (match ?s with [] => _ | _ :: _ => _ end) =>
             destruct s as [|? ?]; [destruct H|]; cbn [alt] in H
         | In _ (match digit ?c with Some _ => _ | None => _ end) =>
             let n := fresh "n" in
             let E := fresh "E" in
             destruct (digit c) as [n|] eqn:E;
             [apply digit_spec in E; destruct E as [E _]|destruct H];
             cbn [alt] in H
         | In _ (if Ascii.eqb ?c ?d then _ else _) =>
             destruct (Ascii.eqb c d); [|destruct H]; cbn [alt] in H
         | In _ (if ?b then _ else _) =>
             let E := fresh "E" in
             destruct b eqn:E; [|destruct H];
             [apply andb_true_iff in E; destruct E as [? ?]];
             cbn [alt] in H
         end;
  destruct H as [H|[]]; inversion H; subst; clear H;
  repeat match goal with
         | E : (_ <=? _)%nat = true |- _ => apply Nat.leb_le in E
         end.

Lemma dir_Y_inv (s : str) (y : nat) (s' : str) :
  In (y, s') (dir_Y s) -> exists yy, s = yy ++ s' /\ length yy = 4.
Proof.
  unfold dir_Y, directive, d09. cbn [flat_map]. rewrite app_nil_r.
  apply alt_inv.
Qed.

Lemma dir_m_inv (s : str) (m : nat) (s' : str) :
  In (m, s') (dir_m s) ->
  1 <= m <= 12 /\ exists ms, s = ms ++ s' /\ 1 <= length ms <= 2.
Proof.
  unfold dir_m, directive, d19. cbn [flat_map]. rewrite app_nil_r.
  intros H. repeat (apply in_app_or in H; destruct H as [H|H]);
    (split;
     [alt_values H; lia
     |apply alt_inv in H; destruct H as (pre & -> & L); exists pre;
      simpl in L; split; [reflexivity|lia]]).
Qed.

Lemma dir_d_inv (s : str) (d : nat) (s' : str) :
  In (d, s') (dir_d s) ->
  1 <= d <= 31 /\ exists ds, s = ds ++ s' /\ 1 <= length ds <= 2.
Proof.
  unfold dir_d, directive, d09, d19. cbn [flat_map]. rewrite app_nil_r.
  intros H. repeat (apply in_app_or in H; destruct H as [H|H]);
    (split;
     [alt_values H; lia
     |apply alt_inv in H; destruct H as (pre & -> & L); exists pre;
      simpl in L; split; [reflexivity|lia]]).
Qed.

(** A string that parses is a year of four digits, a month and a day of
    one or two characters each, with dashes between, and writes a date of
    the calendar. *)
Lemma strptime_Ymd_accepts (raw : str) (dt : datetime) :
  strptime_Ymd raw = Some dt ->
  real_date dt = true
  /\ exists yy ms ds,
       raw = yy ++ "-" ++ ms ++ "-" ++ ds
       /\ length yy = 4
       /\ 1 <= length ms <= 2
       /\ 1 <= length ds <= 2.
Proof.
  unfold strptime_Ymd.
  destruct (matches_Ymd raw) as [|[dt' [|? ?]] tl] eqn:M; try discriminate.
  destruct (_ && _)%bool eqn:C; [|discriminate].
  intros H. injection H as ->.
  assert (Hin : In (dt, []) (matches_Ymd raw)) by (rewrite M; left; auto).
  clear M. unfold matches_Ymd in Hin.
  apply in_flat_map in Hin. destruct Hin as ([y s1] & Hy & Hin).
  apply in_flat_map in Hin. destruct Hin as (s2 & Hd1 & Hin).
  apply in_flat_map in Hin. destruct Hin as ([m s3] & Hm & Hin).
  apply in_flat_map in Hin. destruct Hin as (s4 & Hd2 & Hin).
  apply in_map_iff in Hin. destruct Hin as ([d s5] & Heq & Hd).
  injection Heq as <- ->.
  apply dir_Y_inv in Hy. destruct Hy as (yy & -> & Ly).
  apply dash_inv in Hd1, Hd2. subst.
  apply dir_m_inv in Hm. destruct Hm as (Hm & ms & -> & Lm).
  apply dir_d_inv in Hd. destruct Hd as (Hd & ds & -> & Ld).
  apply andb_true_iff in C. destruct C as [C1 C2]. cbn [year month day] in *.
  split.
  - unfold real_date. cbn [year month day]. rewrite C1, C2.
    destruct Hm as [Hm1 Hm2], Hd as [Hd1 _].
    apply Nat.leb_le in Hm1, Hm2, Hd1. rewrite Hm1, Hm2, Hd1. reflexivity.
  - exists yy, ms, ds. rewrite app_nil_r. repeat split; auto; lia.
Qed.

Lemma strptime_format (raw : str) :
  CPython.strptime raw "%Y-%m-%d" = strptime_Ymd raw.
Proof. reflexivity. Qed.

Lemma strftime_format (dt : datetime) :
  CPython.strftime dt "%B %d, %Y"
  = month_name (month dt) ++ " " ++ two_digits (day dt) ++ ", "
    ++ str_of_nat (year dt).
Proof. reflexivity. Qed.

Section TitleDate.
Variable new_EmbededContent : dict -> result EmbededContent.t.
Variable new_TextContent : dict -> result TextContent.t.
Variable new_ItemizeContent : dict -> result ItemizeContent.t.
Variable new_ImageContent : dict -> result ImageContent.t.
Variable new_VerbatimContent : dict -> result VerbatimContent.t.
Variable files : str -> option ContentFile.

Let assemble :=
  DocumentConfig_execute _ CPython.strptime CPython.strftime
    new_EmbededContent new_TextContent new_ItemizeContent new_ImageContent
    new_VerbatimContent files.
Let derive :=
  DocumentConfig.latest_date _ CPython.strptime CPython.strftime.

(** C10 (amended). With a non-empty revision history the date of the
    title requires the date of the last entry to parse under the format
    [%Y-%m-%d] of [strptime], which takes more than [YYYY-MM-DD] to the
    letter.  When the date does not parse the derivation raises
    [ValueError], and so does the assembly, at any include depth and
    whatever the content files are.  When it parses, the result is the
    name of the month, the day on two digits, a comma and the year, in
    decimal from the year 1000 on; the date is one of the calendar, written
    as four characters for the year and one or two each for the month and
    the day, with dashes between.  A date in the format to the letter
    parses exactly when the calendar has it. *)
Theorem latest_date_parses_last_entry
    (self : DocumentConfig.t) revs rev :
  DocumentConfig.revision_history self = revs ++ [rev] ->
  let raw := RevisionEntry.date rev in
  (CPython.strptime raw "%Y-%m-%d" = None ->
   derive self = Raise ValueError
   /\ forall fuel, assemble fuel self = Raises (Exception ValueError))
  /\ (forall dt,
        CPython.strptime raw "%Y-%m-%d" = Some dt ->
        (exists year_text,
            derive self
            = Ok (month_name (month dt) ++ " " ++ two_digits (day dt)
                  ++ ", " ++ year_text)
            /\ (1000 <= year dt -> year_text = str_of_nat (year dt)))
        /\ real_date dt = true
        /\ exists yy ms ds,
             raw = yy ++ "-" ++ ms ++ "-" ++ ds
             /\ length yy = 4
             /\ 1 <= length ms <= 2
             /\ 1 <= length ds <= 2)
  /\ (forall dt,
        read_YYYY_MM_DD raw = Some dt ->
        CPython.strptime raw "%Y-%m-%d"
        = if real_date dt then Some dt else None).
Proof.
  intros H raw.
  destruct (history_last _ _ _ H) as (first & others & Hh & Hlast).
  assert (Hd : derive self
               = match CPython.strptime raw "%Y-%m-%d" with
                 | Some dt => Ok (CPython.strftime dt "%B %d, %Y")
                 | None => Raise ValueError
                 end).
  { unfold derive, DocumentConfig.latest_date. rewrite Hh, Hlast.
    reflexivity. }
  split; [|split].
  - intros Hnone. split; [rewrite Hd, Hnone; reflexivity|].
    intros fuel.
    unfold assemble, DocumentConfig_execute, create_page_title,
      DocumentConfig.date_content.
    fold derive. rewrite Hd, Hnone. reflexivity.
  - intros dt Hsome. split.
    + exists (str_of_nat (year dt)). split; [|reflexivity].
      rewrite Hd, Hsome. apply f_equal, strftime_format.
    + rewrite strptime_format in Hsome. apply strptime_Ymd_accepts, Hsome.
  - intros dt Hread. rewrite strptime_format.
    apply strptime_Ymd_exact, Hread.
Qed.
End TitleDate.
End DateFormat.

(** A month and a day on one digit, and a day padded with a space, are not
    in the format [YYYY-MM-DD] to the letter, and the derivation returns a
    date for them. *)
Lemma latest_date_accepts_short_month_and_day :
  let config date :=
    example_config [RevisionEntry.mk "1.0" date [lit "init"]] in
  read_YYYY_MM_DD "2024-01-05" = Some (CPython.mk 2024 1 5)
  /\ read_YYYY_MM_DD "2024-1-5" = None
  /\ DocumentConfig.latest_date _ CPython.strptime CPython.strftime
       (config (lit "2024-1-5")) = Ok (lit "January 05, 2024")
  /\ read_YYYY_MM_DD "2024-02- 1" = None
  /\ DocumentConfig.latest_date _ CPython.strptime CPython.strftime
       (config (lit "2024-02- 1")) = Ok (lit "February 01, 2024").
Proof. cbv zeta. repeat split; vm_compute; reflexivity. Qed.

Lemma latest_date_parses_last_entry_witness :
  let config date :=
    example_config [RevisionEntry.mk "1.0" date [lit "init"]] in
  (DocumentConfig.latest_date _ CPython.strptime CPython.strftime
     (config (lit "01/02/2024")) = Raise ValueError
   /\ example_assemble 5 (config (lit "01/02/2024"))
      = Raises (Exception ValueError))
  /\ DocumentConfig.latest_date _ CPython.strptime CPython.strftime
       (config (lit "2024-2-1")) = Ok (lit "February 01, 2024")
  /\ CPython.strptime "2023-02-29" "%Y-%m-%d" = None
  /\ CPython.strptime "2024-02-29" "%Y-%m-%d"
     = Some (CPython.mk 2024 2 29).
Proof.
  cbv zeta.
  pose proof (latest_date_parses_last_entry example_new_EmbededContent
                example_new_TextContent (fun _ => Raise ValidationError)
                (fun _ => Raise ValidationError)
                (fun _ => Raise ValidationError) example_files
                (example_config
                   [RevisionEntry.mk "1.0" "01/02/2024" [lit "init"]])
                [] (RevisionEntry.mk "1.0" "01/02/2024" [lit "init"])
                eq_refl) as (H1 & _ & _).
  pose proof (latest_date_parses_last_entry example_new_EmbededContent
                example_new_TextContent (fun _ => Raise ValidationError)
                (fun _ => Raise ValidationError)
                (fun _ => Raise ValidationError) example_files
                (example_config
                   [RevisionEntry.mk "1.0" "2024-2-1" [lit "init"]])
                [] (RevisionEntry.mk "1.0" "2024-2-1" [lit "init"])
                eq_refl) as (_ & H2 & _).
  pose proof (latest_date_parses_last_entry example_new_EmbededContent
                example_new_TextContent (fun _ => Raise ValidationError)
                (fun _ => Raise ValidationError)
                (fun _ => Raise ValidationError) example_files
                (example_config
                   [RevisionEntry.mk "1.0" "2023-02-29" [lit "init"]])
                [] (RevisionEntry.mk "1.0" "2023-02-29" [lit "init"])
                eq_refl) as (_ & _ & H3).
  pose proof (latest_date_parses_last_entry example_new_EmbededContent
                example_new_TextContent (fun _ => Raise ValidationError)
                (fun _ => Raise ValidationError)
                (fun _ => Raise ValidationError) example_files
                (example_config
                   [RevisionEntry.mk "1.0" "2024-02-29" [lit "init"]])
                [] (RevisionEntry.mk "1.0" "2024-02-29" [lit "init"])
                eq_refl) as (_ & _ & H4).
  specialize (H1 eq_refl). destruct H1 as [H1 H1'].
  specialize (H2 (CPython.mk 2024 2 1) eq_refl).
  destruct H2 as [(year_text & H2 & Hy) _].
  rewrite (Hy ltac:(cbn [CPython.year]; lia)) in H2.
  specialize (H3 (CPython.mk 2023 2 29) eq_refl).
  specialize (H4 (CPython.mk 2024 2 29) eq_refl).
  split; [split; [exact H1 | exact (H1' 5)]|].
  split; [exact H2 | split; [exact H3 | exact H4]].
Defined.
